(** * Tabular reinforcement learning for the cart-pole: base class,
      Monte Carlo and Double Q-Learning

    A shallow embedding of [RL_Algorithm/RL_base.py],
    [RL_Algorithm/Algorithm/MC.py] and
    [RL_Algorithm/Algorithm/Double_Q_Learning.py].

    Conventions of the embedding.
    - Python floats, numpy float64 cells and torch scalars are read as the
      rational numbers they denote ([Q]); rounding, infinities and NaN are
      outside the embedding.  Equality of computed numbers is [==] on [Q].
    - An object of class [BaseAlgorithm] is a record; a method is a function
      from the record to an outcome (normal return or raised exception)
      together with the record as the call leaves it, because a Python
      exception does not undo the mutations made before it.
    - A [defaultdict] is a finite map plus the rule that reading a missing
      key stores the default first.
    - The draws of [np.random] are arguments of the function that uses them. *)

From Stdlib Require Import QArith Qminmax Qpower Qround Lqa Lia ZArith List String Ascii.
From Stdlib Require Import Decimal DecimalString DecimalZ.
From stdpp Require Import base option list gmap strings.

Local Open Scope Q_scope.

(** ** Numbers *)

Definition Qltb (x y : Q) : bool := negb (Qle_bool y x).

(** Python's builtin [max(a, b)]: the first argument stays unless the second
    is strictly greater. *)
Definition py_max (a b : Q) : Q := if Qltb a b then b else a.

(** [torch.clip(x, lo, hi)], that is [min(max(x, lo), hi)]. *)
Definition clip (x lo hi : Q) : Q :=
  let y := if Qltb x lo then lo else x in
  if Qltb hi y then hi else y.

(** [torch.linspace(start, end, steps)]: [steps] evenly spaced points, both
    ends included; one step gives [start] alone. *)
Definition linspace (start stop : Q) (steps : nat) : list Q :=
  match steps with
  | O => []
  | S O => [start]
  | S n =>
      let step := (stop - start) / inject_Z (Z.of_nat n) in
      map (fun i : nat => start + inject_Z (Z.of_nat i) * step) (seq 0 steps)
  end.

(** [torch.bucketize(v, boundaries)] with the default [right=False]: the
    first index [i] with [v <= boundaries[i]], the number of boundaries when
    there is none. *)
Fixpoint bucketize (v : Q) (boundaries : list Q) : nat :=
  match boundaries with
  | [] => O
  | b :: rest => if Qltb b v then S (bucketize v rest) else O
  end.

(** ** The algorithm object *)

Inductive ControlType :=
  | MONTE_CARLO
  | TEMPORAL_DIFFERENCE
  | Q_LEARNING
  | DOUBLE_Q_LEARNING.

Definition ControlType_eqb (a b : ControlType) : bool :=
  match a, b with
  | MONTE_CARLO, MONTE_CARLO
  | TEMPORAL_DIFFERENCE, TEMPORAL_DIFFERENCE
  | Q_LEARNING, Q_LEARNING
  | DOUBLE_Q_LEARNING, DOUBLE_Q_LEARNING => true
  | _, _ => false
  end.

(** A row of a value table is a numpy array ([np.zeros], the default of the
    [defaultdict]) or a Python list (what [json.load] yields and
    [load_q_value] stores).  Both are indexed and updated alike; only
    [.tolist()] and [json.dump] tell them apart. *)
Inductive vec :=
  | NdArray (xs : list Q)
  | PyList (xs : list Q).

Definition elems (v : vec) : list Q :=
  match v with NdArray xs | PyList xs => xs end.

Definition with_elems (v : vec) (xs : list Q) : vec :=
  match v with NdArray _ => NdArray xs | PyList _ => PyList xs end.

(** A state key is a Python tuple of numbers whose values are integers:
    [int]s out of [discretize_state], integer-valued [float]s out of
    [load_q_value]; Python compares and hashes [3] and [3.0] alike, so a
    table is keyed by the values.  A dict keeps the key object of the first
    insertion, and [str] prints [3.0] where it prints [3]: the field
    [float_keys] of the object records which keys of which table are stored
    as tuples of floats. *)
Abbreviation state_key := (list Z) (only parsing).
Abbreviation table := (gmap (list Z) vec) (only parsing).

(** The four tables an object can hold. *)
Inductive table_name := Q_values | N_values | Qa_values | Qb_values.

#[global] Instance table_name_eq_dec : EqDecision table_name.
Proof. solve_decision. Defined.

Definition table_code (t : table_name) : nat :=
  match t with Q_values => 0 | N_values => 1 | Qa_values => 2 | Qb_values => 3 end.

Definition table_of_code (n : nat) : table_name :=
  match n with
  | O => Q_values
  | 1%nat => N_values
  | 2%nat => Qa_values
  | _ => Qb_values
  end.

#[global] Instance table_name_countable : Countable table_name :=
  inj_countable' table_code table_of_code
    (fun t => match t with
              | Q_values | N_values | Qa_values | Qb_values => eq_refl
              end).

(** The four raw readings [obs['policy'][0, 0..3]]. *)
Record observation := {
  pose_cart_raw : Q;
  pose_pole_raw : Q;
  vel_cart_raw : Q;
  vel_pole_raw : Q
}.

Record BaseAlgorithm := {
  control_type : ControlType;
  lr : Q;
  discount_factor : Q;
  epsilon : Q;
  epsilon_decay : Q;
  final_epsilon : Q;
  num_of_action : nat;
  action_range : Q * Q;
  discretize_state_weight : nat * nat * nat * nat;
  q_values : table;
  n_values : table;
  training_error : list Q;
  obs_hist : list state_key;
  action_hist : list Z;
  reward_hist : list Q;
  qa_values : table;
  qb_values : table;
  check_update : bool;
  float_keys : gset (table_name * list Z)
}.

(** [BaseAlgorithm.__init__]. *)
Definition init (ct : ControlType) (n : nat) (range : Q * Q)
    (weight : nat * nat * nat * nat)
    (learning_rate initial_epsilon decay final discount : Q) : BaseAlgorithm :=
  {| control_type := ct; lr := learning_rate; discount_factor := discount;
     epsilon := initial_epsilon; epsilon_decay := decay;
     final_epsilon := final; num_of_action := n; action_range := range;
     discretize_state_weight := weight;
     q_values := ∅; n_values := ∅; training_error := [];
     obs_hist := []; action_hist := []; reward_hist := [];
     qa_values := ∅; qb_values := ∅; check_update := true;
     float_keys := ∅ |}.

Definition set_epsilon (a : BaseAlgorithm) (e : Q) : BaseAlgorithm :=
  {| control_type := control_type a; lr := lr a;
     discount_factor := discount_factor a; epsilon := e;
     epsilon_decay := epsilon_decay a; final_epsilon := final_epsilon a;
     num_of_action := num_of_action a; action_range := action_range a;
     discretize_state_weight := discretize_state_weight a;
     q_values := q_values a; n_values := n_values a;
     training_error := training_error a;
     obs_hist := obs_hist a; action_hist := action_hist a;
     reward_hist := reward_hist a;
     qa_values := qa_values a; qb_values := qb_values a;
     check_update := check_update a; float_keys := float_keys a |}.

Definition set_lr (a : BaseAlgorithm) (x : Q) : BaseAlgorithm :=
  {| control_type := control_type a; lr := x;
     discount_factor := discount_factor a; epsilon := epsilon a;
     epsilon_decay := epsilon_decay a; final_epsilon := final_epsilon a;
     num_of_action := num_of_action a; action_range := action_range a;
     discretize_state_weight := discretize_state_weight a;
     q_values := q_values a; n_values := n_values a;
     training_error := training_error a;
     obs_hist := obs_hist a; action_hist := action_hist a;
     reward_hist := reward_hist a;
     qa_values := qa_values a; qb_values := qb_values a;
     check_update := check_update a; float_keys := float_keys a |}.

Definition set_q_values (a : BaseAlgorithm) (t : table) : BaseAlgorithm :=
  {| control_type := control_type a; lr := lr a;
     discount_factor := discount_factor a; epsilon := epsilon a;
     epsilon_decay := epsilon_decay a; final_epsilon := final_epsilon a;
     num_of_action := num_of_action a; action_range := action_range a;
     discretize_state_weight := discretize_state_weight a;
     q_values := t; n_values := n_values a;
     training_error := training_error a;
     obs_hist := obs_hist a; action_hist := action_hist a;
     reward_hist := reward_hist a;
     qa_values := qa_values a; qb_values := qb_values a;
     check_update := check_update a; float_keys := float_keys a |}.

Definition set_n_values (a : BaseAlgorithm) (t : table) : BaseAlgorithm :=
  {| control_type := control_type a; lr := lr a;
     discount_factor := discount_factor a; epsilon := epsilon a;
     epsilon_decay := epsilon_decay a; final_epsilon := final_epsilon a;
     num_of_action := num_of_action a; action_range := action_range a;
     discretize_state_weight := discretize_state_weight a;
     q_values := q_values a; n_values := t;
     training_error := training_error a;
     obs_hist := obs_hist a; action_hist := action_hist a;
     reward_hist := reward_hist a;
     qa_values := qa_values a; qb_values := qb_values a;
     check_update := check_update a; float_keys := float_keys a |}.

Definition set_qa_values (a : BaseAlgorithm) (t : table) : BaseAlgorithm :=
  {| control_type := control_type a; lr := lr a;
     discount_factor := discount_factor a; epsilon := epsilon a;
     epsilon_decay := epsilon_decay a; final_epsilon := final_epsilon a;
     num_of_action := num_of_action a; action_range := action_range a;
     discretize_state_weight := discretize_state_weight a;
     q_values := q_values a; n_values := n_values a;
     training_error := training_error a;
     obs_hist := obs_hist a; action_hist := action_hist a;
     reward_hist := reward_hist a;
     qa_values := t; qb_values := qb_values a;
     check_update := check_update a; float_keys := float_keys a |}.

Definition set_qb_values (a : BaseAlgorithm) (t : table) : BaseAlgorithm :=
  {| control_type := control_type a; lr := lr a;
     discount_factor := discount_factor a; epsilon := epsilon a;
     epsilon_decay := epsilon_decay a; final_epsilon := final_epsilon a;
     num_of_action := num_of_action a; action_range := action_range a;
     discretize_state_weight := discretize_state_weight a;
     q_values := q_values a; n_values := n_values a;
     training_error := training_error a;
     obs_hist := obs_hist a; action_hist := action_hist a;
     reward_hist := reward_hist a;
     qa_values := qa_values a; qb_values := t;
     check_update := check_update a; float_keys := float_keys a |}.

Definition set_check_update (a : BaseAlgorithm) (b : bool) : BaseAlgorithm :=
  {| control_type := control_type a; lr := lr a;
     discount_factor := discount_factor a; epsilon := epsilon a;
     epsilon_decay := epsilon_decay a; final_epsilon := final_epsilon a;
     num_of_action := num_of_action a; action_range := action_range a;
     discretize_state_weight := discretize_state_weight a;
     q_values := q_values a; n_values := n_values a;
     training_error := training_error a;
     obs_hist := obs_hist a; action_hist := action_hist a;
     reward_hist := reward_hist a;
     qa_values := qa_values a; qb_values := qb_values a;
     check_update := b; float_keys := float_keys a |}.

Definition set_hist (a : BaseAlgorithm) (os : list state_key)
    (acts : list Z) (rs : list Q) : BaseAlgorithm :=
  {| control_type := control_type a; lr := lr a;
     discount_factor := discount_factor a; epsilon := epsilon a;
     epsilon_decay := epsilon_decay a; final_epsilon := final_epsilon a;
     num_of_action := num_of_action a; action_range := action_range a;
     discretize_state_weight := discretize_state_weight a;
     q_values := q_values a; n_values := n_values a;
     training_error := training_error a;
     obs_hist := os; action_hist := acts; reward_hist := rs;
     qa_values := qa_values a; qb_values := qb_values a;
     check_update := check_update a; float_keys := float_keys a |}.

Definition set_float_keys (a : BaseAlgorithm)
    (s : gset (table_name * list Z)) : BaseAlgorithm :=
  {| control_type := control_type a; lr := lr a;
     discount_factor := discount_factor a; epsilon := epsilon a;
     epsilon_decay := epsilon_decay a; final_epsilon := final_epsilon a;
     num_of_action := num_of_action a; action_range := action_range a;
     discretize_state_weight := discretize_state_weight a;
     q_values := q_values a; n_values := n_values a;
     training_error := training_error a;
     obs_hist := obs_hist a; action_hist := action_hist a;
     reward_hist := reward_hist a;
     qa_values := qa_values a; qb_values := qb_values a;
     check_update := check_update a; float_keys := s |}.

(** ** State discretisation *)

Definition pose_cart_bound : Q := 4.
(** [float(np.deg2rad(30.0))], the double nearest to pi/6. *)
Definition pose_pole_bound : Q := 5235987755982988 # 10000000000000000.
Definition vel_cart_bound : Q := 15.
Definition vel_pole_bound : Q := 15.

(** One dimension of [discretize_state]: clip, build the grid, bucketize. *)
Definition discretize_dim (bound : Q) (bins : nat) (raw : Q) : nat :=
  bucketize (clip raw (- bound) bound) (linspace (- bound) bound bins).

Definition discretize_state (a : BaseAlgorithm) (obs : observation)
    : state_key :=
  let '(pose_cart_bin, pose_pole_bin, vel_cart_bin, vel_pole_bin) :=
    discretize_state_weight a in
  [ Z.of_nat (discretize_dim pose_cart_bound pose_cart_bin (pose_cart_raw obs));
    Z.of_nat (discretize_dim pose_pole_bound pose_pole_bin (pose_pole_raw obs));
    Z.of_nat (discretize_dim vel_cart_bound vel_cart_bin (vel_cart_raw obs));
    Z.of_nat (discretize_dim vel_pole_bound vel_pole_bin (vel_pole_raw obs)) ].

(** The bound, bin count and raw reading of each dimension, in the order of
    the components of the state key. *)
Definition dimensions (a : BaseAlgorithm) (obs : observation)
    : list (Q * nat * Q) :=
  let '(pose_cart_bin, pose_pole_bin, vel_cart_bin, vel_pole_bin) :=
    discretize_state_weight a in
  [ (pose_cart_bound, pose_cart_bin, pose_cart_raw obs);
    (pose_pole_bound, pose_pole_bin, pose_pole_raw obs);
    (vel_cart_bound, vel_cart_bin, vel_cart_raw obs);
    (vel_pole_bound, vel_pole_bin, vel_pole_raw obs) ].

(** ** Action mapping and epsilon decay *)

(** [mapping_action]; the tensor it returns is read as its value. *)
Definition mapping_action (a : BaseAlgorithm) (action : Z) : Q :=
  let '(action_min, action_max) := action_range a in
  if Nat.eqb (num_of_action a) 1 then action_min
  else
    action_min
    + (inject_Z action / inject_Z (Z.of_nat (num_of_action a) - 1))
      * (action_max - action_min).

Definition decay_epsilon (a : BaseAlgorithm) : BaseAlgorithm :=
  set_epsilon a (py_max (epsilon a * epsilon_decay a) (final_epsilon a)).

(** ** Exceptions and mutation *)

Inductive exception :=
  | IndexError
  | KeyError
  | ValueError
  | AttributeError
  | TypeError
  | ZeroDivisionError.

Inductive outcome (A : Type) :=
  | Returns (x : A)
  | Raises (e : exception).
Arguments Returns {A} x.
Arguments Raises {A} e.

(** A method body: it runs on the object and leaves an outcome and the
    object as mutated so far. *)
Definition M (A : Type) : Type := BaseAlgorithm -> outcome A * BaseAlgorithm.

Definition ret {A} (x : A) : M A := fun a => (Returns x, a).
Definition raise {A} (e : exception) : M A := fun a => (Raises e, a).
Definition bind {A B} (c : M A) (k : A -> M B) : M B :=
  fun a =>
    match c a with
    | (Returns x, a') => k x a'
    | (Raises e, a') => (Raises e, a')
    end.
Definition gets {A} (f : BaseAlgorithm -> A) : M A := fun a => (Returns (f a), a).
Definition modify (f : BaseAlgorithm -> BaseAlgorithm) : M unit :=
  fun a => (Returns tt, f a).
Definition lift {A} (e : exception) (o : option A) : M A :=
  match o with Some x => ret x | None => raise e end.

Notation "'let*' x ':=' c 'in' k" := (bind c (fun x => k))
  (at level 10, x name, c at level 100, k at level 200).
Notation "c ;; k" := (bind c (fun _ => k))
  (at level 100, k at level 200, right associativity).

Definition get_table (t : table_name) (a : BaseAlgorithm) : table :=
  match t with
  | Q_values => q_values a
  | N_values => n_values a
  | Qa_values => qa_values a
  | Qb_values => qb_values a
  end.

Definition set_table (t : table_name) (a : BaseAlgorithm) (m : table)
    : BaseAlgorithm :=
  match t with
  | Q_values => set_q_values a m
  | N_values => set_n_values a m
  | Qa_values => set_qa_values a m
  | Qb_values => set_qb_values a m
  end.

(** Indexing a sequence of length [len] with a Python integer: negative
    indices count from the end, anything else out of range is an
    [IndexError]. *)
Definition py_index (len : nat) (i : Z) : option nat :=
  if ((0 <=? i) && (i <? Z.of_nat len))%Z then Some (Z.to_nat i)
  else if ((- Z.of_nat len <=? i) && (i <? 0))%Z
       then Some (Z.to_nat (Z.of_nat len + i))
       else None.

(** [row[i]] *)
Definition vec_get (row : vec) (i : Z) : option Q :=
  match py_index (length (elems row)) i with
  | Some n => elems row !! n
  | None => None
  end.

(** [row[i] = x] *)
Definition vec_set (row : vec) (i : Z) (x : Q) : option vec :=
  match py_index (length (elems row)) i with
  | Some n => Some (with_elems row (<[n := x]> (elems row)))
  | None => None
  end.

(** Storing [row] under a key that may be new to table [t]; [is_float]
    tells whether the key object at hand is a tuple of floats.  A key the
    table already holds keeps its stored key object. *)
Definition store (t : table_name) (key : state_key) (is_float : bool)
    (row : vec) (a : BaseAlgorithm) : BaseAlgorithm :=
  let a' := set_table t a (<[key := row]> (get_table t a)) in
  match get_table t a !! key with
  | Some _ => a'
  | None =>
      set_float_keys a'
        (if is_float then {[ (t, key) ]} ∪ float_keys a
         else float_keys a ∖ {[ (t, key) ]})
  end.

(** [self.<t>[key]] on a [defaultdict(lambda: np.zeros(self.num_of_action))]:
    a missing key is stored with the zero row before it is returned; the
    keys looked up are the tuples of [int]s of [discretize_state]. *)
Definition dd_getitem (t : table_name) (key : state_key) : M vec :=
  fun a =>
    match get_table t a !! key with
    | Some row => (Returns row, a)
    | None =>
        let row := NdArray (repeat 0 (num_of_action a)) in
        (Returns row, store t key false row a)
    end.

(** [self.<t>[key] = row] *)
Definition dd_setitem (t : table_name) (key : state_key) (is_float : bool)
    (row : vec) : M unit :=
  modify (store t key is_float row).

(** Loading [row[i]] for a row object obtained from a table. *)
Definition row_getitem (row : vec) (i : Z) : M Q :=
  lift IndexError (vec_get row i).

(** Storing into cell [i] of the row object that table [t] holds at [key]
    (the row is shared with the table, so the table sees the store). *)
Definition row_setitem (t : table_name) (key : state_key) (i : Z) (x : Q)
    : M unit :=
  fun a =>
    match get_table t a !! key with
    | Some row =>
        match vec_set row i x with
        | Some row' => (Returns tt, set_table t a (<[key := row']> (get_table t a)))
        | None => (Raises IndexError, a)
        end
    | None => (Raises KeyError, a)
    end.

(** [np.argmax]: the index of the first maximum; an empty sequence is a
    [ValueError]. *)
Fixpoint argmax_from (best_i : nat) (best : Q) (i : nat) (xs : list Q) : nat :=
  match xs with
  | [] => best_i
  | x :: rest =>
      if Qltb best x then argmax_from i x (S i) rest
      else argmax_from best_i best (S i) rest
  end.

Definition np_argmax (xs : list Q) : option nat :=
  match xs with
  | [] => None
  | x :: rest => Some (argmax_from 0 x 1 rest)
  end.

(** [np.max]: the largest element; an empty sequence is a [ValueError]. *)
Definition np_max (xs : list Q) : option Q :=
  match xs with
  | [] => None
  | x :: rest => Some (fold_left (fun m y => if Qltb m y then y else m) rest x)
  end.

(** ** Epsilon-greedy selection *)

(** What the two calls of [np.random] return: [rand] is the result of
    [np.random.rand()], and [np.random.randint(n)] returns
    [randint mod n]. *)
Record draws := {
  rand : Q;
  randint : nat
}.

Definition np_random_randint (d : draws) (n : nat) : M Z :=
  match n with
  | O => raise ValueError
  | _ => ret (Z.of_nat (randint d mod n))
  end.

Definition get_discretize_action (d : draws) (obs_dis : state_key) : M Z :=
  let* ct := gets control_type in
  let* eps := gets epsilon in
  let* n := gets num_of_action in
  if ControlType_eqb ct DOUBLE_Q_LEARNING then
    if Qltb (rand d) eps then np_random_randint d n
    else
      let* qa := dd_getitem Qa_values obs_dis in
      let* qb := dd_getitem Qb_values obs_dis in
      let* action_from_q1 := lift ValueError (np_argmax (elems qa)) in
      let* action_from_q2 := lift ValueError (np_argmax (elems qb)) in
      let* v1 := row_getitem qa (Z.of_nat action_from_q1) in
      let* v2 := row_getitem qb (Z.of_nat action_from_q2) in
      let best_action :=
        if Qle_bool v2 v1 then action_from_q1 else action_from_q2 in
      ret (Z.of_nat best_action)
  else
    if Qltb (rand d) eps then np_random_randint d n
    else
      let* row := dd_getitem Q_values obs_dis in
      let* best := lift ValueError (np_argmax (elems row)) in
      ret (Z.of_nat best).

(** ** Double Q-Learning *)

Module Double_Q_Learning.

Definition init (n : nat) (range : Q * Q) (weight : nat * nat * nat * nat)
    (learning_rate initial_epsilon decay final discount : Q) : BaseAlgorithm :=
  init DOUBLE_Q_LEARNING n range weight learning_rate initial_epsilon decay
    final discount.

(** One arm of [update]: [target] is the table written, [other] the table
    whose maximum gives the bootstrap value. *)
Definition update_arm (target other : table_name) (obs : state_key)
    (action : Z) (reward : Q) (next_obs : state_key) : M unit :=
  let* other_table := gets (get_table other) in
  let* best :=
    match other_table !! next_obs with
    | Some row => lift ValueError (np_max (elems row))
    | None => ret 0
    end in
  let* row := dd_getitem target obs in
  let* old := row_getitem row action in
  let* rate := gets lr in
  let* gamma := gets discount_factor in
  row_setitem target obs action
    (old + rate * (reward + gamma * best - old)).

Definition update (obs : observation) (action : Z) (reward : Q)
    (next_obs : observation) : M unit :=
  let* obs := gets (fun a => discretize_state a obs) in
  let* next_obs := gets (fun a => discretize_state a next_obs) in
  let* toggle := gets check_update in
  (if toggle
   then update_arm Qa_values Qb_values obs action reward next_obs
   else update_arm Qb_values Qa_values obs action reward next_obs) ;;
  modify (fun a => set_check_update a (negb (check_update a))).

End Double_Q_Learning.

(** ** Monte Carlo *)

Module MC.

Definition init (n : nat) (range : Q * Q) (weight : nat * nat * nat * nat)
    (learning_rate initial_epsilon decay final discount : Q) : BaseAlgorithm :=
  init MONTE_CARLO n range weight learning_rate initial_epsilon decay
    final discount.

(** Step 2 of [update]: [return_list] is allocated with zeros and filled
    from the last index to the first while [G] accumulates. *)
Definition compute_returns (gamma : Q) (reward_hist : list Q) : list Q :=
  snd
    (fold_left
       (fun (st : Q * list Q) (i : nat) =>
          let G := nth i reward_hist 0 + gamma * fst st in
          (G, <[i := G]> (snd st)))
       (rev (seq 0 (length reward_hist)))
       (0, repeat 0 (length reward_hist))).

(** The body of the first-visit branch for a pair not seen before in the
    episode: count the visit, then move the value towards the return with
    step [1 / count].  A count that is zero after the increment (the stored
    count was -1, which no update produces) has no reciprocal: a list row
    raises [ZeroDivisionError], an array row yields an infinity, which is
    outside the rationals; both are reported as [ZeroDivisionError]. *)
Definition first_visit (state : state_key) (action : Z) (G : option Q)
    : M unit :=
  let* n_row := dd_getitem N_values state in
  let* n_old := row_getitem n_row action in
  row_setitem N_values state action (n_old + 1) ;;
  let* n_row := dd_getitem N_values state in
  let* n_new := row_getitem n_row action in
  if Qeq_bool n_new 0 then raise ZeroDivisionError
  else
    let alpha := 1 / n_new in
    let* q_row := dd_getitem Q_values state in
    let* q_old := row_getitem q_row action in
    let* G_t := lift IndexError G in
    row_setitem Q_values state action (q_old + alpha * (G_t - q_old)).

(** Step 3 of [update]: the loop over [t in range(len(self.obs_hist))]. *)
Fixpoint first_visit_loop (return_list : list Q) (ts : list nat)
    (visited_states : gset (list Z * Z)) : M unit :=
  match ts with
  | [] => ret tt
  | t :: rest =>
      let* state := gets (fun a => obs_hist a !! t) in
      let* state := lift IndexError state in
      let* action := gets (fun a => action_hist a !! t) in
      let* action := lift IndexError action in
      if bool_decide ((state, action) ∈ visited_states)
      then first_visit_loop return_list rest visited_states
      else
        first_visit state action (return_list !! t) ;;
        first_visit_loop return_list rest ({[ (state, action) ]} ∪ visited_states)
  end.

Definition update (done : bool) (obs : observation) (action : Z)
    (reward_value : Q) : M unit :=
  let* obs := gets (fun a => discretize_state a obs) in
  if negb done then
    modify (fun a =>
      set_hist a (obs_hist a ++ [obs]) (action_hist a ++ [action])
        (reward_hist a ++ [reward_value]))
  else
    let* return_list :=
      gets (fun a => compute_returns (discount_factor a) (reward_hist a)) in
    let* steps := gets (fun a => length (obs_hist a)) in
    first_visit_loop return_list (seq 0 steps) ∅ ;;
    modify (fun a => set_hist a [] [] []).

(** *** The update as the description of first-visit Monte Carlo words it *)

(** The return of a reward sequence: [G = r + gamma * G'], nothing after
    the last step. *)
Fixpoint discounted_return (gamma : Q) (rewards : list Q) : Q :=
  match rewards with
  | [] => 0
  | r :: rest => r + gamma * discounted_return gamma rest
  end.

(** [G_i]: the return from step [i] on. *)
Definition return_from (gamma : Q) (rewards : list Q) (i : nat) : Q :=
  discounted_return gamma (drop i rewards).

(** Step [t] is the first occurrence of its pair when no earlier step of
    the episode has the same state and action. *)
Definition first_occurrence (pairs : list (list Z * Z)) (t : nat) : bool :=
  match pairs !! t with
  | Some p => bool_decide (p ∉ take t pairs)
  | None => false
  end.

Fixpoint first_visit_spec_loop (gamma : Q) (rewards : list Q)
    (pairs : list (list Z * Z)) (ts : list nat) : M unit :=
  match ts with
  | [] => ret tt
  | t :: rest =>
      match pairs !! t with
      | None => raise IndexError
      | Some (state, action) =>
          if first_occurrence pairs t
          then
            first_visit state action
              (if bool_decide (t < length rewards)%nat
               then Some (return_from gamma rewards t) else None) ;;
            first_visit_spec_loop gamma rewards pairs rest
          else first_visit_spec_loop gamma rewards pairs rest
      end
  end.

Definition episode_update_spec : M unit :=
  let* gamma := gets discount_factor in
  let* rewards := gets reward_hist in
  let* states := gets obs_hist in
  let* actions := gets action_hist in
  first_visit_spec_loop gamma rewards (zip states actions)
    (seq 0 (length states)) ;;
  modify (fun a => set_hist a [] [] []).

End MC.

(** ** Checkpoints *)

(** *** Text of a state key *)

(** [str(z)] of a Python [int]. *)
Definition str_int (z : Z) : string := NilZero.string_of_int (Z.to_int z).

(** [repr] of a [float] whose value is the integer [z], for [z] below
    10^16 in absolute value (above, Python switches to the exponent
    notation, and a negative zero prints its sign). *)
Definition str_float (z : Z) : string := String.append (str_int z) ".0".

(** [str(k)] of a tuple whose components print with [str_component]; a
    tuple of one element ends in a comma. *)
Definition str_tuple_with (str_component : Z -> string) (k : list Z)
    : string :=
  match k with
  | [] => "()"
  | [x] => String.append "(" (String.append (str_component x) ",)")
  | _ =>
      String.append "("
        (String.append (String.concat ", " (map str_component k)) ")")
  end.

(** [str(k)] of a key stored as a tuple of floats or as a tuple of ints. *)
Definition str_tuple (is_float : bool) (k : list Z) : string :=
  str_tuple_with (if is_float then str_float else str_int) k.

Definition in_chars (c : ascii) (chars : string) : bool :=
  existsb (Ascii.eqb c) (list_ascii_of_string chars).

Fixpoint lstrip (chars s : string) : string :=
  match s with
  | EmptyString => EmptyString
  | String c s' => if in_chars c chars then lstrip chars s' else s
  end.

Fixpoint rstrip (chars s : string) : string :=
  match s with
  | EmptyString => EmptyString
  | String c s' =>
      match rstrip chars s' with
      | EmptyString =>
          if in_chars c chars then EmptyString else String c EmptyString
      | r => String c r
      end
  end.

(** [s.strip(chars)] *)
Definition strip (chars s : string) : string := rstrip chars (lstrip chars s).

(** [s.replace(old, new)] for a one-character [old]. *)
Fixpoint replace (old : ascii) (new s : string) : string :=
  match s with
  | EmptyString => EmptyString
  | String c s' =>
      if Ascii.eqb c old then String.append new (replace old new s')
      else String c (replace old new s')
  end.

(** [s.split(sep)] for a non-empty [sep]: [cur] is the piece being read and
    [skip] counts the characters of a separator still to pass over. *)
Fixpoint split_go (sep : string) (skip : nat) (cur s : string) : list string :=
  match s with
  | EmptyString => [cur]
  | String c s' =>
      match skip with
      | S k => split_go sep k cur s'
      | O =>
          if String.prefix sep s
          then cur :: split_go sep (String.length sep - 1) EmptyString s'
          else split_go sep 0 (String.append cur (String c EmptyString)) s'
      end
  end.

Definition split (sep s : string) : list string :=
  split_go sep 0 EmptyString s.

(** The double nearest to an integer (round to nearest, ties to even, 53
    bits); overflow to infinity, from 2^1024 on, is outside the embedding. *)
Definition round_binary64 (z : Z) : Z :=
  let m := Z.abs z in
  if (m <? 2 ^ 53)%Z then z
  else
    let e := (Z.log2 m - 52)%Z in
    let q := (m / 2 ^ e)%Z in
    let r := (m mod 2 ^ e)%Z in
    let half := (2 ^ (e - 1))%Z in
    let q' :=
      if (r <? half)%Z then q
      else if (half <? r)%Z then (q + 1)%Z
      else if Z.even q then q else (q + 1)%Z in
    (Z.sgn z * (q' * 2 ^ e))%Z.

(** The text before the first point of a literal, and the text after it
    when there is a point. *)
Fixpoint split_point (s : string) : string * option string :=
  match s with
  | EmptyString => (EmptyString, None)
  | String c s' =>
      if Ascii.eqb c "." then (EmptyString, Some s')
      else let '(int_part, fraction) := split_point s' in
           (String c int_part, fraction)
  end.

Definition all_zeros (s : string) : bool :=
  forallb (Ascii.eqb "0") (list_ascii_of_string s).

(** [float(s)] on the literals that [str] produces for an [int] and for an
    integer-valued [float]: an optional minus sign, decimal digits, and
    possibly a point followed by zeros.  [float] accepts more spellings (a
    non-zero fraction, which makes a key that is no tuple of integers; an
    exponent, a plus sign, blanks, underscores, a missing integer part,
    [inf], [nan]): they are answered with [None] like the malformed ones.
    Below 2^53 no file written by [save_q_value] contains them. *)
Definition py_float (s : string) : option Z :=
  let '(int_part, fraction) := split_point s in
  match NilZero.int_of_string int_part with
  | Some d =>
      if match fraction with
         | Some f => all_zeros f
         | None => true
         end
      then Some (round_binary64 (Z.of_int d))
      else None
  | None => None
  end.

(** [tuple(map(float, state.strip('()').split(', ')))] *)
Definition parse_state_strip (state : string) : option state_key :=
  mapM py_float (split ", " (strip "()" state)).

(** [tuple(map(float, state.replace('(', '').replace(')', '').split(', ')))] *)
Definition parse_state_replace (state : string) : option state_key :=
  mapM py_float
    (split ", " (replace ")" EmptyString (replace "(" EmptyString state))).

(** *** The JSON document *)

(** A section maps the text of a state key to a list of numbers; the entries
    are kept in the order of the document.  [json.dump] followed by
    [json.load] is the identity on such data. *)
Abbreviation section := (list (string * list Q)) (only parsing).

(** The document; a section that is not in it is [None]. *)
Record checkpoint := {
  ck_q_values : option section;
  ck_n_values : option section;
  ck_qa_values : option section;
  ck_qb_values : option section
}.

(** [str(k)] for a key [k] of table [t] of the object. *)
Definition str_key (t : table_name) (a : BaseAlgorithm) (k : list Z)
    : string :=
  str_tuple (bool_decide ((t, k) ∈ float_keys a)) k.

(** [{str(k): v.tolist() for k, v in self.<t>.items()}]: a row that is a
    list has no [tolist].  The entries come in the order of [map_to_list]
    where Python has insertion order; distinct keys have distinct texts, so
    the comprehension merges nothing. *)
Definition str_keys_tolist (t : table_name) (a : BaseAlgorithm)
    : option (list (string * vec)) :=
  mapM (fun kv : list Z * vec =>
          match kv.2 with
          | NdArray xs => Some (str_key t a kv.1, PyList xs)
          | PyList _ => None
          end)
       (map_to_list (get_table t a)).

(** [{str(k): v for k, v in self.<t>.items()}] *)
Definition str_keys (t : table_name) (a : BaseAlgorithm)
    : list (string * vec) :=
  map (fun kv : list Z * vec => (str_key t a kv.1, kv.2))
      (map_to_list (get_table t a)).

(** [try: ... v.tolist() ... except: ... v ...] *)
Definition str_keys_try (t : table_name) (a : BaseAlgorithm)
    : list (string * vec) :=
  match str_keys_tolist t a with
  | Some l => l
  | None => str_keys t a
  end.

(** [json.dump] of one section: an array row is not serialisable. *)
Definition json_dump (l : list (string * vec)) : option section :=
  mapM (fun kv : string * vec =>
          match kv.2 with
          | PyList xs => Some (kv.1, xs)
          | NdArray _ => None
          end)
       l.

(** [save_q_value]; the result is the document written to the file. *)
Definition save_q_value : M checkpoint :=
  let* q_values_str_keys := gets (str_keys_try Q_values) in
  let* ct := gets control_type in
  if ControlType_eqb ct MONTE_CARLO then
    let* n_values_str_keys := gets (str_keys_try N_values) in
    let* q_section := lift TypeError (json_dump q_values_str_keys) in
    let* n_section := lift TypeError (json_dump n_values_str_keys) in
    ret {| ck_q_values := Some q_section; ck_n_values := Some n_section;
           ck_qa_values := None; ck_qb_values := None |}
  else if ControlType_eqb ct DOUBLE_Q_LEARNING then
    let* qa := gets (str_keys_tolist Qa_values) in
    let* qa_values_str_keys := lift AttributeError qa in
    let* qb := gets (str_keys_tolist Qb_values) in
    let* qb_values_str_keys := lift AttributeError qb in
    let* qa_section := lift TypeError (json_dump qa_values_str_keys) in
    let* qb_section := lift TypeError (json_dump qb_values_str_keys) in
    ret {| ck_q_values := None; ck_n_values := None;
           ck_qa_values := Some qa_section; ck_qb_values := Some qb_section |}
  else
    let* q_section := lift TypeError (json_dump q_values_str_keys) in
    ret {| ck_q_values := Some q_section; ck_n_values := None;
           ck_qa_values := None; ck_qb_values := None |}.

(** A loop [for state, values in section.items(): self.<t>[key] = values.copy()];
    the keys it stores are tuples of floats. *)
Fixpoint load_rows (parse : string -> option state_key) (t : table_name)
    (entries : section) : M unit :=
  match entries with
  | [] => ret tt
  | (state, values) :: rest =>
      let* tuple_state := lift ValueError (parse state) in
      dd_setitem t tuple_state true (PyList values) ;;
      load_rows parse t rest
  end.

(** The loop over [data['q_values']], with its inner test of the control
    type. *)
Fixpoint load_q_rows (entries : section) : M unit :=
  match entries with
  | [] => ret tt
  | (state, action_values) :: rest =>
      let* tuple_state := lift ValueError (parse_state_replace state) in
      dd_setitem Q_values tuple_state true (PyList action_values) ;;
      let* ct := gets control_type in
      (if ControlType_eqb ct DOUBLE_Q_LEARNING
       then dd_setitem Qa_values tuple_state true (PyList action_values) ;;
            dd_setitem Qb_values tuple_state true (PyList action_values)
       else ret tt) ;;
      load_q_rows rest
  end.

(** [load_q_value]; [data] is what [json.load] read from the file. *)
Definition load_q_value (data : checkpoint) : M table :=
  let* ct := gets control_type in
  if ControlType_eqb ct DOUBLE_Q_LEARNING then
    let* data_qa_values := lift KeyError (ck_qa_values data) in
    let* data_qb_values := lift KeyError (ck_qb_values data) in
    load_rows parse_state_strip Qa_values data_qa_values ;;
    load_rows parse_state_strip Qb_values data_qb_values ;;
    gets qa_values
  else
    let* data_q_values := lift KeyError (ck_q_values data) in
    load_q_rows data_q_values ;;
    (if ControlType_eqb ct MONTE_CARLO
     then let* data_n_values := lift KeyError (ck_n_values data) in
          load_rows parse_state_replace N_values data_n_values
     else ret tt) ;;
    gets q_values.

(** The entry of a section that decides the row of [key] after loading:
    the last one whose text parses to [key]. *)
Fixpoint section_lookup (parse : string -> option state_key)
    (entries : section) (key : state_key) : option (list Q) :=
  match entries with
  | [] => None
  | (state, values) :: rest =>
      match section_lookup parse rest key with
      | Some v => Some v
      | None =>
          if bool_decide (parse state = Some key) then Some values else None
      end
  end.

(** ** Reading a table without touching it *)

(** The row a table answers for [key]: the stored one, or the zero row a
    [defaultdict] would create. *)
Definition row_or_default (t : table_name) (key : state_key)
    (a : BaseAlgorithm) : vec :=
  default (NdArray (repeat 0 (num_of_action a))) (get_table t a !! key).

(** The object after [self.<t>[key]] has been read. *)
Definition materialise (t : table_name) (key : state_key)
    (a : BaseAlgorithm) : BaseAlgorithm :=
  match get_table t a !! key with
  | Some _ => a
  | None => store t key false (row_or_default t key a) a
  end.

(** The table [Double_Q_Learning.update] writes for a given toggle, and the
    table it reads the bootstrap value from. *)
Definition target_table (toggle : bool) : table_name :=
  if toggle then Qa_values else Qb_values.
Definition other_table (toggle : bool) : table_name :=
  if toggle then Qb_values else Qa_values.

(** [max(Q[key])], with 0 for a key the table does not hold. *)
Definition max_or_zero (t : table_name) (key : state_key)
    (a : BaseAlgorithm) : option Q :=
  match get_table t a !! key with
  | Some row => np_max (elems row)
  | None => Some 0
  end.

(** [a'] differs from [a] in its tables at most. *)
Definition same_frame (a a' : BaseAlgorithm) : Prop :=
  control_type a' = control_type a /\ lr a' = lr a /\
  discount_factor a' = discount_factor a /\ epsilon a' = epsilon a /\
  epsilon_decay a' = epsilon_decay a /\ final_epsilon a' = final_epsilon a /\
  num_of_action a' = num_of_action a /\ action_range a' = action_range a /\
  discretize_state_weight a' = discretize_state_weight a /\
  training_error a' = training_error a /\
  obs_hist a' = obs_hist a /\ action_hist a' = action_hist a /\
  reward_hist a' = reward_hist a /\ check_update a' = check_update a.

(** A computation that changes tables only. *)
Definition keeps_frame {A} (c : M A) : Prop :=
  forall a, same_frame a (c a).2.

(** A computation that neither reads nor writes the learning rate. *)
Definition lr_blind {A} (c : M A) : Prop :=
  forall a x, c (set_lr a x) = ((c a).1, set_lr (c a).2 x).

(** The cell [i] of the row a table answers for [state]. *)
Definition cell (t : table_name) (state : state_key) (i : nat)
    (a : BaseAlgorithm) : Q :=
  nth i (elems (row_or_default t state a)) 0.

(** Every row of the table has [num_of_action] cells. *)
Definition rows_sized (t : table_name) (a : BaseAlgorithm) : Prop :=
  forall s row, get_table t a !! s = Some row ->
    length (elems row) = num_of_action a.

Definition counts_nonneg (a : BaseAlgorithm) : Prop :=
  forall s row, n_values a !! s = Some row ->
    Forall (fun c => 0 <= c) (elems row).

(** An object in the middle of an episode as the calls of [MC.update] with
    [done = false] build it from [MC.init], with the action indices that
    [get_discretize_action] returns. *)
Definition episode_ok (a : BaseAlgorithm) : Prop :=
  length (action_hist a) = length (obs_hist a) /\
  length (reward_hist a) = length (obs_hist a) /\
  Forall (fun act => (0 <= act < Z.of_nat (num_of_action a))%Z)
    (action_hist a) /\
  rows_sized N_values a /\ rows_sized Q_values a /\ counts_nonneg a.

(** What the scan of the first [k] steps of an episode has done to the
    cells of [state] and action [i]: a pair that occurs is counted once and
    its value is moved towards the return of its first occurrence; a pair
    that does not occur keeps its two cells. *)
Definition episode_effect_upto (a a' : BaseAlgorithm) (state : state_key)
    (i : nat) (pairs : list (list Z * Z)) (k : nat) : Prop :=
  ((state, Z.of_nat i) ∈ take k pairs ->
   cell N_values state i a' = cell N_values state i a + 1 /\
   (exists t,
      (t < k)%nat /\
      pairs !! t = Some (state, Z.of_nat i) /\
      ((state, Z.of_nat i) ∉ take t pairs) /\
      cell Q_values state i a'
      = cell Q_values state i a
        + 1 / (cell N_values state i a + 1)
          * (MC.return_from (discount_factor a) (reward_hist a) t
             - cell Q_values state i a))) /\
  ((state, Z.of_nat i) ∉ take k pairs ->
   cell N_values state i a' = cell N_values state i a /\
   cell Q_values state i a' = cell Q_values state i a).

(** The same for the whole episode. *)
Definition episode_effect (a a' : BaseAlgorithm) (state : state_key)
    (i : nat) : Prop :=
  episode_effect_upto a a' state i (zip (obs_hist a) (action_hist a))
    (length (obs_hist a)).

(** Every character of [s] passes the test [P]. *)
Fixpoint string_forall (P : ascii -> bool) (s : string) : bool :=
  match s with
  | EmptyString => true
  | String c s' => P c && string_forall P s'
  end.

(** A piece of text made of digits and minus signs. *)
Definition numeral (s : string) : bool :=
  string_forall (fun c => in_chars c "-0123456789") s.

(** A piece of text without parentheses, commas and blanks. *)
Definition token (s : string) : bool :=
  string_forall (fun c => negb (in_chars c "(), ")) s.

Definition no_paren (s : string) : bool :=
  string_forall (fun c => negb (in_chars c "()")) s.

(** A key that [str] and [float] carry through a file: at least two
    components (the text of a one-element tuple ends in a comma), each
    within the integers a double holds exactly.  Every key made by
    [discretize_state] with a bin count below 2^53 is one. *)
Definition key_ok (k : list Z) : Prop :=
  (2 <= length k)%nat /\ Forall (fun z => (Z.abs z < 2 ^ 53)%Z) k.

(** The tables [save_q_value] writes for a control type. *)
Definition saved_tables (ct : ControlType) : list table_name :=
  match ct with
  | MONTE_CARLO => [Q_values; N_values]
  | DOUBLE_Q_LEARNING => [Qa_values; Qb_values]
  | _ => [Q_values]
  end.

(** The section a table of the object is written as when the writing
    succeeds. *)
Definition section_of (t : table_name) (a : BaseAlgorithm) : section :=
  map (fun kv : list Z * vec => (str_key t a kv.1, elems kv.2))
      (map_to_list (get_table t a)).

(** The row of [key] after a section has been loaded over [old]. *)
Definition merged (parse : string -> option state_key) (entries : section)
    (old : table) (key : state_key) : option vec :=
  match section_lookup parse entries key with
  | Some values => Some (PyList values)
  | None => old !! key
  end.


(** ** Concrete objects and inputs used by the examples *)

(** The upper bucket of a grid of [bins] edges: the index of the last edge,
    except for a single edge, which lies at the lower bound. *)
Definition upper_bucket (bins : nat) : nat :=
  match bins with
  | O => O
  | S O => 1%nat
  | S n => n
  end.

(** The configuration of the first experiment of the training script, for
    Double Q-Learning and for Monte Carlo. *)
Definition dq0 : BaseAlgorithm :=
  Double_Q_Learning.init 11 (-20, 20) (5, 5, 5, 5)%nat 0.1 1 0.9995 0.01 0.5.

Definition mc0 : BaseAlgorithm :=
  MC.init 11 (-20, 20) (5, 5, 5, 5)%nat 0.1 1 0.9995 0.01 0.5.

Definition obs_origin : observation :=
  {| pose_cart_raw := 0; pose_pole_raw := 0;
     vel_cart_raw := 0; vel_pole_raw := 0 |}.

Definition obs_high : observation :=
  {| pose_cart_raw := 4; pose_pole_raw := 1;
     vel_cart_raw := 20; vel_pole_raw := 15 |}.

Definition obs_low : observation :=
  {| pose_cart_raw := -100; pose_pole_raw := -1;
     vel_cart_raw := -15; vel_pole_raw := -16 |}.

(** An object whose starting epsilon lies below the floor. *)
Definition low_start : BaseAlgorithm :=
  init Q_LEARNING 11 (-20, 20) (5, 5, 5, 5)%nat 0.1 0.05 0.9 0.1 0.5.

(** An object that starts at epsilon 1 with decay 0.9. *)
Definition decay_example : BaseAlgorithm :=
  init Q_LEARNING 11 (-20, 20) (5, 5, 5, 5)%nat 0.1 1 0.9 0.01 0.5.

(** Two tables that tie at their best values with different best actions. *)
Definition tie_key : state_key := [2; 2; 2; 2]%Z.

Definition dq_tie : BaseAlgorithm :=
  set_qb_values
    (set_qa_values
       (Double_Q_Learning.init 2 (-20, 20) (5, 5, 5, 5)%nat 0.1 0 0.9995 0 0.5)
       {[ tie_key := NdArray [1; 0] ]})
    {[ tie_key := NdArray [0; 1] ]}.

Definition exploit_draw : draws := {| rand := 0.5; randint := 0 |}.

(** A Monte Carlo object with discount 1 in the middle of an episode: two
    recorded steps with the same state and action and rewards 1 and 1. *)
Definition mc_episode : BaseAlgorithm :=
  set_hist (MC.init 2 (-20, 20) (5, 5, 5, 5)%nat 0.1 1 0.9995 0.01 1)
    [tie_key; tie_key] [1; 1]%Z [1; 1].

(** A Q-Learning object that has already learnt two rows, and a document
    that holds one of these keys and a new one. *)
Definition q_trained : BaseAlgorithm :=
  set_q_values
    (init Q_LEARNING 2 (-20, 20) (5, 5, 5, 5)%nat 0.1 1 0.9995 0.01 0.5)
    (<[ [0; 1; 2; 3]%Z := NdArray [0.5; 0.25] ]>
       {[ tie_key := NdArray [1; 0] ]}).

Definition q_document : checkpoint :=
  {| ck_q_values := Some [("(2, 2, 2, 2)", [7; 8]); ("(4, 4, 4, 4)", [9; 10])];
     ck_n_values := None; ck_qa_values := None; ck_qb_values := None |}.

(** A Double Q-Learning object after one update on each table. *)
Definition dq_trained : BaseAlgorithm :=
  (Double_Q_Learning.update obs_origin 3 1 obs_high
     (Double_Q_Learning.update obs_origin 1 1 obs_origin dq0).2).2.

(** ** The action of a step *)

(** [get_action]: the state key of the observation, the index chosen for
    it, and the continuous action of that index; the tensor of shape
    (1, 1) that carries the action is read as its value. *)
Definition get_action (d : draws) (obs : observation) : M (Q * Z) :=
  let* obs_dis := gets (fun a => discretize_state a obs) in
  let* action_idx := get_discretize_action d obs_dis in
  let* action_tensor := gets (fun a => mapping_action a action_idx) in
  ret (action_tensor, action_idx).

(** The zero row of the [defaultdict]s of an object. *)
Definition zero_row (a : BaseAlgorithm) : vec :=
  NdArray (repeat 0 (num_of_action a)).

(** The tables the selection of an object reads. *)
Definition selection_tables (ct : ControlType) : list table_name :=
  match ct with
  | DOUBLE_Q_LEARNING => [Qa_values; Qb_values]
  | _ => [Q_values]
  end.

(** Executable forms of the conditions on the rows of a table. *)
Definition rows_sized_check (t : table_name) (a : BaseAlgorithm) : bool :=
  forallb (fun kv : list Z * vec =>
             Nat.eqb (length (elems kv.2)) (num_of_action a))
          (map_to_list (get_table t a)).

(** An object whose epsilon does not decay. *)
Definition no_decay : BaseAlgorithm :=
  init Q_LEARNING 11 (-20, 20) (5, 5, 5, 5)%nat 0.1 1 1 0.01 0.5.


(** ** A run of Monte Carlo calls *)

(** The arguments of one call of [MC.update]. *)
Record mc_call := {
  call_done : bool;
  call_obs : observation;
  call_action : Z;
  call_reward : Q
}.

(** The calls of a run, one after the other; an exception ends the run. *)
Fixpoint mc_run (calls : list mc_call) : M unit :=
  match calls with
  | [] => ret tt
  | c :: rest =>
      MC.update (call_done c) (call_obs c) (call_action c) (call_reward c) ;;
      mc_run rest
  end.

(** The position of the first occurrence of a pair in a list of pairs. *)
Fixpoint first_index (p : list Z * Z) (l : list (list Z * Z)) : option nat :=
  match l with
  | [] => None
  | q :: rest =>
      if bool_decide (q = p) then Some O else S <$> first_index p rest
  end.


(** The returns that the episodes finished during a run contribute to the
    pair [p]: at each call with [done = true], the return that follows the
    first step of [p] among the steps recorded since the episode began, when
    there is such a step.  [pending] holds the steps recorded so far, as
    (state key, action, reward). *)
Fixpoint visit_returns (gamma : Q) (key_of : observation -> list Z)
    (p : list Z * Z) (pending : list (list Z * Z * Q))
    (calls : list mc_call) : list Q :=
  match calls with
  | [] => []
  | c :: rest =>
      if call_done c then
        match first_index p (map fst pending) with
        | Some t => [MC.return_from gamma (map snd pending) t]
        | None => []
        end ++ visit_returns gamma key_of p [] rest
      else
        visit_returns gamma key_of p
          (pending ++ [(key_of (call_obs c), call_action c, call_reward c)])
          rest
  end.





(** A run of two episodes on a fresh object: the first visits the middle
    state with action 1 twice and is closed by a call with [done = true];
    the second visits it once. *)
Definition step_call (done : bool) (action : Z) (reward : Q) : mc_call :=
  {| call_done := done; call_obs := obs_origin; call_action := action;
     call_reward := reward |}.

Definition two_episodes : list mc_call :=
  [ step_call false 1 1; step_call false 1 1; step_call true 0 5;
    step_call false 1 4; step_call true 0 0 ].

(** An object whose first recorded step has an action index outside the
    rows of the count table. *)
Definition poisoned (a : BaseAlgorithm) : Prop :=
  rows_sized N_values a /\
  exists s0 act0,
    obs_hist a !! 0%nat = Some s0 /\ action_hist a !! 0%nat = Some act0 /\
    (act0 < - Z.of_nat (num_of_action a)
     \/ Z.of_nat (num_of_action a) <= act0)%Z.

(** A Monte Carlo object that has recorded the action index 11 of 11. *)
Definition mc_bad : BaseAlgorithm :=
  (MC.update false obs_origin 11 1 mc0).2.

(** ** Rows that can be written *)

Definition all_arrays (t : table_name) (a : BaseAlgorithm) : Prop :=
  forall k v, get_table t a !! k = Some v -> exists xs, v = NdArray xs.

Definition all_lists (t : table_name) (a : BaseAlgorithm) : Prop :=
  forall k v, get_table t a !! k = Some v -> exists xs, v = PyList xs.

(** The condition under which [save_q_value] writes a file: Double
    Q-Learning calls [tolist] on every row of its two tables; the other
    control types fall back to the rows as they are when one of them has no
    [tolist], and [json.dump] then takes lists only. *)
Definition saveable (a : BaseAlgorithm) : Prop :=
  match control_type a with
  | DOUBLE_Q_LEARNING => all_arrays Qa_values a /\ all_arrays Qb_values a
  | MONTE_CARLO =>
      (all_arrays Q_values a \/ all_lists Q_values a) /\
      (all_arrays N_values a \/ all_lists N_values a)
  | _ => all_arrays Q_values a \/ all_lists Q_values a
  end.

(** The exception of a failed [save_q_value]. *)
Definition save_error (ct : ControlType) : exception :=
  match ct with
  | DOUBLE_Q_LEARNING => AttributeError
  | _ => TypeError
  end.

(** A Double Q-Learning object with a list row, as [load_q_value] stores
    them. *)
Definition dq_lists : BaseAlgorithm :=
  set_qa_values dq0 {[ tie_key := PyList [1; 0; 0; 0; 0; 0; 0; 0; 0; 0; 0] ]}.

Definition all_arrays_check (t : table_name) (a : BaseAlgorithm) : bool :=
  forallb (fun kv : list Z * vec =>
             match kv.2 with NdArray _ => true | PyList _ => false end)
          (map_to_list (get_table t a)).

(** A checkpoint of Double Q-Learning with one row in its first table. *)
Definition dq_document : checkpoint :=
  {| ck_q_values := None; ck_n_values := None;
     ck_qa_values :=
       Some [("(2, 2, 2, 2)", [1; 0; 0; 0; 0; 0; 0; 0; 0; 0; 0])];
     ck_qb_values := Some [] |}.

(** The four bin counts are below 2^53. *)
Definition bins_small (a : BaseAlgorithm) : Prop :=
  let '(b1, b2, b3, b4) := discretize_state_weight a in
  (Z.of_nat b1 < 2 ^ 53 /\ Z.of_nat b2 < 2 ^ 53 /\
   Z.of_nat b3 < 2 ^ 53 /\ Z.of_nat b4 < 2 ^ 53)%Z.

(** The section of a document that holds table [t]. *)
Definition ck_section (t : table_name) (file : checkpoint) : option section :=
  match t with
  | Q_values => ck_q_values file
  | N_values => ck_n_values file
  | Qa_values => ck_qa_values file
  | Qb_values => ck_qb_values file
  end.

Definition keys_ok_check (t : table_name) (a : BaseAlgorithm) : bool :=
  forallb (fun kv : list Z * vec =>
             (2 <=? length kv.1)%nat
             && forallb (fun z => (Z.abs z <? 2 ^ 53)%Z) kv.1)
          (map_to_list (get_table t a)).

(** * Properties *)

(** ** Numbers *)

Lemma Qltb_lt x y : Qltb x y = true <-> x < y.
Proof.
  unfold Qltb. rewrite negb_true_iff, <- not_true_iff_false, Qle_bool_iff.
  split; [apply Qnot_le_lt | apply Qlt_not_le].
Qed.

Lemma Qltb_ge x y : Qltb x y = false <-> y <= x.
Proof.
  unfold Qltb. rewrite negb_false_iff, Qle_bool_iff. reflexivity.
Qed.

Ltac case_Qltb :=
  match goal with
  | |- context [Qltb ?x ?y] =>
      let H := fresh "Hlt" in
      destruct (Qltb x y) eqn:H;
      [apply Qltb_lt in H | apply Qltb_ge in H]
  end.

Lemma inject_nat_lt (i n : nat) :
  (i < n)%nat -> inject_Z (Z.of_nat i) < inject_Z (Z.of_nat n).
Proof. intros H. unfold Qlt; simpl. lia. Qed.

Lemma inject_nat_pos (n : nat) : (0 < n)%nat -> 0 < inject_Z (Z.of_nat n).
Proof. intros H. unfold Qlt; simpl. lia. Qed.

(** ** Discretisation *)

Lemma clip_low raw lo hi : lo <= hi -> raw <= lo -> clip raw lo hi == lo.
Proof.
  intros Hb Hr. unfold clip.
  destruct (Qltb raw lo) eqn:H1; [apply Qltb_lt in H1 | apply Qltb_ge in H1];
    case_Qltb; lra.
Qed.

Lemma clip_high raw lo hi : lo <= hi -> hi <= raw -> clip raw lo hi == hi.
Proof.
  intros Hb Hr. unfold clip.
  destruct (Qltb raw lo) eqn:H1; [apply Qltb_lt in H1 | apply Qltb_ge in H1];
    case_Qltb; lra.
Qed.

Lemma length_linspace start stop steps :
  length (linspace start stop steps) = steps.
Proof.
  destruct steps as [|[|n]]; simpl; [reflexivity..|].
  rewrite length_map, length_seq. reflexivity.
Qed.

Lemma bucketize_le v l : (bucketize v l <= length l)%nat.
Proof.
  induction l as [|b l IH]; simpl; [lia|]. destruct (Qltb b v); lia.
Qed.

Lemma bucketize_head v b l : v <= b -> bucketize v (b :: l) = O.
Proof. intros H. simpl. apply Qltb_ge in H. rewrite H. reflexivity. Qed.

(** The bucket is the position of the first boundary not below the value. *)
Lemma bucketize_first v (l : list Q) k x :
  (forall i y, (i < k)%nat -> l !! i = Some y -> y < v) ->
  l !! k = Some x -> v <= x ->
  bucketize v l = k.
Proof.
  revert k. induction l as [|b l IH]; intros k Hbelow Hk Hx; [discriminate|].
  destruct k as [|k]; simpl in *.
  - injection Hk as ->. apply Qltb_ge in Hx. rewrite Hx. reflexivity.
  - assert (Hb : b < v) by (apply (Hbelow O); [lia | reflexivity]).
    apply Qltb_lt in Hb. rewrite Hb. f_equal.
    apply IH; [|assumption..].
    intros i y Hi Hy. apply (Hbelow (S i)); [lia | exact Hy].
Qed.

Lemma linspace_lookup start stop n i :
  (i < S (S n))%nat ->
  linspace start stop (S (S n)) !! i =
    Some (start + inject_Z (Z.of_nat i)
                  * ((stop - start) / inject_Z (Z.of_nat (S n)))).
Proof.
  intros Hi. unfold linspace.
  rewrite list_lookup_fmap, lookup_seq_lt by lia. reflexivity.
Qed.

Lemma discretize_dim_low bound bins raw :
  0 < bound -> raw <= - bound -> discretize_dim bound bins raw = O.
Proof.
  intros Hb Hr. unfold discretize_dim.
  assert (Hc : clip raw (- bound) bound == - bound)
    by (apply clip_low; lra).
  destruct bins as [|[|n]]; [reflexivity | |].
  - apply bucketize_head. lra.
  - unfold linspace. cbn [seq map]. apply bucketize_head.
    rewrite Hc. change (inject_Z (Z.of_nat 0)) with 0.
    rewrite Qmult_0_l. lra.
Qed.

Lemma discretize_dim_high bound bins raw :
  0 < bound -> bound <= raw -> (2 <= bins)%nat ->
  discretize_dim bound bins raw = (bins - 1)%nat.
Proof.
  intros Hb Hr Hbins. unfold discretize_dim.
  assert (Hc : clip raw (- bound) bound == bound)
    by (apply clip_high; lra).
  destruct bins as [|[|n]]; [lia..|].
  replace (S (S n) - 1)%nat with (S n) by lia.
  pose proof (inject_nat_pos (S n) ltac:(lia)) as HN.
  set (N := inject_Z (Z.of_nat (S n))) in *.
  assert (Hstep : (bound - - bound) / N * N == 2 * bound)
    by (field; lra).
  assert (Hpos : 0 < (bound - - bound) / N).
  { apply Qlt_shift_div_l; lra. }
  eapply bucketize_first.
  - intros i y Hi Hy. rewrite linspace_lookup in Hy by lia.
    injection Hy as <-. fold N.
    pose proof (inject_nat_lt i (S n) Hi) as HiN. fold N in HiN.
    rewrite Hc. set (s := (bound - - bound) / N) in *.
    set (qi := inject_Z (Z.of_nat i)) in *. nra.
  - apply linspace_lookup. lia.
  - fold N. rewrite Hc. set (s := (bound - - bound) / N) in *. nra.
Qed.

Lemma discretize_dim_high_upper bound bins raw :
  0 < bound -> bound <= raw ->
  discretize_dim bound bins raw = upper_bucket bins.
Proof.
  intros Hb Hr. destruct bins as [|[|n]].
  - reflexivity.
  - unfold discretize_dim, linspace, upper_bucket.
    assert (Hc : clip raw (- bound) bound == bound)
      by (apply clip_high; lra).
    simpl. assert (H : - bound < clip raw (- bound) bound) by lra.
    apply Qltb_lt in H. rewrite H. reflexivity.
  - rewrite discretize_dim_high by (assumption || lia).
    unfold upper_bucket. lia.
Qed.

Lemma discretize_dim_range bound bins raw :
  (discretize_dim bound bins raw <= bins)%nat.
Proof.
  unfold discretize_dim.
  etransitivity; [apply bucketize_le|]. rewrite length_linspace. lia.
Qed.

Lemma pose_cart_bound_pos : 0 < pose_cart_bound.
Proof. reflexivity. Qed.
Lemma pose_pole_bound_pos : 0 < pose_pole_bound.
Proof. reflexivity. Qed.
Lemma vel_cart_bound_pos : 0 < vel_cart_bound.
Proof. reflexivity. Qed.
Lemma vel_pole_bound_pos : 0 < vel_pole_bound.
Proof. reflexivity. Qed.

Lemma dimensions_lookup a obs i bound bins raw :
  dimensions a obs !! i = Some (bound, bins, raw) ->
  0 < bound /\
  discretize_state a obs !! i = Some (Z.of_nat (discretize_dim bound bins raw)).
Proof.
  unfold dimensions, discretize_state.
  destruct (discretize_state_weight a) as [[[b0 b1] b2] b3].
  destruct i as [|[|[|[|i]]]]; simpl; intros H; try discriminate;
    injection H as <- <- <-; split; reflexivity.
Qed.

(** C2 (amended).  For every dimension with bound [bound], bin count [bins]
    and raw reading [raw], the component of the state key is 0 when the
    reading is at or below [- bound]; it is [bins - 1], the index of the
    last edge, when the reading is at or above [bound] and there are at
    least two edges (one edge gives 1, no edge gives 0); and it always lies
    in [0, bins]. *)
Theorem discretize_state_buckets a obs i bound bins raw c :
  dimensions a obs !! i = Some (bound, bins, raw) ->
  discretize_state a obs !! i = Some c ->
  (raw <= - bound -> c = 0%Z) /\
  (bound <= raw -> c = Z.of_nat (upper_bucket bins)) /\
  (bound <= raw -> (2 <= bins)%nat -> c = (Z.of_nat bins - 1)%Z) /\
  (0 <= c <= Z.of_nat bins)%Z.
Proof.
  intros Hd Hc. apply dimensions_lookup in Hd as [Hb Hs].
  rewrite Hs in Hc. injection Hc as <-.
  split; [|split; [|split]].
  - intros H. rewrite discretize_dim_low by assumption. reflexivity.
  - intros H. rewrite discretize_dim_high_upper by assumption. reflexivity.
  - intros H1 H2. rewrite discretize_dim_high by assumption. lia.
  - pose proof (discretize_dim_range bound bins raw). lia.
Qed.

Lemma discretize_state_buckets_witness :
  (pose_cart_raw obs_low <= - pose_cart_bound -> 0%Z = 0%Z) /\
  (pose_cart_bound <= pose_cart_raw obs_low -> 0%Z = Z.of_nat (upper_bucket 5)) /\
  (pose_cart_bound <= pose_cart_raw obs_low -> (2 <= 5)%nat ->
   0%Z = (Z.of_nat 5 - 1)%Z) /\
  (0 <= 0 <= Z.of_nat 5)%Z.
Proof.
  apply (discretize_state_buckets dq0 obs_low 0); reflexivity.
Defined.

(** C2, the claim as stated fails: with five edges per dimension a reading
    at the upper bound falls in bucket 4, not in bucket 5. *)
Lemma discretize_state_upper_counterexample :
  dimensions dq0 obs_high !! 0%nat = Some (pose_cart_bound, 5%nat, 4) /\
  pose_cart_bound <= 4 /\
  discretize_state dq0 obs_high = [4; 4; 4; 4]%Z /\
  ~ (forall c, discretize_state dq0 obs_high !! 0%nat = Some c ->
               c = Z.of_nat 5).
Proof.
  split; [reflexivity|]. split; [unfold pose_cart_bound; lra|].
  split; [reflexivity|].
  intros H. specialize (H 4%Z eq_refl). discriminate.
Qed.

(** ** Epsilon decay *)

Lemma py_max_Qmax a b : py_max a b == Qmax a b.
Proof.
  unfold py_max. case_Qltb.
  - symmetry. apply Q.max_r. lra.
  - symmetry. apply Q.max_l. lra.
Qed.

Lemma py_max_ge_r a b : b <= py_max a b.
Proof. unfold py_max. case_Qltb; lra. Qed.

Lemma decay_epsilon_iter_config n a :
  epsilon_decay (Nat.iter n decay_epsilon a) = epsilon_decay a /\
  final_epsilon (Nat.iter n decay_epsilon a) = final_epsilon a.
Proof.
  induction n as [|n [IH1 IH2]]; [split; reflexivity|].
  simpl. split; assumption.
Qed.

Lemma decay_epsilon_step a :
  0 < epsilon_decay a -> epsilon_decay a <= 1 ->
  0 <= final_epsilon a -> final_epsilon a <= epsilon a ->
  final_epsilon a <= epsilon (decay_epsilon a) /\
  epsilon (decay_epsilon a) <= epsilon a /\
  (epsilon a == final_epsilon a -> epsilon (decay_epsilon a) == final_epsilon a).
Proof.
  intros Hd0 Hd1 Hf He. simpl. unfold py_max.
  set (e := epsilon a) in *. set (d := epsilon_decay a) in *.
  set (f := final_epsilon a) in *.
  assert (Hed : e * d <= e) by nra.
  case_Qltb; repeat split; try lra; intros Heq; nra.
Qed.

(** C7 (amended).  A call sets epsilon to the maximum of
    [epsilon * epsilon_decay] and [final_epsilon].  When the decay lies in
    (0, 1], the floor is not negative and the starting epsilon is not below
    the floor, then along any number of calls epsilon never drops below the
    floor, never increases, and stays at the floor once it has reached it.
    From epsilon 1 with decay 0.9 and a floor of at most 0.9 one call gives
    0.9. *)
Theorem decay_epsilon_monotone_floor a :
  0 < epsilon_decay a -> epsilon_decay a <= 1 ->
  0 <= final_epsilon a -> final_epsilon a <= epsilon a ->
  epsilon (decay_epsilon a)
    == Qmax (epsilon a * epsilon_decay a) (final_epsilon a) /\
  (forall n : nat,
     final_epsilon a <= epsilon (Nat.iter n decay_epsilon a) /\
     epsilon (Nat.iter (S n) decay_epsilon a)
       <= epsilon (Nat.iter n decay_epsilon a) /\
     (epsilon (Nat.iter n decay_epsilon a) == final_epsilon a ->
      epsilon (Nat.iter (S n) decay_epsilon a) == final_epsilon a)) /\
  (epsilon a == 1 -> epsilon_decay a == 0.9 -> final_epsilon a <= 0.9 ->
   epsilon (decay_epsilon a) == 0.9).
Proof.
  intros Hd0 Hd1 Hf He. split; [apply py_max_Qmax|]. split.
  - intros n.
    assert (Hn : final_epsilon a <= epsilon (Nat.iter n decay_epsilon a)).
    { induction n as [|n IH]; [exact He|].
      destruct (decay_epsilon_iter_config n a) as [Hc1 Hc2].
      destruct (decay_epsilon_step (Nat.iter n decay_epsilon a)) as [H _];
        rewrite ?Hc1, ?Hc2; try assumption.
      rewrite Hc2 in H. exact H. }
    destruct (decay_epsilon_iter_config n a) as [Hc1 Hc2].
    destruct (decay_epsilon_step (Nat.iter n decay_epsilon a))
      as [_ [H2 H3]]; rewrite ?Hc1, ?Hc2; try assumption.
    rewrite Hc2 in H3. split; [exact Hn|]. split; [exact H2 | exact H3].
  - intros H1 H2 H3. simpl. unfold py_max.
    assert (Hm : epsilon a * epsilon_decay a == 0.9)
      by (rewrite H1, H2; reflexivity).
    case_Qltb; lra.
Qed.

Lemma decay_epsilon_monotone_floor_witness :
  epsilon (decay_epsilon decay_example)
    == Qmax (epsilon decay_example * epsilon_decay decay_example)
         (final_epsilon decay_example) /\
  (forall n : nat,
     final_epsilon decay_example
       <= epsilon (Nat.iter n decay_epsilon decay_example) /\
     epsilon (Nat.iter (S n) decay_epsilon decay_example)
       <= epsilon (Nat.iter n decay_epsilon decay_example) /\
     (epsilon (Nat.iter n decay_epsilon decay_example)
        == final_epsilon decay_example ->
      epsilon (Nat.iter (S n) decay_epsilon decay_example)
        == final_epsilon decay_example)) /\
  (epsilon decay_example == 1 -> epsilon_decay decay_example == 0.9 ->
   final_epsilon decay_example <= 0.9 ->
   epsilon (decay_epsilon decay_example) == 0.9).
Proof.
  apply (decay_epsilon_monotone_floor decay_example);
    simpl; unfold Qlt, Qle; simpl; lia.
Defined.

(** C7, the claim as stated fails: with decay 0.9 in (0, 1], a start at
    0.05 below the floor 0.1 makes the first call raise epsilon to 0.1. *)
Lemma decay_epsilon_increase_counterexample :
  0 < epsilon_decay low_start /\ epsilon_decay low_start <= 1 /\
  0 <= final_epsilon low_start /\
  epsilon (decay_epsilon low_start) == 0.1 /\
  ~ (epsilon (decay_epsilon low_start) <= epsilon low_start).
Proof.
  repeat split; unfold Qlt, Qle; simpl; lia.
Qed.

(** ** Action mapping *)



(** ** The object and its tables *)

Lemma get_set_table_eq t a m : get_table t (set_table t a m) = m.
Proof. destruct t; reflexivity. Qed.

Lemma get_set_table_ne t t' a m :
  t <> t' -> get_table t' (set_table t a m) = get_table t' a.
Proof. destruct t, t'; intros H; try reflexivity; congruence. Qed.

Lemma set_table_config t a m :
  control_type (set_table t a m) = control_type a /\
  lr (set_table t a m) = lr a /\
  discount_factor (set_table t a m) = discount_factor a /\
  epsilon (set_table t a m) = epsilon a /\
  num_of_action (set_table t a m) = num_of_action a /\
  discretize_state_weight (set_table t a m) = discretize_state_weight a /\
  check_update (set_table t a m) = check_update a /\
  obs_hist (set_table t a m) = obs_hist a /\
  action_hist (set_table t a m) = action_hist a /\
  reward_hist (set_table t a m) = reward_hist a.
Proof. destruct t; repeat split. Qed.

Lemma get_table_set_float_keys t a s :
  get_table t (set_float_keys a s) = get_table t a.
Proof. destruct t; reflexivity. Qed.

Lemma get_table_store t key is_float row a :
  get_table t (store t key is_float row a) = <[key := row]> (get_table t a).
Proof.
  unfold store. destruct (get_table t a !! key).
  - apply get_set_table_eq.
  - rewrite get_table_set_float_keys. apply get_set_table_eq.
Qed.

Lemma get_table_store_ne t t' key is_float row a :
  t <> t' -> get_table t' (store t key is_float row a) = get_table t' a.
Proof.
  intros H. unfold store. destruct (get_table t a !! key).
  - apply get_set_table_ne. exact H.
  - rewrite get_table_set_float_keys. apply get_set_table_ne. exact H.
Qed.

Lemma store_config t key is_float row a :
  control_type (store t key is_float row a) = control_type a /\
  lr (store t key is_float row a) = lr a /\
  discount_factor (store t key is_float row a) = discount_factor a /\
  epsilon (store t key is_float row a) = epsilon a /\
  num_of_action (store t key is_float row a) = num_of_action a /\
  discretize_state_weight (store t key is_float row a)
    = discretize_state_weight a /\
  check_update (store t key is_float row a) = check_update a /\
  obs_hist (store t key is_float row a) = obs_hist a /\
  action_hist (store t key is_float row a) = action_hist a /\
  reward_hist (store t key is_float row a) = reward_hist a.
Proof.
  unfold store. destruct (get_table t a !! key); destruct t; repeat split.
Qed.

Lemma dd_getitem_eq t key a :
  dd_getitem t key a = (Returns (row_or_default t key a), materialise t key a).
Proof.
  unfold dd_getitem, materialise, row_or_default.
  destruct (get_table t a !! key) eqn:E; reflexivity.
Qed.

Lemma materialise_lookup t key a :
  get_table t (materialise t key a) !! key = Some (row_or_default t key a).
Proof.
  unfold materialise.
  destruct (get_table t a !! key) eqn:E.
  - unfold row_or_default. rewrite E. reflexivity.
  - rewrite get_table_store. apply lookup_insert_eq.
Qed.

Lemma materialise_lookup_ne t key key' a :
  key <> key' ->
  get_table t (materialise t key a) !! key' = get_table t a !! key'.
Proof.
  intros H. unfold materialise.
  destruct (get_table t a !! key); [reflexivity|].
  rewrite get_table_store. apply lookup_insert_ne. exact H.
Qed.

Lemma materialise_other t t' key a :
  t <> t' -> get_table t' (materialise t key a) = get_table t' a.
Proof.
  intros H. unfold materialise.
  destruct (get_table t a !! key); [reflexivity|].
  apply get_table_store_ne. exact H.
Qed.

Lemma materialise_config t key a :
  control_type (materialise t key a) = control_type a /\
  lr (materialise t key a) = lr a /\
  discount_factor (materialise t key a) = discount_factor a /\
  epsilon (materialise t key a) = epsilon a /\
  num_of_action (materialise t key a) = num_of_action a /\
  discretize_state_weight (materialise t key a) = discretize_state_weight a /\
  check_update (materialise t key a) = check_update a /\
  obs_hist (materialise t key a) = obs_hist a /\
  action_hist (materialise t key a) = action_hist a /\
  reward_hist (materialise t key a) = reward_hist a.
Proof.
  unfold materialise. destruct (get_table t a !! key).
  - repeat split.
  - apply store_config.
Qed.

Lemma row_or_default_materialise_other t t' key key' a :
  t <> t' ->
  row_or_default t' key' (materialise t key a) = row_or_default t' key' a.
Proof.
  intros H. unfold row_or_default.
  rewrite materialise_other by exact H.
  destruct (materialise_config t key a) as (_ & _ & _ & _ & -> & _).
  reflexivity.
Qed.

(** ** Maximum and argmax *)

Lemma argmax_from_spec xs : forall best_i best i (pre : list Q),
  length pre = i -> pre !! best_i = Some best ->
  (forall j w, pre !! j = Some w -> w <= best) ->
  (forall j w, (j < best_i)%nat -> pre !! j = Some w -> w < best) ->
  exists v, (pre ++ xs) !! argmax_from best_i best i xs = Some v /\
    (forall j w, (pre ++ xs) !! j = Some w -> w <= v) /\
    (forall j w, (j < argmax_from best_i best i xs)%nat ->
                 (pre ++ xs) !! j = Some w -> w < v).
Proof.
  induction xs as [|x xs IH]; intros best_i best i pre Hlen Hbest Hmax Hfirst.
  - simpl. rewrite app_nil_r. exists best. auto.
  - simpl. replace (pre ++ x :: xs) with ((pre ++ [x]) ++ xs)
      by (rewrite <- app_assoc; reflexivity).
    assert (Hlen' : length (pre ++ [x]) = S i)
      by (rewrite length_app; simpl; lia).
    assert (Hlast : (pre ++ [x]) !! i = Some x).
    { rewrite lookup_app_r by lia. rewrite Hlen, Nat.sub_diag. reflexivity. }
    assert (Hcases : forall j w, (pre ++ [x]) !! j = Some w ->
              pre !! j = Some w \/ (j = i /\ w = x)).
    { intros j w Hj. destruct (decide (j < i)%nat) as [Hlt|Hge].
      - left. rewrite lookup_app_l in Hj by lia. exact Hj.
      - right. rewrite lookup_app_r in Hj by lia.
        destruct (j - length pre)%nat as [|k] eqn:Ek; simpl in Hj;
          [|destruct k; discriminate].
        injection Hj as <-. split; [lia | reflexivity]. }
    case_Qltb.
    + apply IH; [exact Hlen' | exact Hlast | |].
      * intros j w Hj. destruct (Hcases j w Hj) as [Hp|[_ ->]]; [|lra].
        specialize (Hmax j w Hp). lra.
      * intros j w Hji Hj. destruct (Hcases j w Hj) as [Hp|[-> _]]; [|lia].
        specialize (Hmax j w Hp). lra.
    + assert (Hbi : (best_i < i)%nat).
      { apply lookup_lt_Some in Hbest. lia. }
      apply IH; [exact Hlen' | | |].
      * rewrite lookup_app_l by lia. exact Hbest.
      * intros j w Hj. destruct (Hcases j w Hj) as [Hp|[_ ->]]; [|lra].
        exact (Hmax j w Hp).
      * intros j w Hji Hj. destruct (Hcases j w Hj) as [Hp|[-> _]]; [|lia].
        exact (Hfirst j w Hji Hp).
Qed.

(** [np_argmax] answers the position of the first largest element. *)
Lemma np_argmax_spec xs i :
  np_argmax xs = Some i ->
  exists v, xs !! i = Some v /\
    (forall j w, xs !! j = Some w -> w <= v) /\
    (forall j w, (j < i)%nat -> xs !! j = Some w -> w < v).
Proof.
  destruct xs as [|x xs]; [discriminate|]. intros [= <-].
  apply (argmax_from_spec xs 0 x 1 [x]); [reflexivity..| |].
  - intros [|[|j]] w Hj; simpl in Hj; try discriminate.
    injection Hj as <-. lra.
  - intros j w Hj. lia.
Qed.

Lemma fold_max_spec xs : forall m,
  let r := fold_left (fun m y => if Qltb m y then y else m) xs m in
  m <= r /\ (forall x, x ∈ xs -> x <= r) /\ (r = m \/ r ∈ xs).
Proof.
  induction xs as [|x xs IH]; intros m; simpl.
  - split; [lra|]. split; [|left; reflexivity].
    intros x Hx. apply elem_of_nil in Hx. contradiction.
  - specialize (IH (if Qltb m x then x else m)). simpl in IH.
    destruct IH as (IH1 & IH2 & IH3). case_Qltb.
    + split; [lra|]. split.
      * intros y Hy. apply elem_of_cons in Hy as [->|Hy]; [exact IH1|auto].
      * right. destruct IH3 as [->|H]; [left | right; exact H].
    + split; [exact IH1|]. split.
      * intros y Hy. apply elem_of_cons in Hy as [->|Hy]; [lra|auto].
      * destruct IH3 as [H|H]; [left; exact H | right; right; exact H].
Qed.

(** [np_max] answers an element that no element exceeds. *)
Lemma np_max_spec xs m :
  np_max xs = Some m -> m ∈ xs /\ forall x, x ∈ xs -> x <= m.
Proof.
  destruct xs as [|x xs]; [discriminate|]. intros [= <-].
  destruct (fold_max_spec xs x) as (H1 & H2 & H3). split.
  - destruct H3 as [->|H]; [left | right; exact H].
  - intros y Hy. apply elem_of_cons in Hy as [->|Hy]; [exact H1 | auto].
Qed.

(** ** Rows *)

Lemma py_index_lt len i n : py_index len i = Some n -> (n < len)%nat.
Proof.
  unfold py_index.
  destruct ((0 <=? i) && (i <? Z.of_nat len))%Z eqn:E1.
  - intros [= <-]. apply andb_true_iff in E1 as [H1 H2]. lia.
  - destruct ((- Z.of_nat len <=? i) && (i <? 0))%Z eqn:E2; [|discriminate].
    intros [= <-]. apply andb_true_iff in E2 as [H1 H2]. lia.
Qed.

Lemma length_with_elems row xs :
  length (elems (with_elems row xs)) = length xs.
Proof. destruct row; reflexivity. Qed.

Lemma elems_with_elems row xs : elems (with_elems row xs) = xs.
Proof. destruct row; reflexivity. Qed.

(** A cell that can be read can be written, and then reads the new value. *)
Lemma vec_set_get row i old x :
  vec_get row i = Some old ->
  exists row', vec_set row i x = Some row' /\ vec_get row' i = Some x /\
    length (elems row') = length (elems row).
Proof.
  unfold vec_get, vec_set. destruct (py_index (length (elems row)) i) as [n|] eqn:E;
    [|discriminate].
  intros _. eexists. split; [reflexivity|].
  rewrite elems_with_elems, length_insert, E.
  split; [|reflexivity]. apply list_lookup_insert_eq.
  eapply py_index_lt. exact E.
Qed.

Lemma vec_set_None row i x : vec_get row i = None -> vec_set row i x = None.
Proof.
  unfold vec_get, vec_set.
  destruct (py_index (length (elems row)) i) as [n|] eqn:E; [|reflexivity].
  intros H. apply lookup_ge_None in H. apply py_index_lt in E. lia.
Qed.

(** ** Double Q-Learning *)

Lemma target_other_ne toggle : target_table toggle <> other_table toggle.
Proof. destruct toggle; discriminate. Qed.

Lemma get_table_set_check_update t a b :
  get_table t (set_check_update a b) = get_table t a.
Proof. destruct t; reflexivity. Qed.

(** An arm never touches the toggle nor any table but its target. *)
Lemma update_arm_frame target other s action reward s' a :
  let r := Double_Q_Learning.update_arm target other s action reward s' a in
  check_update r.2 = check_update a /\
  forall t, t <> target -> get_table t r.2 = get_table t a.
Proof.
  unfold Double_Q_Learning.update_arm, bind, gets.
  assert (Hm : check_update (materialise target s a) = check_update a /\
               forall t, t <> target ->
                 get_table t (materialise target s a) = get_table t a).
  { split; [apply materialise_config|].
    intros t Ht. apply materialise_other. congruence. }
  destruct (match get_table other a !! s' with
            | Some row => lift ValueError (np_max (elems row))
            | None => ret 0
            end a) as [[best|e] a0] eqn:Ebest.
  2:{ assert (a0 = a) as ->.
      { destruct (get_table other a !! s') as [row|]; [|discriminate].
        unfold lift in Ebest. destruct (np_max (elems row)); [discriminate|].
        injection Ebest as _ <-. reflexivity. }
      simpl. auto. }
  assert (a0 = a) as ->.
  { destruct (get_table other a !! s') as [row|].
    - unfold lift in Ebest. destruct (np_max (elems row)); [|discriminate].
      injection Ebest as _ <-. reflexivity.
    - injection Ebest as _ <-. reflexivity. }
  rewrite dd_getitem_eq. unfold row_getitem, lift.
  destruct (vec_get (row_or_default target s a) action) as [old|] eqn:Eold;
    [|simpl; exact Hm].
  unfold ret, row_setitem. rewrite materialise_lookup.
  destruct (vec_set (row_or_default target s a) action _) as [row'|];
    [|simpl; exact Hm].
  simpl. destruct Hm as [Hm1 Hm2]. split.
  - destruct (set_table_config target (materialise target s a)
                (<[s:=row']> (get_table target (materialise target s a))))
      as (_ & _ & _ & _ & _ & _ & -> & _). exact Hm1.
  - intros t Ht. rewrite get_set_table_ne by congruence. auto.
Qed.

Lemma update_arm_returns target other s action reward s' a old best :
  vec_get (row_or_default target s a) action = Some old ->
  max_or_zero other s' a = Some best ->
  exists row' a',
    Double_Q_Learning.update_arm target other s action reward s' a
      = (Returns tt, a') /\
    get_table target a' !! s = Some row' /\
    vec_get row' action
      = Some (old + lr a * (reward + discount_factor a * best - old)).
Proof.
  intros Hold Hbest.
  destruct (vec_set_get _ _ _
              (old + lr a * (reward + discount_factor a * best - old)) Hold)
    as (row' & Hset & Hget & _).
  exists row'. eexists. split; [|split; [|exact Hget]].
  - unfold Double_Q_Learning.update_arm, bind, gets.
    unfold max_or_zero in Hbest.
    assert (Hb : match get_table other a !! s' with
                 | Some row => lift ValueError (np_max (elems row))
                 | None => ret 0
                 end a = (Returns best, a)).
    { destruct (get_table other a !! s') as [row|].
      - rewrite Hbest. reflexivity.
      - injection Hbest as <-. reflexivity. }
    rewrite Hb, dd_getitem_eq. unfold row_getitem. rewrite Hold.
    unfold lift, ret, row_setitem. rewrite materialise_lookup.
    destruct (materialise_config target s a) as (_ & -> & -> & _).
    rewrite Hset. reflexivity.
  - rewrite get_set_table_eq. apply lookup_insert_eq.
Qed.

Lemma update_unfold obs action reward next_obs a :
  Double_Q_Learning.update obs action reward next_obs a =
  match Double_Q_Learning.update_arm (target_table (check_update a))
          (other_table (check_update a)) (discretize_state a obs) action
          reward (discretize_state a next_obs) a with
  | (Returns _, a') => (Returns tt, set_check_update a' (negb (check_update a')))
  | (Raises e, a') => (Raises e, a')
  end.
Proof.
  unfold Double_Q_Learning.update, bind, gets, modify.
  destruct (check_update a); reflexivity.
Qed.

(** C5.  When the cell [Q[state][action]] of the table selected by the
    toggle can be read (as [old], zero for an unseen state) and the maximum
    of the other table's row at the next state is [best] (zero for an
    unseen next state), the call returns and leaves
    [old + lr * (reward + gamma * best - old)] in that cell; this holds for
    either value of the toggle, with the roles of the tables exchanged. *)
Theorem double_q_update_rule a obs action reward next_obs old best :
  let state := discretize_state a obs in
  let next_state := discretize_state a next_obs in
  let target := target_table (check_update a) in
  let other := other_table (check_update a) in
  vec_get (row_or_default target state a) action = Some old ->
  max_or_zero other next_state a = Some best ->
  (get_table other a !! next_state = None -> best = 0) /\
  exists row' a',
    Double_Q_Learning.update obs action reward next_obs a = (Returns tt, a') /\
    get_table target a' !! state = Some row' /\
    vec_get row' action
      = Some (old + lr a * (reward + discount_factor a * best - old)).
Proof.
  intros state next_state target other Hold Hbest. split.
  - intros Hnone. unfold max_or_zero in Hbest. rewrite Hnone in Hbest.
    congruence.
  - destruct (update_arm_returns target other state action reward next_state
                a old best Hold Hbest) as (row' & a1 & Harm & Hrow & Hcell).
    exists row'. eexists. rewrite update_unfold.
    fold state next_state target other. rewrite Harm.
    split; [reflexivity|]. split; [|exact Hcell].
    rewrite get_table_set_check_update. exact Hrow.
Qed.

Lemma double_q_update_rule_witness :
  (get_table Qb_values dq0 !! [2; 2; 2; 2]%Z = None -> 0 = 0) /\
  exists row' a',
    Double_Q_Learning.update obs_origin 1 1 obs_origin dq0 = (Returns tt, a') /\
    get_table Qa_values a' !! [2; 2; 2; 2]%Z = Some row' /\
    vec_get row' 1
      = Some (0 + lr dq0 * (1 + discount_factor dq0 * 0 - 0)).
Proof.
  apply (double_q_update_rule dq0 obs_origin 1 1 obs_origin 0 0);
    vm_compute; reflexivity.
Defined.

Lemma update_call_frame obs action reward next_obs a :
  let r := Double_Q_Learning.update obs action reward next_obs a in
  (forall a', r = (Returns tt, a') ->
     check_update a' = negb (check_update a) /\
     get_table (other_table (check_update a)) a'
       = get_table (other_table (check_update a)) a) /\
  (forall e a', r = (Raises e, a') -> check_update a' = check_update a).
Proof.
  intros r. subst r. rewrite update_unfold.
  pose proof (update_arm_frame (target_table (check_update a))
                (other_table (check_update a)) (discretize_state a obs)
                action reward (discretize_state a next_obs) a) as [Hc Ht].
  destruct (Double_Q_Learning.update_arm _ _ _ _ _ _ a) as [[[]|e] a1];
    simpl in Hc, Ht; split.
  - intros a' [= <-]. simpl. rewrite Hc. split; [reflexivity|].
    rewrite get_table_set_check_update. apply Ht.
    intros H. symmetry in H. exact (target_other_ne _ H).
  - intros e a' H. discriminate.
  - intros a' H. discriminate.
  - intros e' a' [= _ <-]. exact Hc.
Qed.

(** C6 (amended).  A call of [update] that returns flips the toggle and
    leaves the table the toggle did not select as it was; the next call
    that returns flips the toggle back and leaves the first call's table as
    that call left it, so the two calls write different tables.  A call
    that raises leaves the toggle as it was. *)
Theorem double_q_toggle_alternates a obs action reward next_obs :
  let toggle := check_update a in
  let r := Double_Q_Learning.update obs action reward next_obs a in
  (forall a', r = (Returns tt, a') ->
     check_update a' = negb toggle /\
     get_table (other_table toggle) a' = get_table (other_table toggle) a /\
     forall obs2 action2 reward2 next_obs2 a'',
       Double_Q_Learning.update obs2 action2 reward2 next_obs2 a'
         = (Returns tt, a'') ->
       check_update a'' = toggle /\
       get_table (target_table toggle) a'' = get_table (target_table toggle) a') /\
  (forall e a', r = (Raises e, a') -> check_update a' = toggle).
Proof.
  intros toggle r.
  destruct (update_call_frame obs action reward next_obs a) as [Hret Hraise].
  split; [|exact Hraise].
  intros a' Hr. destruct (Hret a' Hr) as [Hflip Hother].
  split; [exact Hflip|]. split; [exact Hother|].
  intros obs2 action2 reward2 next_obs2 a'' Hr2.
  destruct (update_call_frame obs2 action2 reward2 next_obs2 a') as [Hret2 _].
  destruct (Hret2 a'' Hr2) as [Hflip2 Hother2].
  rewrite Hflip in Hflip2, Hother2. fold toggle in Hflip2, Hother2.
  split; [rewrite Hflip2; apply negb_involutive|].
  destruct toggle; exact Hother2.
Qed.

Lemma double_q_toggle_alternates_witness :
  let a' := (Double_Q_Learning.update obs_origin 1 1 obs_origin dq0).2 in
  let a'' := (Double_Q_Learning.update obs_origin 1 1 obs_origin a').2 in
  Double_Q_Learning.update obs_origin 1 1 obs_origin dq0 = (Returns tt, a') /\
  Double_Q_Learning.update obs_origin 1 1 obs_origin a' = (Returns tt, a'') /\
  check_update a' = negb (check_update dq0) /\
  check_update a'' = check_update dq0 /\
  qb_values a' = qb_values dq0 /\ qa_values a'' = qa_values a'.
Proof.
  intros a' a''.
  assert (E1 : Double_Q_Learning.update obs_origin 1 1 obs_origin dq0
               = (Returns tt, a')) by (vm_compute; reflexivity).
  assert (E2 : Double_Q_Learning.update obs_origin 1 1 obs_origin a'
               = (Returns tt, a'')) by (vm_compute; reflexivity).
  destruct (double_q_toggle_alternates dq0 obs_origin 1 1 obs_origin)
    as [Hret _].
  destruct (Hret a' E1) as (H1 & H2 & H3).
  destruct (H3 obs_origin 1%Z 1 obs_origin a'' E2) as (H4 & H5).
  split; [exact E1|]. split; [exact E2|].
  split; [exact H1|]. split; [exact H4|]. split; [exact H2 | exact H5].
Defined.

(** C6, the claim as stated fails: a call with an action index out of range
    raises after it has stored a row in [Qa], the toggle stays, and the next
    call writes [Qa] again. *)
Lemma double_q_toggle_counterexample :
  let r1 := Double_Q_Learning.update obs_origin 11 1 obs_origin dq0 in
  let r2 := Double_Q_Learning.update obs_origin 1 1 obs_origin r1.2 in
  r1.1 = Raises IndexError /\
  check_update r1.2 = check_update dq0 /\
  qa_values dq0 !! [2; 2; 2; 2]%Z = None /\
  qa_values r1.2 !! [2; 2; 2; 2]%Z = Some (NdArray (repeat 0 11)) /\
  r2.1 = Returns tt /\
  qa_values r2.2 !! [2; 2; 2; 2]%Z <> qa_values r1.2 !! [2; 2; 2; 2]%Z /\
  qb_values r2.2 = qb_values dq0.
Proof.
  repeat split; try (vm_compute; reflexivity). vm_compute. discriminate.
Qed.

(** ** Selection *)

Lemma py_index_nat len n : (n < len)%nat -> py_index len (Z.of_nat n) = Some n.
Proof.
  intros H. unfold py_index.
  replace ((0 <=? Z.of_nat n) && (Z.of_nat n <? Z.of_nat len))%Z with true.
  - rewrite Nat2Z.id. reflexivity.
  - symmetry. apply andb_true_iff. split; lia.
Qed.

Lemma vec_get_nat row n v :
  elems row !! n = Some v -> vec_get row (Z.of_nat n) = Some v.
Proof.
  intros H. unfold vec_get. rewrite py_index_nat; [exact H|].
  eapply lookup_lt_Some. exact H.
Qed.

(** C1 (amended).  In the exploitation branch of the Double Q-Learning
    selection (the draw is not below epsilon), with [a1] the argmax of the
    first table's row and [a2] the argmax of the second table's row, the
    call returns [a1] when the first table's value at [a1] is strictly
    larger than the second table's value at [a2], returns [a2] when the
    second is strictly larger, and returns the first table's choice [a1] on
    an exact tie. *)
Theorem double_q_select_exploit a d key a1 a2 :
  control_type a = DOUBLE_Q_LEARNING ->
  ~ rand d < epsilon a ->
  np_argmax (elems (row_or_default Qa_values key a)) = Some a1 ->
  np_argmax (elems (row_or_default Qb_values key a)) = Some a2 ->
  exists v1 v2 best a',
    elems (row_or_default Qa_values key a) !! a1 = Some v1 /\
    elems (row_or_default Qb_values key a) !! a2 = Some v2 /\
    get_discretize_action d key a = (Returns (Z.of_nat best), a') /\
    (v2 < v1 -> best = a1) /\
    (v1 < v2 -> best = a2) /\
    (v1 == v2 -> best = a1).
Proof.
  intros Hct Hdraw H1 H2.
  destruct (np_argmax_spec _ _ H1) as (v1 & Hv1 & _).
  destruct (np_argmax_spec _ _ H2) as (v2 & Hv2 & _).
  exists v1, v2, (if Qle_bool v2 v1 then a1 else a2). eexists.
  split; [exact Hv1|]. split; [exact Hv2|]. split.
  - unfold get_discretize_action, bind, gets. rewrite Hct.
    change (ControlType_eqb DOUBLE_Q_LEARNING DOUBLE_Q_LEARNING) with true.
    cbv iota.
    assert (Hq : Qltb (rand d) (epsilon a) = false).
    { apply Qltb_ge. apply Qnot_lt_le. exact Hdraw. }
    rewrite Hq. cbv beta. rewrite dd_getitem_eq, dd_getitem_eq.
    rewrite row_or_default_materialise_other by discriminate.
    rewrite H1, H2. unfold lift, ret, row_getitem.
    rewrite (vec_get_nat _ _ _ Hv1), (vec_get_nat _ _ _ Hv2).
    unfold lift, ret. reflexivity.
  - destruct (Qle_bool v2 v1) eqn:E.
    + apply Qle_bool_iff in E. repeat split; intros H; try reflexivity; lra.
    + assert (Hlt : v1 < v2).
      { apply Qnot_le_lt. intros H. apply Qle_bool_iff in H. congruence. }
      repeat split; intros H; try reflexivity; lra.
Qed.

Lemma double_q_select_exploit_witness :
  exists v1 v2 best a',
    elems (row_or_default Qa_values tie_key dq_tie) !! 0%nat = Some v1 /\
    elems (row_or_default Qb_values tie_key dq_tie) !! 1%nat = Some v2 /\
    get_discretize_action exploit_draw tie_key dq_tie
      = (Returns (Z.of_nat best), a') /\
    (v2 < v1 -> best = 0%nat) /\
    (v1 < v2 -> best = 1%nat) /\
    (v1 == v2 -> best = 0%nat).
Proof.
  apply (double_q_select_exploit dq_tie exploit_draw tie_key 0 1);
    try (vm_compute; reflexivity).
  vm_compute. discriminate.
Defined.

(** C1, the claim as stated fails: when the two tables tie at their best
    values and their best actions differ, the call returns the first
    table's choice, not the second's. *)
Lemma double_q_select_tie_counterexample :
  control_type dq_tie = DOUBLE_Q_LEARNING /\
  ~ rand exploit_draw < epsilon dq_tie /\
  np_argmax (elems (row_or_default Qa_values tie_key dq_tie)) = Some 0%nat /\
  np_argmax (elems (row_or_default Qb_values tie_key dq_tie)) = Some 1%nat /\
  elems (row_or_default Qa_values tie_key dq_tie) !! 0%nat = Some 1 /\
  elems (row_or_default Qb_values tie_key dq_tie) !! 1%nat = Some 1 /\
  (get_discretize_action exploit_draw tie_key dq_tie).1 = Returns 0%Z /\
  (get_discretize_action exploit_draw tie_key dq_tie).1 <> Returns 1%Z.
Proof.
  repeat split; try (vm_compute; reflexivity); vm_compute; discriminate.
Qed.

(** ** Monte Carlo: returns *)

Lemma return_from_step gamma rewards i r :
  rewards !! i = Some r ->
  MC.return_from gamma rewards i
    = r + gamma * MC.return_from gamma rewards (S i).
Proof.
  intros H. unfold MC.return_from. rewrite (drop_S _ _ _ H). reflexivity.
Qed.

Lemma return_from_end gamma rewards :
  MC.return_from gamma rewards (length rewards) = 0.
Proof. unfold MC.return_from. rewrite drop_all. reflexivity. Qed.

Lemma nth_lookup_Q (l : list Q) i x : l !! i = Some x -> nth i l 0 = x.
Proof.
  revert i. induction l as [|y l IH]; intros [|i] H; simpl in *;
    try discriminate; [congruence | auto].
Qed.

Lemma insert_repeat_last k (x : Q) rest :
  <[k := x]> (0 :: repeat 0 k ++ rest) = repeat 0 k ++ x :: rest.
Proof.
  induction k as [|k IH]; [reflexivity|].
  simpl. simpl in IH. rewrite IH. reflexivity.
Qed.

Lemma compute_returns_fold gamma rewards k :
  (k <= length rewards)%nat ->
  fold_left
    (fun (st : Q * list Q) (i : nat) =>
       let G := nth i rewards 0 + gamma * fst st in (G, <[i := G]> (snd st)))
    (rev (seq 0 k))
    (MC.return_from gamma rewards k,
     repeat 0 k ++ map (MC.return_from gamma rewards)
                     (seq k (length rewards - k)))
  = (MC.return_from gamma rewards 0,
     map (MC.return_from gamma rewards) (seq 0 (length rewards))).
Proof.
  induction k as [|k IH]; intros Hk.
  - simpl. rewrite Nat.sub_0_r. reflexivity.
  - rewrite seq_S, rev_app_distr. simpl rev. simpl app. simpl fold_left.
    destruct (lookup_lt_is_Some_2 rewards k ltac:(lia)) as [r Hr].
    rewrite (nth_lookup_Q _ _ _ Hr), <- (return_from_step _ _ _ _ Hr).
    rewrite <- IH by lia. f_equal. f_equal.
    replace (length rewards - k)%nat with (S (length rewards - S k)) by lia.
    simpl seq. simpl map.
    apply insert_repeat_last.
Qed.

(** The list the backward loop fills holds, at every index, the return
    defined by the recurrence. *)
Lemma compute_returns_spec gamma rewards :
  MC.compute_returns gamma rewards
    = map (MC.return_from gamma rewards) (seq 0 (length rewards)).
Proof.
  unfold MC.compute_returns.
  pose proof (compute_returns_fold gamma rewards (length rewards) (le_n _))
    as H.
  rewrite return_from_end, Nat.sub_diag in H. simpl seq in H. simpl map in H.
  rewrite app_nil_r in H. cbv zeta in H. rewrite H. reflexivity.
Qed.

Lemma compute_returns_lookup gamma rewards t :
  MC.compute_returns gamma rewards !! t
    = if bool_decide (t < length rewards)%nat
      then Some (MC.return_from gamma rewards t) else None.
Proof.
  rewrite compute_returns_spec, list_lookup_fmap.
  case_bool_decide as Ht.
  - rewrite lookup_seq_lt by exact Ht. reflexivity.
  - rewrite lookup_seq_ge by lia. reflexivity.
Qed.

(** ** Computations that change tables only *)

Lemma same_frame_refl a : same_frame a a.
Proof. repeat split. Qed.

Lemma same_frame_trans a b c :
  same_frame a b -> same_frame b c -> same_frame a c.
Proof.
  unfold same_frame. intros H1 H2.
  repeat match goal with H : _ /\ _ |- _ => destruct H end.
  repeat split; congruence.
Qed.

Lemma same_frame_set_table t a m : same_frame a (set_table t a m).
Proof. destruct t; repeat split. Qed.

Lemma same_frame_store t key is_float row a :
  same_frame a (store t key is_float row a).
Proof.
  unfold store. destruct (get_table t a !! key); destruct t; repeat split.
Qed.

Lemma keeps_frame_ret {A} (x : A) : keeps_frame (ret x).
Proof. intros a. apply same_frame_refl. Qed.

Lemma keeps_frame_raise {A} e : keeps_frame (@raise A e).
Proof. intros a. apply same_frame_refl. Qed.

Lemma keeps_frame_lift {A} e (o : option A) : keeps_frame (lift e o).
Proof. destruct o; [apply keeps_frame_ret | apply keeps_frame_raise]. Qed.

Lemma keeps_frame_gets {A} (f : BaseAlgorithm -> A) : keeps_frame (gets f).
Proof. intros a. apply same_frame_refl. Qed.

Lemma keeps_frame_bind {A B} (c : M A) (k : A -> M B) :
  keeps_frame c -> (forall x, keeps_frame (k x)) -> keeps_frame (bind c k).
Proof.
  intros Hc Hk a. unfold bind. specialize (Hc a).
  destruct (c a) as [[x|e] a1]; simpl in *; [|exact Hc].
  eapply same_frame_trans; [exact Hc | apply Hk].
Qed.

Lemma keeps_frame_dd_getitem t key : keeps_frame (dd_getitem t key).
Proof.
  intros a. unfold dd_getitem.
  destruct (get_table t a !! key); simpl;
    [apply same_frame_refl | apply same_frame_store].
Qed.

Lemma keeps_frame_dd_setitem t key is_float row :
  keeps_frame (dd_setitem t key is_float row).
Proof. intros a. apply same_frame_store. Qed.

Lemma keeps_frame_row_getitem row i : keeps_frame (row_getitem row i).
Proof. apply keeps_frame_lift. Qed.

Lemma keeps_frame_row_setitem t key i x : keeps_frame (row_setitem t key i x).
Proof.
  intros a. unfold row_setitem.
  destruct (get_table t a !! key) as [row|]; [|apply same_frame_refl].
  destruct (vec_set row i x); simpl;
    [apply same_frame_set_table | apply same_frame_refl].
Qed.

Create HintDb frame.
#[local] Hint Resolve keeps_frame_ret keeps_frame_raise keeps_frame_lift
  keeps_frame_gets keeps_frame_dd_getitem keeps_frame_dd_setitem
  keeps_frame_row_getitem keeps_frame_row_setitem : frame.

Ltac frame_steps :=
  repeat first
    [ apply keeps_frame_bind; [|intros ?]
    | match goal with |- keeps_frame (if ?b then _ else _) => destruct b end
    | solve [auto with frame] ].

Lemma keeps_frame_first_visit state action G :
  keeps_frame (MC.first_visit state action G).
Proof. unfold MC.first_visit. frame_steps. Qed.

(** ** Computations that ignore the learning rate *)

Lemma get_table_set_lr t a x : get_table t (set_lr a x) = get_table t a.
Proof. destruct t; reflexivity. Qed.

Lemma set_table_set_lr t a x m :
  set_table t (set_lr a x) m = set_lr (set_table t a m) x.
Proof. destruct t; reflexivity. Qed.

Lemma store_set_lr t key is_float row a x :
  store t key is_float row (set_lr a x) = set_lr (store t key is_float row a) x.
Proof.
  unfold store. rewrite get_table_set_lr.
  destruct (get_table t a !! key); destruct t; reflexivity.
Qed.

Lemma lr_blind_ret {A} (v : A) : lr_blind (ret v).
Proof. intros a x. reflexivity. Qed.

Lemma lr_blind_raise {A} e : lr_blind (@raise A e).
Proof. intros a x. reflexivity. Qed.

Lemma lr_blind_lift {A} e (o : option A) : lr_blind (lift e o).
Proof. destruct o; [apply lr_blind_ret | apply lr_blind_raise]. Qed.

Lemma lr_blind_gets {A} (f : BaseAlgorithm -> A) :
  (forall a x, f (set_lr a x) = f a) -> lr_blind (gets f).
Proof. intros Hf a x. unfold gets. rewrite Hf. reflexivity. Qed.

Lemma lr_blind_modify (f : BaseAlgorithm -> BaseAlgorithm) :
  (forall a x, f (set_lr a x) = set_lr (f a) x) -> lr_blind (modify f).
Proof. intros Hf a x. unfold modify. rewrite Hf. reflexivity. Qed.

Lemma lr_blind_bind {A B} (c : M A) (k : A -> M B) :
  lr_blind c -> (forall v, lr_blind (k v)) -> lr_blind (bind c k).
Proof.
  intros Hc Hk a x. unfold bind. rewrite Hc.
  destruct (c a) as [[v|e] a1]; simpl; [apply Hk | reflexivity].
Qed.

Lemma lr_blind_dd_getitem t key : lr_blind (dd_getitem t key).
Proof.
  intros a x. unfold dd_getitem. rewrite get_table_set_lr.
  destruct (get_table t a !! key); simpl; [reflexivity|].
  rewrite store_set_lr. reflexivity.
Qed.

Lemma lr_blind_row_getitem row i : lr_blind (row_getitem row i).
Proof. apply lr_blind_lift. Qed.

Lemma lr_blind_row_setitem t key i v : lr_blind (row_setitem t key i v).
Proof.
  intros a x. unfold row_setitem. rewrite get_table_set_lr.
  destruct (get_table t a !! key) as [row|]; [|reflexivity].
  destruct (vec_set row i v); simpl; [|reflexivity].
  rewrite set_table_set_lr. reflexivity.
Qed.

#[local] Hint Resolve lr_blind_ret lr_blind_raise lr_blind_lift
  lr_blind_dd_getitem lr_blind_row_getitem lr_blind_row_setitem : frame.

Ltac lr_steps :=
  repeat first
    [ apply lr_blind_bind; [|intros ?]
    | match goal with |- lr_blind (if ?b then _ else _) => destruct b end
    | apply lr_blind_gets; intros [] ?; reflexivity
    | apply lr_blind_modify; intros [] ?; reflexivity
    | solve [auto with frame] ].

Lemma lr_blind_first_visit state action G :
  lr_blind (MC.first_visit state action G).
Proof. unfold MC.first_visit. lr_steps. Qed.

Lemma lr_blind_first_visit_loop return_list ts :
  forall visited, lr_blind (MC.first_visit_loop return_list ts visited).
Proof.
  induction ts as [|t ts IH]; intros visited; simpl.
  - apply lr_blind_ret.
  - lr_steps; apply IH.
Qed.

Lemma lr_blind_update done obs action reward_value :
  lr_blind (MC.update done obs action reward_value).
Proof.
  unfold MC.update. lr_steps. apply lr_blind_first_visit_loop.
Qed.

(** ** Monte Carlo: the first-visit scan *)

Lemma visited_take_S (pairs : list (list Z * Z)) t p :
  pairs !! t = Some p ->
  ({[ p ]} ∪ list_to_set (take t pairs) : gset (list Z * Z))
    = list_to_set (take (S t) pairs).
Proof.
  intros H. rewrite (take_S_r _ _ _ H), list_to_set_app_L. simpl.
  rewrite (right_id_L ∅ (∪)). apply (comm_L (∪)).
Qed.

Lemma visited_take_S_seen (pairs : list (list Z * Z)) t p :
  pairs !! t = Some p -> p ∈ take t pairs ->
  (list_to_set (take t pairs) : gset (list Z * Z))
    = list_to_set (take (S t) pairs).
Proof.
  intros H Hin. rewrite <- (visited_take_S _ _ _ H).
  apply (elem_of_list_to_set (C := gset (list Z * Z))) in Hin.
  symmetry. apply leibniz_equiv. apply subseteq_union_1.
  apply singleton_subseteq_l. exact Hin.
Qed.

(** The loop with its set of visited pairs does what the scan by first
    occurrences does, with the returns of the recurrence. *)
Lemma first_visit_loop_spec gamma rewards states actions m :
  forall k a,
    obs_hist a = states -> action_hist a = actions ->
    MC.first_visit_loop (MC.compute_returns gamma rewards) (seq k m)
      (list_to_set (take k (zip states actions))) a
    = MC.first_visit_spec_loop gamma rewards (zip states actions) (seq k m) a.
Proof.
  induction m as [|m IH]; intros k a Hs Ha; [reflexivity|].
  simpl. unfold bind, gets. rewrite Hs.
  assert (Hzip : zip states actions !! k
                 = match states !! k, actions !! k with
                   | Some s, Some act => Some (s, act)
                   | _, _ => None
                   end).
  { rewrite lookup_zip_with.
    destruct (states !! k); simpl; [|reflexivity].
    destruct (actions !! k); reflexivity. }
  destruct (states !! k) as [state|] eqn:Es; [|rewrite Hzip; reflexivity].
  unfold lift at 1, ret at 1. cbv beta iota. rewrite Ha.
  destruct (actions !! k) as [action|] eqn:Ea; [|rewrite Hzip; reflexivity].
  unfold lift at 1, ret at 1. cbv beta iota.
  unfold MC.first_occurrence. rewrite Hzip. rename Hzip into Hp.
  rewrite compute_returns_lookup.
  destruct (decide ((state, action) ∈ take k (zip states actions))) as [Hin|Hout].
  - rewrite (bool_decide_eq_true_2 _
               (proj2 (elem_of_list_to_set (C := gset (list Z * Z)) _ _) Hin)).
    rewrite (bool_decide_eq_false_2 ((state, action) ∉ _)) by tauto.
    rewrite (visited_take_S_seen _ _ _ Hp Hin). apply IH; assumption.
  - rewrite (bool_decide_eq_false_2 ((state, action) ∈ list_to_set _)).
    2:{ intros H. apply elem_of_list_to_set in H. contradiction. }
    rewrite (bool_decide_eq_true_2 ((state, action) ∉ _)) by exact Hout.
    pose proof (keeps_frame_first_visit state action
      (if bool_decide (k < length rewards)%nat
       then Some (MC.return_from gamma rewards k) else None) a) as Hf.
    destruct (MC.first_visit state action _ a) as [[[]|e] a1];
      simpl in Hf |- *; [|reflexivity].
    rewrite (visited_take_S _ _ _ Hp).
    destruct Hf as (_&_&_&_&_&_&_&_&_&_& Ho & Hac & _).
    apply IH; congruence.
Qed.

Lemma update_done_spec obs action reward_value a :
  MC.update true obs action reward_value a = MC.episode_update_spec a.
Proof.
  unfold MC.update, MC.episode_update_spec, bind, gets.
  change (negb true) with false.
  pose proof (first_visit_loop_spec (discount_factor a) (reward_hist a)
                (obs_hist a) (action_hist a) (length (obs_hist a)) 0 a
                eq_refl eq_refl) as H.
  rewrite take_0 in H. simpl list_to_set in H. cbv beta iota.
  rewrite H. reflexivity.
Qed.

(** The run of the first-visit body on cells that can be read: the row
    of the state in [n_values] and then the row in [q_values] are replaced,
    every other row stays. *)
Lemma first_visit_run state action G a n_old q_old :
  vec_get (row_or_default N_values state a) action = Some n_old ->
  vec_get (row_or_default Q_values state a) action = Some q_old ->
  ~ n_old + 1 == 0 ->
  exists n_row q_row a',
    MC.first_visit state action (Some G) a = (Returns tt, a') /\
    vec_set (row_or_default N_values state a) action (n_old + 1)
      = Some n_row /\
    vec_set (row_or_default Q_values state a) action
      (q_old + 1 / (n_old + 1) * (G - q_old)) = Some q_row /\
    (forall s, n_values a' !! s
       = if decide (s = state) then Some n_row else n_values a !! s) /\
    (forall s, q_values a' !! s
       = if decide (s = state) then Some q_row else q_values a !! s).
Proof.
  intros Hn Hq Hnz.
  destruct (vec_set_get _ _ _ (n_old + 1) Hn) as (n_row & Hnset & Hnget & _).
  destruct (vec_set_get _ _ _ (q_old + 1 / (n_old + 1) * (G - q_old)) Hq)
    as (q_row & Hqset & Hqget & _).
  exists n_row, q_row. eexists.
  unfold MC.first_visit, bind.
  rewrite dd_getitem_eq. unfold row_getitem at 1. rewrite Hn.
  unfold lift at 1, ret at 1. unfold row_setitem at 1.
  rewrite materialise_lookup, Hnset.
  set (a1 := set_table N_values (materialise N_values state a) _).
  assert (Hn1 : get_table N_values a1 !! state = Some n_row).
  { subst a1. rewrite get_set_table_eq. apply lookup_insert_eq. }
  assert (Hq1 : row_or_default Q_values state a1
                = row_or_default Q_values state a).
  { subst a1. unfold row_or_default.
    destruct (set_table_config N_values (materialise N_values state a)
                (<[state:=n_row]> (get_table N_values (materialise N_values state a))))
      as (_&_&_&_& -> &_).
    destruct (materialise_config N_values state a) as (_&_&_&_& -> &_).
    rewrite get_set_table_ne by discriminate.
    rewrite materialise_other by discriminate.
    reflexivity. }
  unfold dd_getitem at 1. rewrite Hn1.
  unfold row_getitem at 1. rewrite Hnget. unfold lift at 1, ret at 1.
  assert (Hz : Qeq_bool (n_old + 1) 0 = false).
  { apply not_true_iff_false. intros H. apply Qeq_bool_iff in H. auto. }
  rewrite Hz. rewrite dd_getitem_eq, Hq1.
  unfold row_getitem. rewrite Hq. unfold lift, ret, row_setitem.
  rewrite materialise_lookup, Hq1, Hqset.
  split; [reflexivity|]. split; [reflexivity|]. split; [reflexivity|]. split.
  - intros s. change (n_values ?x) with (get_table N_values x).
    rewrite get_set_table_ne by discriminate.
    rewrite materialise_other by discriminate.
    subst a1. rewrite get_set_table_eq.
    destruct (decide (s = state)) as [->|Hne].
    + apply lookup_insert_eq.
    + rewrite lookup_insert_ne by congruence.
      apply materialise_lookup_ne. congruence.
  - intros s. change (q_values ?x) with (get_table Q_values x).
    rewrite get_set_table_eq.
    destruct (decide (s = state)) as [->|Hne].
    + apply lookup_insert_eq.
    + rewrite lookup_insert_ne by congruence.
      rewrite materialise_lookup_ne by congruence.
      subst a1. rewrite get_set_table_ne by discriminate.
      rewrite materialise_other by discriminate. reflexivity.
Qed.

Lemma vec_set_read row i x row' :
  vec_set row i x = Some row' -> vec_get row' i = Some x.
Proof.
  unfold vec_set, vec_get.
  destruct (py_index (length (elems row)) i) as [n|] eqn:E; [|discriminate].
  intros [= <-]. rewrite elems_with_elems, length_insert, E.
  apply list_lookup_insert_eq. eapply py_index_lt. exact E.
Qed.

(** What the first visit of a pair does to its two cells. *)
Lemma first_visit_effect state action G a n_old q_old :
  vec_get (row_or_default N_values state a) action = Some n_old ->
  vec_get (row_or_default Q_values state a) action = Some q_old ->
  ~ n_old + 1 == 0 ->
  exists n_row q_row a',
    MC.first_visit state action (Some G) a = (Returns tt, a') /\
    n_values a' !! state = Some n_row /\
    vec_get n_row action = Some (n_old + 1) /\
    q_values a' !! state = Some q_row /\
    vec_get q_row action
      = Some (q_old + 1 / (n_old + 1) * (G - q_old)).
Proof.
  intros Hn Hq Hnz.
  destruct (first_visit_run state action G a n_old q_old Hn Hq Hnz)
    as (n_row & q_row & a' & Hrun & Hnset & Hqset & Hnl & Hql).
  exists n_row, q_row, a'. split; [exact Hrun|].
  specialize (Hnl state). specialize (Hql state).
  destruct (decide (state = state)) as [_|Hne]; [|congruence].
  split; [exact Hnl|]. split; [exact (vec_set_read _ _ _ _ Hnset)|].
  split; [exact Hql | exact (vec_set_read _ _ _ _ Hqset)].
Qed.

(** ** Monte Carlo: a whole episode *)

Lemma cell_lookup t s j b row :
  get_table t b !! s = Some row -> cell t s j b = nth j (elems row) 0.
Proof. intros H. unfold cell, row_or_default. rewrite H. reflexivity. Qed.

Lemma cell_same t s j b b' :
  get_table t b' !! s = get_table t b !! s ->
  num_of_action b' = num_of_action b ->
  cell t s j b' = cell t s j b.
Proof.
  intros H Hn. unfold cell, row_or_default. rewrite H, Hn. reflexivity.
Qed.

Lemma row_or_default_length t s b :
  rows_sized t b -> length (elems (row_or_default t s b)) = num_of_action b.
Proof.
  intros H. unfold row_or_default.
  destruct (get_table t b !! s) as [row|] eqn:E; simpl.
  - exact (H s row E).
  - apply repeat_length.
Qed.

Lemma row_or_default_nonneg s b :
  counts_nonneg b -> Forall (fun c => 0 <= c) (elems (row_or_default N_values s b)).
Proof.
  intros H. unfold row_or_default.
  destruct (get_table N_values b !! s) as [row|] eqn:E; simpl.
  - exact (H s row E).
  - apply Forall_forall. intros x Hx.
    apply list_elem_of_In, repeat_spec in Hx. subst x. apply Qle_refl.
Qed.

Lemma py_index_in_range len act :
  (0 <= act < Z.of_nat len)%Z -> py_index len act = Some (Z.to_nat act).
Proof.
  intros H. unfold py_index.
  replace ((0 <=? act) && (act <? Z.of_nat len))%Z with true; [reflexivity|].
  symmetry. apply andb_true_iff. split; lia.
Qed.

Lemma nth_lookup_Some (l : list Q) i :
  (i < length l)%nat -> l !! i = Some (nth i l 0).
Proof.
  intros H. destruct (lookup_lt_is_Some_2 l i H) as [x Hx].
  rewrite Hx, (nth_lookup_Q _ _ _ Hx). reflexivity.
Qed.

Lemma vec_get_in_range row act :
  (0 <= act < Z.of_nat (length (elems row)))%Z ->
  vec_get row act = Some (nth (Z.to_nat act) (elems row) 0).
Proof.
  intros H. unfold vec_get. rewrite py_index_in_range by exact H.
  apply nth_lookup_Some. lia.
Qed.

Lemma vec_set_in_range row act x row' :
  (0 <= act < Z.of_nat (length (elems row)))%Z ->
  vec_set row act x = Some row' ->
  elems row' = <[Z.to_nat act := x]> (elems row).
Proof.
  intros H. unfold vec_set. rewrite py_index_in_range by exact H.
  intros [= <-]. apply elems_with_elems.
Qed.

Lemma nth_insert (l : list Q) i j x :
  (i < length l)%nat ->
  nth j (<[i := x]> l) 0 = if decide (j = i) then x else nth j l 0.
Proof.
  intros Hi. rewrite !nth_lookup.
  destruct (decide (j = i)) as [->|Hne].
  - rewrite list_lookup_insert_eq by exact Hi. reflexivity.
  - rewrite list_lookup_insert_ne by congruence. reflexivity.
Qed.

(** The first-visit body on an object with well-formed tables. *)
Lemma first_visit_cells state act G b :
  (0 <= act < Z.of_nat (num_of_action b))%Z ->
  rows_sized N_values b -> rows_sized Q_values b -> counts_nonneg b ->
  exists b',
    MC.first_visit state act (Some G) b = (Returns tt, b') /\
    same_frame b b' /\
    rows_sized N_values b' /\ rows_sized Q_values b' /\ counts_nonneg b' /\
    (forall s j,
       cell N_values s j b'
       = if decide (s = state /\ j = Z.to_nat act)
         then cell N_values s j b + 1 else cell N_values s j b) /\
    (forall s j,
       cell Q_values s j b'
       = if decide (s = state /\ j = Z.to_nat act)
         then cell Q_values s j b
              + 1 / (cell N_values s j b + 1) * (G - cell Q_values s j b)
         else cell Q_values s j b).
Proof.
  intros Hact HN HQ Hpos.
  set (i := Z.to_nat act).
  pose proof (row_or_default_length N_values state b HN) as HlenN.
  pose proof (row_or_default_length Q_values state b HQ) as HlenQ.
  pose proof (row_or_default_nonneg state b Hpos) as HposN.
  assert (Hi : (i < num_of_action b)%nat) by (subst i; lia).
  assert (Hn : vec_get (row_or_default N_values state b) act
               = Some (cell N_values state i b)).
  { apply vec_get_in_range. rewrite HlenN. exact Hact. }
  assert (Hq : vec_get (row_or_default Q_values state b) act
               = Some (cell Q_values state i b)).
  { apply vec_get_in_range. rewrite HlenQ. exact Hact. }
  assert (Hge : 0 <= cell N_values state i b).
  { unfold cell. rewrite Forall_forall in HposN. apply HposN.
    apply list_elem_of_lookup. exists i. apply nth_lookup_Some. lia. }
  assert (Hnz : ~ cell N_values state i b + 1 == 0) by lra.
  destruct (first_visit_run state act G b _ _ Hn Hq Hnz)
    as (n_row & q_row & b' & Hrun & Hnset & Hqset & Hnl & Hql).
  pose proof (keeps_frame_first_visit state act (Some G) b) as Hf.
  rewrite Hrun in Hf. simpl in Hf.
  assert (Hnum : num_of_action b' = num_of_action b)
    by (destruct Hf as (_&_&_&_&_&_& H &_); exact H).
  assert (En : elems n_row
               = <[i := cell N_values state i b + 1]>
                   (elems (row_or_default N_values state b))).
  { apply (vec_set_in_range _ act); [rewrite HlenN; exact Hact | exact Hnset]. }
  assert (Eq : elems q_row
               = <[i := cell Q_values state i b
                        + 1 / (cell N_values state i b + 1)
                          * (G - cell Q_values state i b)]>
                   (elems (row_or_default Q_values state b))).
  { apply (vec_set_in_range _ act); [rewrite HlenQ; exact Hact | exact Hqset]. }
  exists b'. split; [exact Hrun|]. split; [exact Hf|].
  split; [|split; [|split; [|split]]].
  - intros s row Hs. change (n_values b' !! s = Some row) in Hs.
    rewrite Hnl in Hs. rewrite Hnum.
    destruct (decide (s = state)) as [->|Hne].
    + injection Hs as <-. rewrite En, length_insert. exact HlenN.
    + exact (HN s row Hs).
  - intros s row Hs. change (q_values b' !! s = Some row) in Hs.
    rewrite Hql in Hs. rewrite Hnum.
    destruct (decide (s = state)) as [->|Hne].
    + injection Hs as <-. rewrite Eq, length_insert. exact HlenQ.
    + exact (HQ s row Hs).
  - intros s row Hs. rewrite Hnl in Hs.
    destruct (decide (s = state)) as [->|Hne].
    + injection Hs as <-. rewrite En. apply Forall_insert; [exact HposN|].
      lra.
    + exact (Hpos s row Hs).
  - intros s j. destruct (decide (s = state)) as [->|Hne].
    + rewrite (cell_lookup N_values state j b' n_row).
      2:{ change (n_values b' !! state = Some n_row). rewrite Hnl.
          destruct (decide (state = state)); congruence. }
      rewrite En, nth_insert by (rewrite HlenN; exact Hi).
      destruct (decide (j = i)) as [->|Hj].
      * rewrite decide_True by auto. reflexivity.
      * rewrite decide_False by tauto. reflexivity.
    + rewrite decide_False by tauto. apply cell_same; [|exact Hnum].
      change (n_values b' !! s = n_values b !! s). rewrite Hnl.
      destruct (decide (s = state)); [contradiction | reflexivity].
  - intros s j. destruct (decide (s = state)) as [->|Hne].
    + rewrite (cell_lookup Q_values state j b' q_row).
      2:{ change (q_values b' !! state = Some q_row). rewrite Hql.
          destruct (decide (state = state)); congruence. }
      rewrite Eq, nth_insert by (rewrite HlenQ; exact Hi).
      destruct (decide (j = i)) as [->|Hj].
      * rewrite decide_True by auto. reflexivity.
      * rewrite decide_False by tauto. reflexivity.
    + rewrite decide_False by tauto. apply cell_same; [|exact Hnum].
      change (q_values b' !! s = q_values b !! s). rewrite Hql.
      destruct (decide (s = state)); [contradiction | reflexivity].
Qed.

Lemma elem_of_take_S (pairs : list (list Z * Z)) k p x :
  pairs !! k = Some p ->
  x ∈ take (S k) pairs <-> x ∈ take k pairs \/ x = p.
Proof.
  intros H. rewrite (take_S_r _ _ _ H), elem_of_app, list_elem_of_singleton.
  reflexivity.
Qed.

(** A step that changes nothing keeps the effect of the scan, whether the
    pair of the step was seen before or is another pair. *)
Lemma episode_effect_upto_skip a b s i pairs k p :
  pairs !! k = Some p ->
  ((s, Z.of_nat i) = p -> p ∈ take k pairs) ->
  episode_effect_upto a b s i pairs k ->
  episode_effect_upto a b s i pairs (S k).
Proof.
  intros Hp Hseen [Hin Hout]. split.
  - intros H. apply (elem_of_take_S _ _ _ _ Hp) in H.
    assert (Hk : (s, Z.of_nat i) ∈ take k pairs).
    { destruct H as [H|H]; [exact H|]. rewrite H. apply Hseen. exact H. }
    destruct (Hin Hk) as (HN & t & Ht & Hpt & Hfirst & HQ).
    split; [exact HN|]. exists t. split; [lia|]. auto.
  - intros H. apply Hout. intros Hk. apply H.
    apply (elem_of_take_S _ _ _ _ Hp). left. exact Hk.
Qed.

Lemma spec_loop_episode a pairs :
  Forall (fun p : list Z * Z => (0 <= p.2 < Z.of_nat (num_of_action a))%Z)
    pairs ->
  length (reward_hist a) = length pairs ->
  forall m k b,
    (k + m = length pairs)%nat ->
    same_frame a b ->
    rows_sized N_values b -> rows_sized Q_values b -> counts_nonneg b ->
    (forall s i, (i < num_of_action a)%nat ->
       episode_effect_upto a b s i pairs k) ->
    exists b',
      MC.first_visit_spec_loop (discount_factor a) (reward_hist a) pairs
        (seq k m) b = (Returns tt, b') /\
      same_frame a b' /\
      (forall s i, (i < num_of_action a)%nat ->
         episode_effect_upto a b' s i pairs (k + m)).
Proof.
  intros Hacts Hrew. induction m as [|m IH];
    intros k b Hkm Hf HN HQ Hpos Hinv.
  - exists b. split; [reflexivity|]. split; [exact Hf|].
    intros s i Hi. rewrite Nat.add_0_r. apply Hinv. exact Hi.
  - destruct (lookup_lt_is_Some_2 pairs k ltac:(lia)) as [[s0 act] Hp].
    assert (Hact : (0 <= act < Z.of_nat (num_of_action a))%Z).
    { rewrite Forall_forall in Hacts.
      apply (Hacts (s0, act)). eapply list_elem_of_lookup_2. exact Hp. }
    assert (Hnum : num_of_action b = num_of_action a)
      by (destruct Hf as (_&_&_&_&_&_& H &_); exact H).
    replace (k + S m)%nat with (S k + m)%nat by lia.
    cbn [seq MC.first_visit_spec_loop]. rewrite Hp.
    unfold MC.first_occurrence. rewrite Hp.
    destruct (decide ((s0, act) ∈ take k pairs)) as [Hseen|Hnew].
    + rewrite bool_decide_eq_false_2 by tauto.
      apply IH; try assumption; [lia|].
      intros s i Hi. eapply episode_effect_upto_skip; [exact Hp| |auto].
      intros _. exact Hseen.
    + rewrite bool_decide_eq_true_2 by exact Hnew.
      rewrite bool_decide_eq_true_2 by lia.
      destruct (first_visit_cells s0 act
                  (MC.return_from (discount_factor a) (reward_hist a) k) b)
        as (b1 & Hrun & Hf1 & HN1 & HQ1 & Hpos1 & HcN & HcQ);
        try assumption; [rewrite Hnum; exact Hact|].
      unfold bind. rewrite Hrun.
      apply IH; try assumption; [lia | eapply same_frame_trans; eassumption|].
      intros s i Hi. specialize (Hinv s i Hi).
      specialize (HcN s i). specialize (HcQ s i).
      destruct (decide (s = s0 /\ i = Z.to_nat act)) as [[Hs Hi']|Hother].
      * assert (Hpair : (s, Z.of_nat i) = (s0, act)).
        { rewrite Hs, Hi', Z2Nat.id by lia. reflexivity. }
        destruct Hinv as [_ Hout]. rewrite Hpair in Hout.
        destruct (Hout Hnew) as [EN EQ].
        split; rewrite Hpair.
        -- intros _. split; [rewrite HcN, EN; reflexivity|].
           exists k. split; [lia|]. split; [exact Hp|]. split; [exact Hnew|].
           rewrite HcQ, EN, EQ. reflexivity.
        -- intros H. exfalso. apply H.
           apply (elem_of_take_S _ _ _ _ Hp). right. reflexivity.
      * assert (Hne : (s, Z.of_nat i) <> (s0, act)).
        { intros [= -> <-]. apply Hother. split; [reflexivity|].
          rewrite Nat2Z.id. reflexivity. }
        apply (episode_effect_upto_skip a b1 s i pairs k (s0, act) Hp);
          [intros H; contradiction|].
        destruct Hinv as [Hin Hout]. split.
        -- intros H. rewrite HcN, HcQ. apply Hin. exact H.
        -- intros H. rewrite HcN, HcQ. apply Hout. exact H.
Qed.

(** A finished episode on a well-formed object: the call returns, the
    histories are empty, and every pair of the episode is counted once. *)
Lemma update_done_episode a obs action reward_value :
  episode_ok a ->
  exists a',
    MC.update true obs action reward_value a = (Returns tt, a') /\
    obs_hist a' = [] /\ action_hist a' = [] /\ reward_hist a' = [] /\
    forall s i, (i < num_of_action a)%nat -> episode_effect a a' s i.
Proof.
  intros (Hla & Hlr & Hacts & HN & HQ & Hpos).
  rewrite update_done_spec. unfold MC.episode_update_spec, bind, gets.
  set (pairs := zip (obs_hist a) (action_hist a)).
  assert (Hlen : length pairs = length (obs_hist a)).
  { subst pairs. rewrite length_zip. lia. }
  destruct (spec_loop_episode a pairs) with (m := length (obs_hist a))
    (k := O) (b := a) as (b' & Hrun & Hf & Heff);
    try assumption.
  - apply Forall_forall. intros [s act] Hin. simpl.
    rewrite Forall_forall in Hacts. apply Hacts.
    subst pairs. eapply elem_of_zip_r. exact Hin.
  - lia.
  - lia.
  - apply same_frame_refl.
  - intros s i Hi. split.
    + intros H. rewrite take_0 in H. apply elem_of_nil in H. contradiction.
    + intros _. split; reflexivity.
  - rewrite Hrun. eexists. split; [reflexivity|].
    split; [reflexivity|]. split; [reflexivity|]. split; [reflexivity|].
    intros s i Hi. specialize (Heff s i Hi). simpl in Heff.
    unfold episode_effect. fold pairs.
    destruct Heff as [Hin Hout]. split; intros H.
    + destruct (Hin H) as (E1 & t & E2). split; [exact E1|].
      exists t. exact E2.
    + exact (Hout H).
Qed.

(** C3.  A call with [done = true] is the forward scan over the recorded
    steps that, at the first occurrence of a (state, action) pair in the
    episode, runs the first-visit body with the return [G_i] of that step
    and does nothing at a later occurrence of the pair.  The returns obey
    [G_i = reward[i] + gamma * G_{i+1}] with zero past the last step, and
    the list computed by the backward loop holds them.  The first-visit
    body adds exactly 1 to [N[state][action]] and then adds
    [(1 / N[state][action]) * (G - Q[state][action])] to
    [Q[state][action]].  On an object in the middle of an episode the
    call returns, and for every state and action the two cells have changed
    as follows: a pair that occurs in the episode is counted once and its
    value has moved by [(1 / N) * (G_t - Q)] for the step [t] of its first
    occurrence, and any other pair keeps its cells.  The configured
    learning rate plays no part: changing it changes nothing but itself. *)
Theorem mc_update_first_visit a obs action reward_value :
  MC.update true obs action reward_value a = MC.episode_update_spec a /\
  (forall i r, reward_hist a !! i = Some r ->
     MC.compute_returns (discount_factor a) (reward_hist a) !! i
       = Some (MC.return_from (discount_factor a) (reward_hist a) i) /\
     MC.return_from (discount_factor a) (reward_hist a) i
       = r + discount_factor a
             * MC.return_from (discount_factor a) (reward_hist a) (S i)) /\
  MC.return_from (discount_factor a) (reward_hist a) (length (reward_hist a))
    = 0 /\
  (forall state act G b n_old q_old,
     vec_get (row_or_default N_values state b) act = Some n_old ->
     vec_get (row_or_default Q_values state b) act = Some q_old ->
     ~ n_old + 1 == 0 ->
     exists n_row q_row b',
       MC.first_visit state act (Some G) b = (Returns tt, b') /\
       n_values b' !! state = Some n_row /\
       vec_get n_row act = Some (n_old + 1) /\
       q_values b' !! state = Some q_row /\
       vec_get q_row act = Some (q_old + 1 / (n_old + 1) * (G - q_old))) /\
  (episode_ok a ->
   exists a',
     MC.update true obs action reward_value a = (Returns tt, a') /\
     forall state i, (i < num_of_action a)%nat ->
       episode_effect a a' state i) /\
  (forall x,
     MC.update true obs action reward_value (set_lr a x)
     = ((MC.update true obs action reward_value a).1,
        set_lr (MC.update true obs action reward_value a).2 x)).
Proof.
  split; [apply update_done_spec|]. split; [|split; [|split; [|split]]].
  - intros i r Hr. split.
    + rewrite compute_returns_lookup.
      rewrite bool_decide_eq_true_2; [reflexivity|].
      eapply lookup_lt_Some. exact Hr.
    + apply return_from_step. exact Hr.
  - apply return_from_end.
  - intros state act G b n_old q_old. apply first_visit_effect.
  - intros Hok.
    destruct (update_done_episode a obs action reward_value Hok)
      as (a' & Hrun & _ & _ & _ & Heff).
    exists a'. split; [exact Hrun | exact Heff].
  - intros x. apply lr_blind_update.
Qed.

Lemma mc_update_first_visit_witness :
  MC.update true obs_origin 0 0 mc_episode = MC.episode_update_spec mc_episode /\
  MC.compute_returns 1 [1; 1] !! 0%nat = Some (MC.return_from 1 [1; 1] 0) /\
  MC.return_from 1 [1; 1] 0 = 1 + 1 * MC.return_from 1 [1; 1] 1 /\
  (exists n_row q_row b',
     MC.first_visit tie_key 1 (Some 2) mc_episode = (Returns tt, b') /\
     n_values b' !! tie_key = Some n_row /\
     vec_get n_row 1 = Some (0 + 1) /\
     q_values b' !! tie_key = Some q_row /\
     vec_get q_row 1 = Some (0 + 1 / (0 + 1) * (2 - 0))) /\
  episode_ok mc_episode /\
  (exists a',
     MC.update true obs_origin 0 0 mc_episode = (Returns tt, a') /\
     forall state i, (i < num_of_action mc_episode)%nat ->
       episode_effect mc_episode a' state i).
Proof.
  destruct (mc_update_first_visit mc_episode obs_origin 0 0)
    as (H1 & H2 & _ & H4 & H5 & _).
  split; [exact H1|].
  destruct (H2 0%nat 1 eq_refl) as [H2a H2b].
  split; [exact H2a|]. split; [exact H2b|]. split.
  { apply (H4 tie_key 1%Z 2 mc_episode 0 0); try (vm_compute; reflexivity).
    vm_compute. discriminate. }
  assert (Hok : episode_ok mc_episode).
  { split; [reflexivity|]. split; [reflexivity|]. split.
    - repeat constructor; simpl; lia.
    - split; [|split]; intros s row H; vm_compute in H; discriminate. }
  split; [exact Hok | exact (H5 Hok)].
Defined.

(** The episode of the description: rewards 1 and 1 with discount 1 give the
    returns 2 and 1, and a pair that occurs twice is counted once. *)
Example mc_episode_returns :
  MC.compute_returns (discount_factor mc_episode) (reward_hist mc_episode)
    = [2; 1].
Proof. reflexivity. Qed.

Example mc_episode_counts :
  let r := MC.update true obs_origin 0 0 mc_episode in
  r.1 = Returns tt /\
  n_values r.2 !! tie_key = Some (NdArray [0; 0 + 1]) /\
  (exists q, q_values r.2 !! tie_key = Some (NdArray [0; q]) /\ q == 2).
Proof.
  split; [vm_compute; reflexivity|]. split; [vm_compute; reflexivity|].
  exists (0 + 1 / (0 + 1) * (2 - 0)).
  split; vm_compute; reflexivity.
Qed.

(** ** Monte Carlo: the histories *)

(** C9.  A call with [done = false] returns, leaves [q_values] and
    [n_values] as they were and appends the discretised state, the action
    and the reward to the three histories.  A call with [done = true] does
    not use its own state, action and reward at all, and when it returns
    the three histories are empty; on an object in the middle of an episode
    it does return. *)
Theorem mc_update_history a obs action reward_value :
  (let r := MC.update false obs action reward_value a in
   r.1 = Returns tt /\
   q_values r.2 = q_values a /\ n_values r.2 = n_values a /\
   obs_hist r.2 = obs_hist a ++ [discretize_state a obs] /\
   action_hist r.2 = action_hist a ++ [action] /\
   reward_hist r.2 = reward_hist a ++ [reward_value]) /\
  (forall obs' action' reward_value',
     MC.update true obs action reward_value a
     = MC.update true obs' action' reward_value' a) /\
  (forall a',
     MC.update true obs action reward_value a = (Returns tt, a') ->
     obs_hist a' = [] /\ action_hist a' = [] /\ reward_hist a' = []) /\
  (episode_ok a ->
   exists a',
     MC.update true obs action reward_value a = (Returns tt, a') /\
     obs_hist a' = [] /\ action_hist a' = [] /\ reward_hist a' = []).
Proof.
  split; [|split; [|split]].
  - repeat split.
  - intros obs' action' reward_value'. rewrite !update_done_spec. reflexivity.
  - intros a'. unfold MC.update, bind, gets. change (negb true) with false.
    cbv beta iota.
    destruct (MC.first_visit_loop _ _ _ a) as [[[]|e] a1]; [|discriminate].
    unfold modify. intros [= <-]. repeat split.
  - intros Hok.
    destruct (update_done_episode a obs action reward_value Hok)
      as (a' & Hrun & Ho & Ha & Hr & _).
    exists a'. auto.
Qed.

Lemma mc_update_history_witness :
  let a' := (MC.update true obs_origin 0 0 mc_episode).2 in
  MC.update true obs_origin 0 0 mc_episode = (Returns tt, a') /\
  (obs_hist a' = [] /\ action_hist a' = [] /\ reward_hist a' = []) /\
  episode_ok mc_episode /\
  (exists a'',
     MC.update true obs_origin 0 0 mc_episode = (Returns tt, a'') /\
     obs_hist a'' = [] /\ action_hist a'' = [] /\ reward_hist a'' = []).
Proof.
  intros a'.
  assert (E : MC.update true obs_origin 0 0 mc_episode = (Returns tt, a'))
    by (vm_compute; reflexivity).
  destruct (mc_update_history mc_episode obs_origin 0 0) as (_ & _ & H & H').
  split; [exact E|]. split; [exact (H a' E)|].
  assert (Hok : episode_ok mc_episode).
  { split; [reflexivity|]. split; [reflexivity|]. split.
    - repeat constructor; simpl; lia.
    - split; [|split]; intros s row Hs; vm_compute in Hs; discriminate. }
  split; [exact Hok | exact (H' Hok)].
Defined.

(** ** Text of state keys *)

Lemma string_app_cons c (s t : string) :
  String.append (String c s) t = String c (String.append s t).
Proof. reflexivity. Qed.

Lemma string_app_nil_l (t : string) : String.append EmptyString t = t.
Proof. reflexivity. Qed.

Lemma string_app_assoc (s1 s2 s3 : string) :
  String.append (String.append s1 s2) s3
  = String.append s1 (String.append s2 s3).
Proof.
  induction s1 as [|c s1 IH]; [reflexivity|].
  rewrite !string_app_cons. f_equal. exact IH.
Qed.

Lemma string_app_nil_r (s : string) : String.append s EmptyString = s.
Proof.
  induction s as [|c s IH]; [reflexivity|].
  rewrite string_app_cons. f_equal. exact IH.
Qed.

Lemma string_forall_app P s1 s2 :
  string_forall P (String.append s1 s2)
  = string_forall P s1 && string_forall P s2.
Proof.
  induction s1 as [|c s1 IH]; [reflexivity|].
  rewrite string_app_cons. simpl. rewrite IH. apply andb_assoc.
Qed.

Lemma numeral_uint d : numeral (NilEmpty.string_of_uint d) = true.
Proof. induction d; simpl; try reflexivity; exact IHd. Qed.

Lemma numeral_uint_zero d : numeral (NilZero.string_of_uint d) = true.
Proof. destruct d; [reflexivity | apply (numeral_uint (_ d)) ..]. Qed.

Lemma str_int_numeral z : numeral (str_int z) = true.
Proof.
  unfold str_int. destruct (Z.to_int z) as [d|d].
  - apply numeral_uint_zero.
  - exact (numeral_uint_zero d).
Qed.

Lemma numeral_head c s :
  numeral (String c s) = true ->
  in_chars c "-0123456789" = true /\ numeral s = true.
Proof. unfold numeral. simpl. intros H. apply andb_true_iff in H. exact H. Qed.

Lemma numeral_char c :
  in_chars c "-0123456789" = true ->
  in_chars c "(), " = false /\ Ascii.eqb c "." = false.
Proof.
  unfold in_chars. simpl. intros H.
  repeat (apply orb_true_iff in H as [H|H];
          [apply Ascii.eqb_eq in H; subst c; split; reflexivity|]).
  discriminate.
Qed.

Lemma numeral_token s : numeral s = true -> token s = true.
Proof.
  induction s as [|c s IH]; [reflexivity|]. intros H.
  apply numeral_head in H as [Hc Hs]. unfold token in *. simpl.
  rewrite (proj1 (numeral_char c Hc)), (IH Hs). reflexivity.
Qed.

Lemma str_int_token z : token (str_int z) = true.
Proof. apply numeral_token, str_int_numeral. Qed.

Lemma str_float_token z : token (str_float z) = true.
Proof.
  unfold str_float, token. rewrite string_forall_app.
  fold (token (str_int z)). rewrite str_int_token. reflexivity.
Qed.

Lemma token_no_paren s : token s = true -> no_paren s = true.
Proof.
  unfold token, no_paren. induction s as [|c s IH]; simpl; [reflexivity|].
  intros H. apply andb_true_iff in H as [Hc Hs].
  rewrite (IH Hs), andb_true_r.
  unfold in_chars in *. simpl in *.
  apply negb_true_iff in Hc. apply negb_true_iff.
  apply orb_false_iff in Hc as [H1 Hc]. apply orb_false_iff in Hc as [H2 _].
  rewrite H1, H2. reflexivity.
Qed.

Lemma split_point_numeral s rest :
  numeral s = true ->
  split_point (String.append s rest)
  = (String.append s (split_point rest).1, (split_point rest).2).
Proof.
  induction s as [|c s IH]; intros H.
  - rewrite !string_app_nil_l. destruct (split_point rest); reflexivity.
  - apply numeral_head in H as [Hc Hs].
    rewrite !string_app_cons. cbn [split_point].
    rewrite (proj2 (numeral_char c Hc)), (IH Hs). reflexivity.
Qed.

Lemma int_of_str_int z :
  NilZero.int_of_string (str_int z) = Some (Z.to_int z).
Proof.
  unfold str_int. apply NilZero.isi.
  - destruct z; simpl; try discriminate.
    intros [= H]. exact (DecimalPos.Unsigned.to_uint_nonnil _ H).
  - destruct z; simpl; try discriminate.
    intros [= H]. exact (DecimalPos.Unsigned.to_uint_nonnil _ H).
Qed.

Lemma round_binary64_small z : (Z.abs z < 2 ^ 53)%Z -> round_binary64 z = z.
Proof.
  intros Hz. unfold round_binary64.
  destruct (Z.ltb_spec (Z.abs z) (2 ^ 53)); [reflexivity | lia].
Qed.

Lemma py_float_str_int z :
  (Z.abs z < 2 ^ 53)%Z -> py_float (str_int z) = Some z.
Proof.
  intros Hz. unfold py_float.
  rewrite <- (string_app_nil_r (str_int z)).
  rewrite split_point_numeral by apply str_int_numeral.
  cbn [split_point fst snd]. rewrite string_app_nil_r, int_of_str_int.
  rewrite DecimalZ.of_to, round_binary64_small by exact Hz. reflexivity.
Qed.

Lemma py_float_str_float z :
  (Z.abs z < 2 ^ 53)%Z -> py_float (str_float z) = Some z.
Proof.
  intros Hz. unfold py_float, str_float.
  rewrite split_point_numeral by apply str_int_numeral.
  change (split_point ".0") with (EmptyString, Some "0"%string).
  cbn [fst snd]. rewrite string_app_nil_r, int_of_str_int.
  change (all_zeros "0") with true. cbv iota.
  rewrite DecimalZ.of_to, round_binary64_small by exact Hz. reflexivity.
Qed.

Lemma token_head c s :
  token (String c s) = true ->
  c <> ","%char /\ c <> "("%char /\ c <> ")"%char /\ token s = true.
Proof.
  unfold token. simpl. intros H. apply andb_true_iff in H as [Hc Hs].
  apply negb_true_iff in Hc. unfold in_chars in Hc. simpl in Hc.
  repeat (apply orb_false_iff in Hc as [? Hc]).
  repeat split;
    try (intros ->; match goal with
                    | H : Ascii.eqb _ _ = false |- _ =>
                        rewrite Ascii.eqb_refl in H; discriminate
                    end).
  exact Hs.
Qed.

(** A token is read to its end without a cut. *)
Lemma split_go_token t : forall cur rest,
  token t = true ->
  split_go ", " 0 cur (String.append t rest)
  = split_go ", " 0 (String.append cur t) rest.
Proof.
  induction t as [|c t IH]; intros cur rest Ht.
  - rewrite string_app_nil_l, string_app_nil_r. reflexivity.
  - apply token_head in Ht as (Hc & _ & _ & Ht).
    rewrite string_app_cons. cbn [split_go String.prefix].
    destruct (ascii_dec "," c) as [E|_]; [congruence|].
    rewrite IH by exact Ht. rewrite string_app_assoc. reflexivity.
Qed.

Lemma split_go_sep cur rest :
  split_go ", " 0 cur (String.append ", " rest)
  = cur :: split_go ", " 0 EmptyString rest.
Proof.
  change (String.append ", " rest) with (String "," (String " " rest)).
  assert (H : String.prefix ", " (String "," (String " " rest)) = true)
    by (destruct rest; reflexivity).
  cbn [split_go]. rewrite H. reflexivity.
Qed.

Lemma split_concat t ts :
  Forall (fun s => token s = true) (t :: ts) ->
  split ", " (String.concat ", " (t :: ts)) = t :: ts.
Proof.
  unfold split.
  assert (H : forall cur, Forall (fun s => token s = true) (t :: ts) ->
            split_go ", " 0 cur (String.concat ", " (t :: ts))
            = String.append cur t :: ts).
  { revert t. induction ts as [|t' ts IH]; intros t cur Hall.
    - simpl String.concat. rewrite <- (string_app_nil_r t) at 1.
      rewrite split_go_token by (inversion Hall; assumption). reflexivity.
    - change (String.concat ", " (t :: t' :: ts))
        with (String.append t (String.append ", " (String.concat ", " (t' :: ts)))).
      inversion Hall as [|? ? Ht Hrest]; subst.
      rewrite split_go_token by exact Ht. rewrite split_go_sep.
      rewrite IH by exact Hrest. reflexivity. }
  intros Hall. rewrite (H EmptyString Hall). reflexivity.
Qed.

Lemma no_paren_head c s :
  no_paren (String c s) = true ->
  in_chars c "()" = false /\ c <> "("%char /\ c <> ")"%char /\ no_paren s = true.
Proof.
  unfold no_paren. simpl. intros H. apply andb_true_iff in H as [Hc Hs].
  apply negb_true_iff in Hc. split; [exact Hc|].
  unfold in_chars in Hc. simpl in Hc.
  repeat (apply orb_false_iff in Hc as [? Hc]).
  repeat split;
    try (intros ->; match goal with
                    | H : Ascii.eqb _ _ = false |- _ =>
                        rewrite Ascii.eqb_refl in H; discriminate
                    end).
  exact Hs.
Qed.

Lemma no_paren_concat ts :
  Forall (fun s => token s = true) ts ->
  no_paren (String.concat ", " ts) = true.
Proof.
  induction ts as [|t ts IH]; intros Hall; [reflexivity|].
  inversion Hall as [|? ? Ht Hrest]; subst.
  destruct ts as [|t' ts]; [apply token_no_paren; exact Ht|].
  change (String.concat ", " (t :: t' :: ts))
    with (String.append t (String.append ", " (String.concat ", " (t' :: ts)))).
  unfold no_paren in *. rewrite !string_forall_app.
  rewrite (token_no_paren t Ht : string_forall _ t = true).
  rewrite (IH Hrest). reflexivity.
Qed.

Lemma rstrip_close body :
  no_paren body = true -> rstrip "()" (String.append body ")") = body.
Proof.
  induction body as [|c body IH]; intros H; [reflexivity|].
  apply no_paren_head in H as (Hc & _ & _ & Hb).
  rewrite string_app_cons. cbn [rstrip]. rewrite (IH Hb).
  destruct body; [rewrite Hc|]; reflexivity.
Qed.

Lemma strip_parens body :
  no_paren body = true ->
  strip "()" (String.append "(" (String.append body ")")) = body.
Proof.
  intros H. unfold strip.
  change (String.append "(" (String.append body ")"))
    with (String "(" (String.append body ")")).
  change (lstrip "()" (String "(" (String.append body ")")))
    with (lstrip "()" (String.append body ")")).
  destruct body as [|c body]; [reflexivity|].
  pose proof (no_paren_head _ _ H) as (Hc & _).
  rewrite string_app_cons. cbn [lstrip]. rewrite Hc.
  rewrite <- string_app_cons. apply rstrip_close. exact H.
Qed.

Lemma replace_app old new s1 s2 :
  replace old new (String.append s1 s2)
  = String.append (replace old new s1) (replace old new s2).
Proof.
  induction s1 as [|c s1 IH]; [reflexivity|].
  rewrite string_app_cons. cbn [replace]. rewrite IH.
  destruct (Ascii.eqb c old); [|reflexivity].
  rewrite string_app_assoc. reflexivity.
Qed.

Lemma replace_no_paren old body :
  (old = "("%char \/ old = ")"%char) -> no_paren body = true ->
  replace old EmptyString body = body.
Proof.
  intros Hold. induction body as [|c body IH]; intros H; [reflexivity|].
  apply no_paren_head in H as (_ & H1 & H2 & Hb).
  cbn [replace]. rewrite (IH Hb).
  destruct (Ascii.eqb_spec c old) as [->|_]; [|reflexivity].
  destruct Hold; congruence.
Qed.

Lemma replace_parens body :
  no_paren body = true ->
  replace ")" EmptyString
    (replace "(" EmptyString (String.append "(" (String.append body ")")))
  = body.
Proof.
  intros H.
  rewrite (replace_app "(" EmptyString "("), (replace_app "(" EmptyString body).
  rewrite (replace_no_paren "(" body) by (auto || exact H).
  change (replace "(" EmptyString "(") with EmptyString.
  change (replace "(" EmptyString ")") with ")"%string.
  rewrite string_app_nil_l, replace_app.
  rewrite (replace_no_paren ")" body) by (auto || exact H).
  change (replace ")" EmptyString ")") with EmptyString.
  apply string_app_nil_r.
Qed.

Lemma mapM_py_float (p : Z -> string) k :
  (forall z, (Z.abs z < 2 ^ 53)%Z -> py_float (p z) = Some z) ->
  Forall (fun z => (Z.abs z < 2 ^ 53)%Z) k ->
  mapM py_float (map p k) = Some k.
Proof.
  intros Hp. induction k as [|z k IH]; intros H; [reflexivity|].
  inversion H as [|? ? Hz Hk]; subst. simpl.
  rewrite (Hp z Hz). simpl. rewrite (IH Hk). reflexivity.
Qed.

Lemma str_tuple_body (p : Z -> string) k :
  (2 <= length k)%nat ->
  str_tuple_with p k
  = String.append "("
      (String.append (String.concat ", " (map p k)) ")") /\
  exists t ts, map p k = t :: ts.
Proof.
  destruct k as [|x [|y k]]; simpl; intros H; try lia.
  split; [reflexivity|]. eauto.
Qed.

Lemma map_tokens (p : Z -> string) k :
  (forall z, token (p z) = true) ->
  Forall (fun s => token s = true) (map p k).
Proof.
  intros Hp. induction k as [|z k IH]; simpl; constructor; [apply Hp | exact IH].
Qed.

(** The printers of the components of a key: both print tokens that
    [py_float] reads back. *)
Lemma printer_ok (is_float : bool) :
  (forall z, token ((if is_float then str_float else str_int) z) = true) /\
  (forall z, (Z.abs z < 2 ^ 53)%Z ->
     py_float ((if is_float then str_float else str_int) z) = Some z).
Proof.
  destruct is_float; split;
    auto using str_float_token, str_int_token, py_float_str_float,
               py_float_str_int.
Qed.

(** The text of a key parses back to the key, by either of the two parsers
    of [load_q_value] and for either way of storing the key. *)
Lemma parse_state_strip_str_tuple (is_float : bool) k :
  key_ok k -> parse_state_strip (str_tuple is_float k) = Some k.
Proof.
  intros [Hlen Hrange]. unfold parse_state_strip, str_tuple.
  destruct (printer_ok is_float) as [Htok Hparse].
  destruct (str_tuple_body (if is_float then str_float else str_int) k Hlen)
    as [-> (t & ts & Hts)].
  pose proof (map_tokens _ k Htok) as Hall.
  rewrite strip_parens by (apply no_paren_concat; exact Hall).
  rewrite Hts in Hall |- *. rewrite split_concat by exact Hall.
  rewrite <- Hts. apply mapM_py_float; assumption.
Qed.

Lemma parse_state_replace_str_tuple (is_float : bool) k :
  key_ok k -> parse_state_replace (str_tuple is_float k) = Some k.
Proof.
  intros [Hlen Hrange]. unfold parse_state_replace, str_tuple.
  destruct (printer_ok is_float) as [Htok Hparse].
  destruct (str_tuple_body (if is_float then str_float else str_int) k Hlen)
    as [-> (t & ts & Hts)].
  pose proof (map_tokens _ k Htok) as Hall.
  rewrite replace_parens by (apply no_paren_concat; exact Hall).
  rewrite Hts in Hall |- *. rewrite split_concat by exact Hall.
  rewrite <- Hts. apply mapM_py_float; assumption.
Qed.

(** ** Loading *)

Lemma section_lookup_None parse entries key :
  section_lookup parse entries key = None <->
  forall state values, (state, values) ∈ entries -> parse state <> Some key.
Proof.
  induction entries as [|[s v] rest IH]; simpl.
  - split; [|reflexivity]. intros _ state values H.
    apply elem_of_nil in H. contradiction.
  - destruct (section_lookup parse rest key) as [w|] eqn:E.
    + split; [discriminate|]. intros H.
      assert (Hn : Some w = None); [|discriminate].
      apply IH. intros state values Hin. apply (H state values).
      right. exact Hin.
    + case_bool_decide as Hp.
      * split; [discriminate|]. intros H. exfalso.
        apply (H s v); [left | exact Hp].
      * split; [|reflexivity]. intros _ state values Hin.
        apply elem_of_cons in Hin as [[= -> ->]|Hin]; [exact Hp|].
        apply (proj1 IH eq_refl state values Hin).
Qed.



Lemma load_rows_returns parse t entries : forall a o a',
  load_rows parse t entries a = (o, a') ->
  same_frame a a' /\
  (forall t', t' <> t -> get_table t' a' = get_table t' a) /\
  (o = Returns tt ->
   forall key, get_table t a' !! key = merged parse entries (get_table t a) key).
Proof.
  induction entries as [|[s v] rest IH]; intros a o a' Hrun.
  - injection Hrun as <- <-. split; [apply same_frame_refl|]. auto.
  - simpl in Hrun. unfold bind, dd_setitem, modify in Hrun.
    destruct (parse s) as [k|] eqn:Ep; simpl in Hrun.
    2:{ injection Hrun as <- <-. split; [apply same_frame_refl|].
        split; [reflexivity | discriminate]. }
    apply IH in Hrun as (Hf & Hother & Hmerge).
    split; [|split].
    + eapply same_frame_trans; [apply same_frame_store | exact Hf].
    + intros t' Ht'. rewrite (Hother t' Ht').
      apply get_table_store_ne. congruence.
    + intros Ho key. rewrite (Hmerge Ho key). unfold merged. simpl.
      destruct (section_lookup parse rest key); [reflexivity|].
      rewrite get_table_store, Ep.
      case_bool_decide as Hk.
      * injection Hk as ->. apply lookup_insert_eq.
      * apply lookup_insert_ne. congruence.
Qed.

Lemma load_rows_total parse t entries : forall a,
  Forall (fun e : string * list Q => is_Some (parse e.1)) entries ->
  exists a', load_rows parse t entries a = (Returns tt, a').
Proof.
  induction entries as [|[s v] rest IH]; intros a Hall.
  - eexists. reflexivity.
  - inversion Hall as [|? ? [k Hk] Hrest]; subst. simpl in Hk.
    simpl. unfold bind, dd_setitem, modify. rewrite Hk. simpl.
    apply IH. exact Hrest.
Qed.

(** Away from Double Q-Learning the loop over [data['q_values']] only
    fills [q_values]. *)
Lemma load_q_rows_single entries : forall a,
  control_type a <> DOUBLE_Q_LEARNING ->
  load_q_rows entries a = load_rows parse_state_replace Q_values entries a.
Proof.
  induction entries as [|[s v] rest IH]; intros a Hct; [reflexivity|].
  simpl. unfold bind, dd_setitem, modify, gets.
  destruct (parse_state_replace s) as [k|]; simpl; [|reflexivity].
  destruct (store_config Q_values k true (PyList v) a) as (Hc & _).
  assert (E : ControlType_eqb (control_type a) DOUBLE_Q_LEARNING = false)
    by (destruct (control_type a); try reflexivity; congruence).
  rewrite Hc, E. simpl. apply IH. congruence.
Qed.

Lemma ControlType_eqb_eq c1 c2 : ControlType_eqb c1 c2 = true <-> c1 = c2.
Proof. destruct c1, c2; simpl; split; congruence. Qed.


Lemma load_q_value_double data a tbl a' :
  control_type a = DOUBLE_Q_LEARNING ->
  load_q_value data a = (Returns tbl, a') ->
  exists sa sb a1,
    ck_qa_values data = Some sa /\ ck_qb_values data = Some sb /\
    load_rows parse_state_strip Qa_values sa a = (Returns tt, a1) /\
    load_rows parse_state_strip Qb_values sb a1 = (Returns tt, a').
Proof.
  intros Hct. unfold load_q_value, bind, gets. rewrite Hct.
  change (ControlType_eqb DOUBLE_Q_LEARNING DOUBLE_Q_LEARNING) with true.
  cbv beta iota.
  destruct (ck_qa_values data) as [sa|]; [|discriminate].
  destruct (ck_qb_values data) as [sb|]; [|discriminate].
  unfold lift, ret. cbv beta iota.
  destruct (load_rows parse_state_strip Qa_values sa a) as [[[]|e] a1] eqn:E1;
    [|discriminate].
  destruct (load_rows parse_state_strip Qb_values sb a1) as [[[]|e] a2] eqn:E2;
    [|discriminate].
  intros [= _ <-]. exists sa, sb, a1. auto.
Qed.




(** ** Saving *)

Lemma json_dump_tolist (f : list Z -> string) (l : list (list Z * vec)) l' :
  mapM (fun kv : list Z * vec =>
          match kv.2 with
          | NdArray xs => Some (f kv.1, PyList xs)
          | PyList _ => None
          end) l = Some l' ->
  json_dump l'
  = Some (map (fun kv : list Z * vec => (f kv.1, elems kv.2)) l).
Proof.
  revert l'. induction l as [|[k v] l IH]; intros l' H; simpl in H.
  - injection H as <-. reflexivity.
  - destruct v as [xs|xs]; simpl in H; [|discriminate].
    destruct (mapM _ l) as [r|] eqn:E; simpl in H; [|discriminate].
    injection H as <-. unfold json_dump in *. simpl.
    rewrite (IH r eq_refl). reflexivity.
Qed.

Lemma json_dump_raw (f : list Z -> string) (l : list (list Z * vec)) sec :
  json_dump (map (fun kv : list Z * vec => (f kv.1, kv.2)) l) = Some sec ->
  sec = map (fun kv : list Z * vec => (f kv.1, elems kv.2)) l.
Proof.
  revert sec. unfold json_dump.
  induction l as [|[k v] l IH]; intros sec H; simpl in H.
  - injection H as <-. reflexivity.
  - destruct v as [xs|xs]; simpl in H; [discriminate|].
    destruct (mapM _ (map _ l)) as [r|] eqn:E; simpl in H; [|discriminate].
    injection H as <-. simpl. rewrite (IH r eq_refl). reflexivity.
Qed.

Lemma str_keys_tolist_dump t a l :
  str_keys_tolist t a = Some l -> json_dump l = Some (section_of t a).
Proof. apply (json_dump_tolist (str_key t a)). Qed.

Lemma str_keys_try_dump t a sec :
  json_dump (str_keys_try t a) = Some sec -> sec = section_of t a.
Proof.
  unfold str_keys_try. destruct (str_keys_tolist t a) as [l|] eqn:E.
  - rewrite (str_keys_tolist_dump t a l E). congruence.
  - apply (json_dump_raw (str_key t a)).
Qed.

Lemma tolist_arrays (f : list Z -> string) (l : list (list Z * vec)) :
  Forall (fun kv : list Z * vec => exists xs, kv.2 = NdArray xs) l ->
  is_Some (mapM (fun kv : list Z * vec =>
                   match kv.2 with
                   | NdArray xs => Some (f kv.1, PyList xs)
                   | PyList _ => None
                   end) l).
Proof.
  induction l as [|[k v] l IH]; intros H; [eexists; reflexivity|].
  inversion H as [|? ? [xs Hv] Hl]; subst. simpl in Hv. subst v.
  destruct (IH Hl) as [r Hr]. simpl. rewrite Hr. eexists. reflexivity.
Qed.

(** A table all of whose rows are arrays. *)
Lemma str_keys_tolist_arrays t a :
  (forall k v, get_table t a !! k = Some v -> exists xs, v = NdArray xs) ->
  is_Some (str_keys_tolist t a).
Proof.
  intros H. apply tolist_arrays. apply Forall_forall.
  intros [k v] Hin. apply elem_of_map_to_list in Hin. exact (H k v Hin).
Qed.

Lemma save_q_value_returns a file a0 :
  save_q_value a = (Returns file, a0) ->
  a0 = a /\
  file = match control_type a with
         | MONTE_CARLO =>
             {| ck_q_values := Some (section_of Q_values a);
                ck_n_values := Some (section_of N_values a);
                ck_qa_values := None; ck_qb_values := None |}
         | DOUBLE_Q_LEARNING =>
             {| ck_q_values := None; ck_n_values := None;
                ck_qa_values := Some (section_of Qa_values a);
                ck_qb_values := Some (section_of Qb_values a) |}
         | _ =>
             {| ck_q_values := Some (section_of Q_values a);
                ck_n_values := None;
                ck_qa_values := None; ck_qb_values := None |}
         end.
Proof.
  unfold save_q_value, bind, gets, lift, ret, raise.
  destruct (control_type a); cbn [ControlType_eqb]; cbv beta iota.
  - destruct (json_dump (str_keys_try Q_values a)) as [sq|] eqn:Eq;
      [|discriminate].
    destruct (json_dump (str_keys_try N_values a)) as [sn|] eqn:En;
      [|discriminate].
    intros [= <- <-].
    rewrite (str_keys_try_dump _ _ _ Eq), (str_keys_try_dump _ _ _ En). auto.
  - destruct (json_dump (str_keys_try Q_values a)) as [sq|] eqn:Eq;
      [|discriminate].
    intros [= <- <-]. rewrite (str_keys_try_dump _ _ _ Eq). auto.
  - destruct (json_dump (str_keys_try Q_values a)) as [sq|] eqn:Eq;
      [|discriminate].
    intros [= <- <-]. rewrite (str_keys_try_dump _ _ _ Eq). auto.
  - destruct (str_keys_tolist Qa_values a) as [la|] eqn:Ea; [|discriminate].
    destruct (str_keys_tolist Qb_values a) as [lb|] eqn:Eb; [|discriminate].
    rewrite (str_keys_tolist_dump _ _ _ Ea), (str_keys_tolist_dump _ _ _ Eb).
    intros [= <- <-]. auto.
Qed.

(** An object whose saved tables hold arrays only, as every object does
    that was trained without a load, is saved without an exception. *)
Lemma save_q_value_arrays a :
  (forall t, t ∈ saved_tables (control_type a) ->
     forall k v, get_table t a !! k = Some v -> exists xs, v = NdArray xs) ->
  exists file, save_q_value a = (Returns file, a).
Proof.
  intros H. unfold save_q_value, bind, gets, lift, ret, raise.
  assert (Hd : forall t, t ∈ saved_tables (control_type a) ->
            str_keys_tolist t a <> None /\
            json_dump (str_keys_try t a) = Some (section_of t a)).
  { intros t Ht. destruct (str_keys_tolist_arrays _ _ (H t Ht)) as [l Hl].
    split; [congruence|]. unfold str_keys_try. rewrite Hl.
    apply (str_keys_tolist_dump _ _ _ Hl). }
  destruct (control_type a); cbn [ControlType_eqb saved_tables] in *;
    cbv beta iota.
  - destruct (Hd Q_values ltac:(left)) as [_ Hq].
    destruct (Hd N_values ltac:(right; left)) as [_ Hn].
    rewrite Hq, Hn. eexists. reflexivity.
  - destruct (Hd Q_values ltac:(left)) as [_ Hq].
    rewrite Hq. eexists. reflexivity.
  - destruct (Hd Q_values ltac:(left)) as [_ Hq].
    rewrite Hq. eexists. reflexivity.
  - destruct (Hd Qa_values ltac:(left)) as [Ha _].
    destruct (Hd Qb_values ltac:(right; left)) as [Hb _].
    destruct (str_keys_tolist Qa_values a) as [la|] eqn:Ea; [|congruence].
    destruct (str_keys_tolist Qb_values a) as [lb|] eqn:Eb; [|congruence].
    rewrite (str_keys_tolist_dump _ _ _ Ea), (str_keys_tolist_dump _ _ _ Eb).
    eexists. reflexivity.
Qed.

(** ** Saving, then loading *)

Lemma section_lookup_assoc (parse : string -> option (list Z))
    (f : list Z -> string) (l : list (list Z * vec)) (key : list Z) :
  NoDup l.*1 ->
  (forall k v, (k, v) ∈ l -> parse (f k) = Some k) ->
  section_lookup parse
    (map (fun kv : list Z * vec => (f kv.1, elems kv.2)) l) key
  = elems <$> (list_to_map l : gmap (list Z) vec) !! key.
Proof.
  induction l as [|[k0 v0] l IH]; intros Hnd Hp; [reflexivity|].
  apply NoDup_cons in Hnd as [Hnot Hnd]. simpl.
  rewrite IH by (auto; intros k v Hin; apply (Hp k v); right; exact Hin).
  rewrite (Hp k0 v0) by left.
  destruct (decide (k0 = key)) as [->|Hne].
  - rewrite lookup_insert_eq.
    rewrite (not_elem_of_list_to_map_1 _ _ Hnot). simpl.
    rewrite bool_decide_eq_true_2 by reflexivity. reflexivity.
  - rewrite lookup_insert_ne by exact Hne.
    destruct (list_to_map l !! key); simpl; [reflexivity|].
    rewrite bool_decide_eq_false_2 by congruence. reflexivity.
Qed.

Lemma section_lookup_section_of (parse : string -> option (list Z))
    (t : table_name) (a : BaseAlgorithm) (key : list Z) :
  (forall k v, get_table t a !! k = Some v ->
     parse (str_key t a k) = Some k) ->
  section_lookup parse (section_of t a) key = elems <$> get_table t a !! key.
Proof.
  intros Hp. unfold section_of.
  rewrite (section_lookup_assoc parse (str_key t a)).
  - rewrite list_to_map_to_list. reflexivity.
  - apply NoDup_fst_map_to_list.
  - intros k v Hin. apply elem_of_map_to_list in Hin. exact (Hp k v Hin).
Qed.

(** Loading the section written for table [t] of [a] into table [t'] of
    [b]. *)
Lemma load_section_of (parse : string -> option (list Z))
    (t t' : table_name) (a b : BaseAlgorithm) :
  (forall k v, get_table t a !! k = Some v ->
     parse (str_key t a k) = Some k) ->
  exists b',
    load_rows parse t' (section_of t a) b = (Returns tt, b') /\
    same_frame b b' /\
    (forall t'', t'' <> t' -> get_table t'' b' = get_table t'' b) /\
    forall key,
      get_table t' b' !! key
      = match get_table t a !! key with
        | Some v => Some (PyList (elems v))
        | None => get_table t' b !! key
        end.
Proof.
  intros Hp.
  destruct (load_rows_total parse t' (section_of t a) b) as [b' Hrun].
  { unfold section_of. apply Forall_forall. intros [s xs] Hin.
    apply list_elem_of_fmap in Hin as ([k v] & [= -> ->] & Hin).
    apply elem_of_map_to_list in Hin. simpl.
    rewrite (Hp k v Hin). eexists. reflexivity. }
  exists b'. split; [exact Hrun|].
  apply load_rows_returns in Hrun as (Hf & Ho & Hm).
  split; [exact Hf|]. split; [exact Ho|].
  intros key. rewrite (Hm eq_refl key). unfold merged.
  rewrite (section_lookup_section_of parse t a key Hp).
  destruct (get_table t a !! key); reflexivity.
Qed.

Lemma keys_parse_strip t a :
  (forall k, is_Some (get_table t a !! k) -> key_ok k) ->
  forall k v, get_table t a !! k = Some v ->
    parse_state_strip (str_key t a k) = Some k.
Proof.
  intros H k v Hk. apply parse_state_strip_str_tuple. apply H. eauto.
Qed.

Lemma keys_parse_replace t a :
  (forall k, is_Some (get_table t a !! k) -> key_ok k) ->
  forall k v, get_table t a !! k = Some v ->
    parse_state_replace (str_key t a k) = Some k.
Proof.
  intros H k v Hk. apply parse_state_replace_str_tuple. apply H. eauto.
Qed.

Lemma load_saved_double a fresh :
  control_type fresh = DOUBLE_Q_LEARNING ->
  (forall k, is_Some (qa_values a !! k) -> key_ok k) ->
  (forall k, is_Some (qb_values a !! k) -> key_ok k) ->
  exists tbl b,
    load_q_value
      {| ck_q_values := None; ck_n_values := None;
         ck_qa_values := Some (section_of Qa_values a);
         ck_qb_values := Some (section_of Qb_values a) |} fresh
      = (Returns tbl, b) /\
    (forall key, qa_values b !! key
       = match qa_values a !! key with
         | Some v => Some (PyList (elems v))
         | None => qa_values fresh !! key
         end) /\
    (forall key, qb_values b !! key
       = match qb_values a !! key with
         | Some v => Some (PyList (elems v))
         | None => qb_values fresh !! key
         end).
Proof.
  intros Hct Ha Hb.
  destruct (load_section_of parse_state_strip Qa_values Qa_values a fresh
              (keys_parse_strip Qa_values a Ha)) as (b1 & H1 & _ & Ho1 & Hm1).
  destruct (load_section_of parse_state_strip Qb_values Qb_values a b1
              (keys_parse_strip Qb_values a Hb)) as (b2 & H2 & _ & Ho2 & Hm2).
  exists (qa_values b2), b2. split; [|split].
  - unfold load_q_value, bind, gets, lift, ret. rewrite Hct.
    change (ControlType_eqb DOUBLE_Q_LEARNING DOUBLE_Q_LEARNING) with true.
    cbv beta iota. cbn [ck_qa_values ck_qb_values]. cbv beta iota.
    rewrite H1, H2. reflexivity.
  - intros key.
    change (qa_values b2) with (get_table Qa_values b2).
    rewrite (Ho2 Qa_values) by discriminate. apply Hm1.
  - intros key. change (qb_values b2) with (get_table Qb_values b2).
    rewrite (Hm2 key).
    rewrite (Ho1 Qb_values) by discriminate. reflexivity.
Qed.

Lemma load_saved_single a fresh :
  control_type fresh <> DOUBLE_Q_LEARNING ->
  (forall k, is_Some (q_values a !! k) -> key_ok k) ->
  (control_type fresh = MONTE_CARLO ->
   forall k, is_Some (n_values a !! k) -> key_ok k) ->
  exists tbl b,
    load_q_value
      {| ck_q_values := Some (section_of Q_values a);
         ck_n_values :=
           if ControlType_eqb (control_type fresh) MONTE_CARLO
           then Some (section_of N_values a) else None;
         ck_qa_values := None; ck_qb_values := None |} fresh
      = (Returns tbl, b) /\
    (forall key, q_values b !! key
       = match q_values a !! key with
         | Some v => Some (PyList (elems v))
         | None => q_values fresh !! key
         end) /\
    (control_type fresh = MONTE_CARLO ->
     forall key, n_values b !! key
       = match n_values a !! key with
         | Some v => Some (PyList (elems v))
         | None => n_values fresh !! key
         end).
Proof.
  intros Hct Hq Hn.
  destruct (load_section_of parse_state_replace Q_values Q_values a fresh
              (keys_parse_replace Q_values a Hq))
    as (b1 & H1 & Hf1 & Ho1 & Hm1).
  assert (E : ControlType_eqb (control_type fresh) DOUBLE_Q_LEARNING = false)
    by (destruct (control_type fresh); try reflexivity; congruence).
  destruct (ControlType_eqb (control_type fresh) MONTE_CARLO) eqn:Emc.
  - apply ControlType_eqb_eq in Emc.
    destruct (load_section_of parse_state_replace N_values N_values a b1
                (keys_parse_replace N_values a (Hn Emc)))
      as (b2 & H2 & _ & Ho2 & Hm2).
    exists (q_values b2), b2. split; [|split].
    + unfold load_q_value, bind, gets, lift, ret. rewrite E. cbv beta iota.
      cbn [ck_q_values]. cbv beta iota.
      rewrite load_q_rows_single by exact Hct. rewrite H1.
      rewrite Emc. change (ControlType_eqb MONTE_CARLO MONTE_CARLO) with true.
      cbv beta iota. cbn [ck_n_values]. cbv beta iota. rewrite H2.
      reflexivity.
    + intros key. change (q_values b2) with (get_table Q_values b2).
      rewrite (Ho2 Q_values) by discriminate. apply Hm1.
    + intros _ key. change (n_values b2) with (get_table N_values b2).
      rewrite (Hm2 key).
      rewrite (Ho1 N_values) by discriminate. reflexivity.
  - exists (q_values b1), b1. split; [|split].
    + unfold load_q_value, bind, gets, lift, ret. rewrite E. cbv beta iota.
      cbn [ck_q_values]. cbv beta iota.
      rewrite load_q_rows_single by exact Hct. rewrite H1.
      assert (Emc' : ControlType_eqb (control_type fresh) MONTE_CARLO = false).
      { destruct (control_type fresh); try reflexivity; discriminate. }
      rewrite Emc'. reflexivity.
    + exact Hm1.
    + intros Hmc. rewrite Hmc in Emc. discriminate.
Qed.

(** C4.  Let the keys of the tables that [save_q_value] writes be tuples of
    at least two integers (four, for the keys of [discretize_state]) that a
    double holds exactly.  Then, first, an object whose rows are arrays is
    saved without an exception; and second, whenever [save_q_value] returns
    a document, the object is as it was, and loading the document into any
    object of the same control type with empty tables returns and leaves,
    in each saved table, exactly the saved keys, each with the list of
    values it was saved with. *)
Theorem save_load_roundtrip a :
  (forall t, t ∈ saved_tables (control_type a) ->
     forall k, is_Some (get_table t a !! k) -> key_ok k) ->
  ((forall t, t ∈ saved_tables (control_type a) ->
      forall k v, get_table t a !! k = Some v -> exists xs, v = NdArray xs) ->
   exists file, save_q_value a = (Returns file, a)) /\
  forall file a0,
    save_q_value a = (Returns file, a0) ->
    a0 = a /\
    forall fresh,
      control_type fresh = control_type a ->
      (forall t, get_table t fresh = ∅) ->
      exists tbl b,
        load_q_value file fresh = (Returns tbl, b) /\
        forall t, t ∈ saved_tables (control_type a) ->
          forall k, get_table t b !! k
                    = (fun v => PyList (elems v)) <$> get_table t a !! k.
Proof.
  intros Hkeys. split; [apply save_q_value_arrays|].
  intros file a0 Hsave. apply save_q_value_returns in Hsave as [-> ->].
  split; [reflexivity|]. intros fresh Hct Hempty.
  assert (Hfill : forall (t : table_name) (tbl : gmap (list Z) vec) key,
            match tbl !! key with
            | Some v => Some (PyList (elems v))
            | None => get_table t fresh !! key
            end = (fun v => PyList (elems v)) <$> tbl !! key).
  { intros t tbl key. rewrite Hempty, lookup_empty.
    destruct (tbl !! key); reflexivity. }
  destruct (control_type a) eqn:Ea; cbn [saved_tables] in *.
  - destruct (load_saved_single a fresh)
      as (tbl & b & Hload & Hq & Hn).
    + congruence.
    + apply (Hkeys Q_values). left.
    + intros _. apply (Hkeys N_values). right. left.
    + rewrite Hct in Hload. exists tbl, b. split; [exact Hload|].
      intros t Ht k.
      apply elem_of_cons in Ht as [->|Ht];
        [|apply elem_of_cons in Ht as [->|Ht];
          [|apply elem_of_nil in Ht; contradiction]].
      * rewrite <- (Hfill Q_values). apply Hq.
      * rewrite <- (Hfill N_values). apply (Hn Hct).
  - destruct (load_saved_single a fresh)
      as (tbl & b & Hload & Hq & _).
    + congruence.
    + apply (Hkeys Q_values). left.
    + intros H. congruence.
    + rewrite Hct in Hload. exists tbl, b. split; [exact Hload|].
      intros t Ht k.
      apply elem_of_cons in Ht as [->|Ht];
        [|apply elem_of_nil in Ht; contradiction].
      rewrite <- (Hfill Q_values). apply Hq.
  - destruct (load_saved_single a fresh)
      as (tbl & b & Hload & Hq & _).
    + congruence.
    + apply (Hkeys Q_values). left.
    + intros H. congruence.
    + rewrite Hct in Hload. exists tbl, b. split; [exact Hload|].
      intros t Ht k.
      apply elem_of_cons in Ht as [->|Ht];
        [|apply elem_of_nil in Ht; contradiction].
      rewrite <- (Hfill Q_values). apply Hq.
  - destruct (load_saved_double a fresh)
      as (tbl & b & Hload & Hqa & Hqb).
    + exact Hct.
    + apply (Hkeys Qa_values). left.
    + apply (Hkeys Qb_values). right. left.
    + exists tbl, b. split; [exact Hload|].
      intros t Ht k.
      apply elem_of_cons in Ht as [->|Ht];
        [|apply elem_of_cons in Ht as [->|Ht];
          [|apply elem_of_nil in Ht; contradiction]].
      * rewrite <- (Hfill Qa_values). apply Hqa.
      * rewrite <- (Hfill Qb_values). apply Hqb.
Qed.

Lemma Forall_map_to_list (P : list Z -> vec -> Prop) (t : gmap (list Z) vec) :
  Forall (fun kv : list Z * vec => P kv.1 kv.2) (map_to_list t) ->
  forall k v, t !! k = Some v -> P k v.
Proof.
  intros H k v Hk. apply elem_of_map_to_list in Hk.
  exact (proj1 (Forall_forall _ _) H (k, v) Hk).
Qed.

Lemma key_ok_check k :
  (2 <=? length k)%nat && forallb (fun z => (Z.abs z <? 2 ^ 53)%Z) k = true ->
  key_ok k.
Proof.
  intros H. apply andb_true_iff in H as [Hlen Hall]. split.
  - apply Nat.leb_le. exact Hlen.
  - apply Forall_forall. intros z Hz.
    rewrite forallb_forall in Hall. apply Z.ltb_lt. apply Hall.
    apply list_elem_of_In. exact Hz.
Qed.

Lemma Forall_check {A} (P : A -> Prop) (f : A -> bool) (l : list A) :
  (forall x, f x = true -> P x) -> forallb f l = true -> Forall P l.
Proof.
  intros Hf Hall. apply Forall_forall. intros x Hx.
  rewrite forallb_forall in Hall. apply Hf, Hall.
  apply list_elem_of_In. exact Hx.
Qed.

Lemma save_load_roundtrip_witness :
  exists file,
    save_q_value dq_trained = (Returns file, dq_trained) /\
    exists tbl b,
      load_q_value file dq0 = (Returns tbl, b) /\
      forall t, t ∈ saved_tables (control_type dq_trained) ->
        forall k, get_table t b !! k
                  = (fun v => PyList (elems v)) <$> get_table t dq_trained !! k.
Proof.
  assert (Hct : control_type dq_trained = DOUBLE_Q_LEARNING)
    by (vm_compute; reflexivity).
  assert (Hkeys : forall t, t ∈ saved_tables (control_type dq_trained) ->
            forall k, is_Some (get_table t dq_trained !! k) -> key_ok k).
  { intros t Ht k [v Hv]. revert k v Hv.
    apply (Forall_map_to_list (fun k _ => key_ok k)).
    apply (Forall_check _
             (fun kv : list Z * vec =>
                (2 <=? length kv.1)%nat
                && forallb (fun z => (Z.abs z <? 2 ^ 53)%Z) kv.1));
      [intros kv; apply key_ok_check|].
    rewrite Hct in Ht. cbn [saved_tables] in Ht.
    apply elem_of_cons in Ht as [->|Ht];
      [|apply elem_of_cons in Ht as [->|Ht];
        [|apply elem_of_nil in Ht; contradiction]];
      vm_compute; reflexivity. }
  assert (Harr : forall t, t ∈ saved_tables (control_type dq_trained) ->
            forall k v, get_table t dq_trained !! k = Some v ->
                        exists xs, v = NdArray xs).
  { intros t Ht.
    apply (Forall_map_to_list (fun _ v => exists xs, v = NdArray xs)).
    apply (Forall_check _
             (fun kv : list Z * vec =>
                match kv.2 with NdArray _ => true | PyList _ => false end)).
    { intros [k [xs|xs]]; simpl; [eauto | discriminate]. }
    rewrite Hct in Ht. cbn [saved_tables] in Ht.
    apply elem_of_cons in Ht as [->|Ht];
      [|apply elem_of_cons in Ht as [->|Ht];
        [|apply elem_of_nil in Ht; contradiction]];
      vm_compute; reflexivity. }
  destruct (save_load_roundtrip dq_trained Hkeys) as [Htotal Hround].
  destruct (Htotal Harr) as [file Hsave].
  exists file. split; [exact Hsave|].
  destruct (Hround file dq_trained Hsave) as [_ Hload].
  apply (Hload dq0); [vm_compute; reflexivity|].
  intros []; reflexivity.
Defined.

(** ** Saving after loading *)

(** Rows stored by [load_q_value] are lists.  A Double Q-Learning object
    that has loaded its own file cannot be saved again: [tolist] is called
    on a list and nothing catches the exception. *)
Example save_loaded_double_raises :
  match (save_q_value dq_trained).1 with
  | Returns file =>
      (save_q_value (load_q_value file dq0).2).1 = Raises AttributeError
  | Raises _ => False
  end.
Proof. vm_compute. reflexivity. Qed.

(** A Q-Learning object that has learnt rows and then loads a file holds
    arrays and lists side by side; the document then cannot be written. *)
Example save_mixed_rows_raises :
  let r := load_q_value q_document q_trained in
  r.1 = Returns (q_values r.2) /\
  (save_q_value r.2).1 = Raises TypeError.
Proof. split; vm_compute; reflexivity. Qed.

(** Keys stored by [load_q_value] are tuples of floats: loaded into an
    object with empty tables and saved again, they are written with a
    decimal point, and this text is read back to the same keys. *)
Example save_loaded_keys_text :
  let a := (load_q_value q_document (set_q_values q_trained ∅)).2 in
  (save_q_value a).1
  = Returns {| ck_q_values := Some [("(2.0, 2.0, 2.0, 2.0)", [7; 8]);
                                    ("(4.0, 4.0, 4.0, 4.0)", [9; 10])];
               ck_n_values := None; ck_qa_values := None;
               ck_qb_values := None |} /\
  parse_state_replace "(2.0, 2.0, 2.0, 2.0)" = Some tie_key.
Proof. split; vm_compute; reflexivity. Qed.

(** * Further properties *)

(** ** Selection *)

Lemma randint_returns d n a :
  (0 < n)%nat ->
  np_random_randint d n a = (Returns (Z.of_nat (randint d mod n)), a).
Proof. destruct n; [lia|]. reflexivity. Qed.

Lemma np_argmax_is_Some xs : xs <> [] -> exists i, np_argmax xs = Some i.
Proof. destruct xs; [congruence|]. eexists. reflexivity. Qed.

Lemma np_argmax_lt xs i : np_argmax xs = Some i -> (i < length xs)%nat.
Proof.
  intros H. destruct (np_argmax_spec _ _ H) as (v & Hv & _).
  eapply lookup_lt_Some. exact Hv.
Qed.

Lemma Qltb_false_not x y : ~ x < y -> Qltb x y = false.
Proof. intros H. apply Qltb_ge. apply Qnot_lt_le. exact H. Qed.

(** The greedy branch away from Double Q-Learning. *)
Lemma select_greedy_run a d key i :
  control_type a <> DOUBLE_Q_LEARNING ->
  Qltb (rand d) (epsilon a) = false ->
  np_argmax (elems (row_or_default Q_values key a)) = Some i ->
  get_discretize_action d key a
  = (Returns (Z.of_nat i), materialise Q_values key a).
Proof.
  intros Hct Hq Hi. unfold get_discretize_action, bind, gets.
  assert (E : ControlType_eqb (control_type a) DOUBLE_Q_LEARNING = false)
    by (destruct (control_type a); try reflexivity; congruence).
  rewrite E, Hq. cbv beta iota. rewrite dd_getitem_eq, Hi. reflexivity.
Qed.

(** The greedy branch of Double Q-Learning. *)
Lemma select_double_run a d key i1 i2 v1 v2 :
  control_type a = DOUBLE_Q_LEARNING ->
  Qltb (rand d) (epsilon a) = false ->
  np_argmax (elems (row_or_default Qa_values key a)) = Some i1 ->
  np_argmax (elems (row_or_default Qb_values key a)) = Some i2 ->
  elems (row_or_default Qa_values key a) !! i1 = Some v1 ->
  elems (row_or_default Qb_values key a) !! i2 = Some v2 ->
  get_discretize_action d key a
  = (Returns (Z.of_nat (if Qle_bool v2 v1 then i1 else i2)),
     materialise Qb_values key (materialise Qa_values key a)).
Proof.
  intros Hct Hq H1 H2 Hv1 Hv2. unfold get_discretize_action, bind, gets.
  rewrite Hct.
  change (ControlType_eqb DOUBLE_Q_LEARNING DOUBLE_Q_LEARNING) with true.
  cbv iota. rewrite Hq. cbv beta. rewrite dd_getitem_eq, dd_getitem_eq.
  rewrite row_or_default_materialise_other by discriminate.
  rewrite H1, H2. unfold lift, ret, row_getitem.
  rewrite (vec_get_nat _ _ _ Hv1), (vec_get_nat _ _ _ Hv2).
  reflexivity.
Qed.

Lemma double_or_single ct :
  ct = DOUBLE_Q_LEARNING \/ ct <> DOUBLE_Q_LEARNING.
Proof. destruct ct; (left; reflexivity) || (right; discriminate). Qed.

Lemma selection_rows_length a key t :
  (forall t, t ∈ selection_tables (control_type a) -> rows_sized t a) ->
  t ∈ selection_tables (control_type a) ->
  length (elems (row_or_default t key a)) = num_of_action a.
Proof. intros H Ht. apply row_or_default_length. apply H. exact Ht. Qed.

Lemma nonempty_length (xs : list Q) : (0 < length xs)%nat -> xs <> [].
Proof. destruct xs; simpl; [lia | congruence]. Qed.

Lemma select_explore_run a d key :
  Qltb (rand d) (epsilon a) = true ->
  get_discretize_action d key a = np_random_randint d (num_of_action a) a.
Proof.
  intros Hq. unfold get_discretize_action, bind, gets. rewrite Hq.
  destruct (ControlType_eqb (control_type a) DOUBLE_Q_LEARNING); reflexivity.
Qed.

Lemma select_index_in_range_aux a d key :
  (forall t, t ∈ selection_tables (control_type a) -> rows_sized t a) ->
  (0 < num_of_action a)%nat ->
  exists i a',
    get_discretize_action d key a = (Returns i, a') /\
    (0 <= i < Z.of_nat (num_of_action a))%Z.
Proof.
  intros Hrows Hn.
  destruct (Qltb (rand d) (epsilon a)) eqn:Hq.
  - rewrite select_explore_run by exact Hq.
    rewrite randint_returns by exact Hn.
    eexists. eexists. split; [reflexivity|].
    pose proof (Nat.mod_upper_bound (randint d) (num_of_action a)
                  ltac:(lia)). lia.
  - destruct (double_or_single (control_type a)) as [Hct|Hct].
    + assert (La : length (elems (row_or_default Qa_values key a))
                   = num_of_action a).
      { apply selection_rows_length; [exact Hrows|]. rewrite Hct. left. }
      assert (Lb : length (elems (row_or_default Qb_values key a))
                   = num_of_action a).
      { apply selection_rows_length; [exact Hrows|]. rewrite Hct.
        right. left. }
      destruct (np_argmax_is_Some (elems (row_or_default Qa_values key a)))
        as [i1 H1]; [apply nonempty_length; lia|].
      destruct (np_argmax_is_Some (elems (row_or_default Qb_values key a)))
        as [i2 H2]; [apply nonempty_length; lia|].
      destruct (np_argmax_spec _ _ H1) as (v1 & Hv1 & _).
      destruct (np_argmax_spec _ _ H2) as (v2 & Hv2 & _).
      rewrite (select_double_run a d key i1 i2 v1 v2) by assumption.
      eexists. eexists. split; [reflexivity|].
      apply np_argmax_lt in H1. apply np_argmax_lt in H2.
      destruct (Qle_bool v2 v1); lia.
    + assert (Lq : length (elems (row_or_default Q_values key a))
                   = num_of_action a).
      { apply selection_rows_length; [exact Hrows|].
        destruct (control_type a); try congruence; left. }
      destruct (np_argmax_is_Some (elems (row_or_default Q_values key a)))
        as [i Hi]; [apply nonempty_length; lia|].
      rewrite (select_greedy_run a d key i) by assumption.
      eexists. eexists. split; [reflexivity|].
      apply np_argmax_lt in Hi. lia.
Qed.

(** X1.  With at least one action and rows of [num_of_action] cells in the
    tables the selection reads, [get_discretize_action] returns, whatever
    the draws are, and its answer is an index from 0 to
    [num_of_action - 1].  With no action at all it raises [ValueError]
    ([np.random.randint(0)] when exploring, [np.argmax] of an empty row
    otherwise). *)
Theorem select_index_in_range a d key :
  (forall t, t ∈ selection_tables (control_type a) -> rows_sized t a) ->
  ((0 < num_of_action a)%nat ->
   exists i a',
     get_discretize_action d key a = (Returns i, a') /\
     (0 <= i < Z.of_nat (num_of_action a))%Z) /\
  (num_of_action a = 0%nat ->
   (get_discretize_action d key a).1 = Raises ValueError).
Proof.
  intros Hrows. split; [apply select_index_in_range_aux; exact Hrows|].
  intros Hn.
  destruct (Qltb (rand d) (epsilon a)) eqn:Hq.
  - rewrite select_explore_run by exact Hq. rewrite Hn. reflexivity.
  - unfold get_discretize_action, bind, gets. rewrite Hq.
    destruct (double_or_single (control_type a)) as [Hct|Hct].
    + assert (La : length (elems (row_or_default Qa_values key a))
                   = num_of_action a).
      { apply selection_rows_length; [exact Hrows|]. rewrite Hct. left. }
      rewrite Hn in La. rewrite Hct.
      change (ControlType_eqb DOUBLE_Q_LEARNING DOUBLE_Q_LEARNING) with true.
      cbv beta iota. rewrite dd_getitem_eq, dd_getitem_eq.
      apply nil_length_inv in La. rewrite La. reflexivity.
    + assert (Lq : length (elems (row_or_default Q_values key a))
                   = num_of_action a).
      { apply selection_rows_length; [exact Hrows|].
        destruct (control_type a); try congruence; left. }
      rewrite Hn in Lq.
      assert (E : ControlType_eqb (control_type a) DOUBLE_Q_LEARNING = false)
        by (destruct (control_type a); try reflexivity; congruence).
      rewrite E. cbv beta iota. rewrite dd_getitem_eq.
      apply nil_length_inv in Lq. rewrite Lq. reflexivity.
Qed.

Lemma rows_sized_check_ok t a : rows_sized_check t a = true -> rows_sized t a.
Proof.
  intros H s row.
  apply (Forall_map_to_list
           (fun _ row => length (elems row) = num_of_action a)).
  apply (Forall_check _
           (fun kv : list Z * vec =>
              Nat.eqb (length (elems kv.2)) (num_of_action a)));
    [|exact H].
  intros kv E. apply Nat.eqb_eq in E. exact E.
Qed.

Lemma select_index_in_range_witness :
  exists i a',
    get_discretize_action exploit_draw tie_key dq_tie = (Returns i, a') /\
    (0 <= i < Z.of_nat (num_of_action dq_tie))%Z.
Proof.
  assert (Hct : control_type dq_tie = DOUBLE_Q_LEARNING)
    by (vm_compute; reflexivity).
  refine (proj1 (select_index_in_range dq_tie exploit_draw tie_key _) _).
  - intros t Ht. rewrite Hct in Ht. cbn [selection_tables] in Ht.
    apply rows_sized_check_ok.
    apply elem_of_cons in Ht as [->|Ht];
      [|apply elem_of_cons in Ht as [->|Ht];
        [|apply elem_of_nil in Ht; contradiction]];
      vm_compute; reflexivity.
  - vm_compute. lia.
Defined.

(** The object a selection leaves, whatever its outcome. *)
Lemma select_state a d key :
  (get_discretize_action d key a).2
  = if Qltb (rand d) (epsilon a) then a
    else if ControlType_eqb (control_type a) DOUBLE_Q_LEARNING
         then materialise Qb_values key (materialise Qa_values key a)
         else materialise Q_values key a.
Proof.
  unfold get_discretize_action, bind, gets.
  destruct (Qltb (rand d) (epsilon a)).
  - assert (E : (np_random_randint d (num_of_action a) a).2 = a)
      by (destruct (num_of_action a); reflexivity).
    destruct (ControlType_eqb (control_type a) DOUBLE_Q_LEARNING); exact E.
  - destruct (ControlType_eqb (control_type a) DOUBLE_Q_LEARNING).
    + rewrite dd_getitem_eq, dd_getitem_eq.
      destruct (np_argmax (elems (row_or_default Qa_values key a)));
        [|reflexivity].
      destruct (np_argmax _); [|reflexivity].
      unfold lift, ret, row_getitem, lift.
      destruct (vec_get (row_or_default Qa_values key a) _); [|reflexivity].
      destruct (vec_get _ _); reflexivity.
    + rewrite dd_getitem_eq.
      destruct (np_argmax _); reflexivity.
Qed.

Lemma same_frame_materialise t key a : same_frame a (materialise t key a).
Proof.
  unfold materialise. destruct (get_table t a !! key).
  - apply same_frame_refl.
  - apply same_frame_store.
Qed.

(** Reading a missing key changes no answer of any table. *)
Lemma materialise_lookup_cases t key a t' k :
  get_table t' (materialise t key a) !! k = get_table t' a !! k \/
  (t' = t /\ k = key /\ get_table t a !! key = None /\
   get_table t' (materialise t key a) !! k = Some (zero_row a)).
Proof.
  destruct (decide (t' = t)) as [->|Ht].
  - destruct (decide (k = key)) as [->|Hk].
    + rewrite materialise_lookup. unfold row_or_default.
      destruct (get_table t a !! key) eqn:E; [left; reflexivity|].
      right. repeat split.
    + left. apply materialise_lookup_ne. congruence.
  - left. rewrite materialise_other by congruence. reflexivity.
Qed.

Lemma row_or_default_materialise t key a t' k :
  row_or_default t' k (materialise t key a) = row_or_default t' k a.
Proof.
  unfold row_or_default.
  destruct (materialise_config t key a) as (_ & _ & _ & _ & -> & _).
  destruct (materialise_lookup_cases t key a t' k) as [->|(-> & -> & E & ->)];
    [reflexivity|].
  rewrite E. reflexivity.
Qed.

Lemma cell_materialise t key a t' k i :
  cell t' k i (materialise t key a) = cell t' k i a.
Proof. unfold cell. rewrite row_or_default_materialise. reflexivity. Qed.

(** X2.  Away from Double Q-Learning, when the draw is not below epsilon
    and the row of the state is not empty, the answer is the index of the
    first largest value of [q_values[state]]: no value of the row is
    larger, and every value before it is strictly smaller.  The row has
    been read, so a state without a row has one afterwards. *)
Theorem select_greedy_first_maximum a d key :
  control_type a <> DOUBLE_Q_LEARNING ->
  ~ rand d < epsilon a ->
  elems (row_or_default Q_values key a) <> [] ->
  exists i v,
    get_discretize_action d key a
    = (Returns (Z.of_nat i), materialise Q_values key a) /\
    elems (row_or_default Q_values key a) !! i = Some v /\
    (forall j w, elems (row_or_default Q_values key a) !! j = Some w ->
                 w <= v) /\
    (forall j w, (j < i)%nat ->
                 elems (row_or_default Q_values key a) !! j = Some w ->
                 w < v).
Proof.
  intros Hct Hdraw Hrow.
  destruct (np_argmax_is_Some _ Hrow) as [i Hi].
  destruct (np_argmax_spec _ _ Hi) as (v & Hv & Hmax & Hfirst).
  exists i, v. split; [|auto].
  apply select_greedy_run; [exact Hct | apply Qltb_false_not; exact Hdraw
                           | exact Hi].
Qed.

Lemma select_greedy_first_maximum_witness :
  exists i v,
    get_discretize_action exploit_draw tie_key
      (set_epsilon q_trained 0.25)
    = (Returns (Z.of_nat i),
       materialise Q_values tie_key (set_epsilon q_trained 0.25)) /\
    elems (row_or_default Q_values tie_key (set_epsilon q_trained 0.25)) !! i
    = Some v /\
    (forall j w,
       elems (row_or_default Q_values tie_key (set_epsilon q_trained 0.25))
         !! j = Some w -> w <= v) /\
    (forall j w, (j < i)%nat ->
       elems (row_or_default Q_values tie_key (set_epsilon q_trained 0.25))
         !! j = Some w -> w < v).
Proof.
  apply (select_greedy_first_maximum (set_epsilon q_trained 0.25)
           exploit_draw tie_key).
  - vm_compute. discriminate.
  - vm_compute. discriminate.
  - vm_compute. discriminate.
Defined.

(** X3.  Whatever its outcome, a selection leaves the configuration, the
    histories and the toggle as they were, keeps every row that a table
    holds, and adds at most the zero row for the state it was asked about,
    to the tables it reads and only when it does not explore.  So no table
    answers differently afterwards. *)
Theorem select_adds_zero_rows_only a d key :
  let a' := (get_discretize_action d key a).2 in
  same_frame a a' /\
  (forall t k,
     get_table t a' !! k = get_table t a !! k \/
     (k = key /\ t ∈ selection_tables (control_type a) /\
      ~ rand d < epsilon a /\
      get_table t a !! k = None /\
      get_table t a' !! k = Some (zero_row a))) /\
  (forall t k i, cell t k i a' = cell t k i a).
Proof.
  cbv zeta. rewrite select_state.
  destruct (Qltb (rand d) (epsilon a)) eqn:Hq.
  - split; [apply same_frame_refl|]. split; [left|]; reflexivity.
  - assert (Hdraw : ~ rand d < epsilon a).
    { apply Qltb_ge in Hq. lra. }
    destruct (double_or_single (control_type a)) as [Hct|Hct].
    + rewrite Hct.
      change (ControlType_eqb DOUBLE_Q_LEARNING DOUBLE_Q_LEARNING) with true.
      cbv iota. split; [|split].
      * eapply same_frame_trans; apply same_frame_materialise.
      * intros t k.
        destruct (materialise_lookup_cases Qb_values key
                    (materialise Qa_values key a) t k)
          as [E|(-> & -> & E & E')].
        -- rewrite E.
           destruct (materialise_lookup_cases Qa_values key a t k)
             as [E1|(-> & -> & E1 & E1')]; [left; exact E1|].
           right. split; [reflexivity|]. split; [left|].
           split; [exact Hdraw|]. split; [exact E1 | exact E1'].
        -- right. split; [reflexivity|]. split; [right; left|].
           split; [exact Hdraw|].
           rewrite materialise_other in E by discriminate.
           split; [exact E|]. rewrite E'. unfold zero_row.
           destruct (materialise_config Qa_values key a)
             as (_ & _ & _ & _ & -> & _). reflexivity.
      * intros t k i. rewrite !cell_materialise. reflexivity.
    + assert (E : ControlType_eqb (control_type a) DOUBLE_Q_LEARNING = false)
        by (destruct (control_type a); try reflexivity; congruence).
      rewrite E. split; [|split].
      * apply same_frame_materialise.
      * intros t k.
        destruct (materialise_lookup_cases Q_values key a t k)
          as [E1|(-> & -> & E1 & E1')]; [left; exact E1|].
        right. split; [reflexivity|]. split.
        { destruct (control_type a); try congruence; left. }
        split; [exact Hdraw|]. split; [exact E1 | exact E1'].
      * intros t k i. apply cell_materialise.
Qed.

(** ** The action of a step *)

Lemma select_frame a d key : same_frame a (get_discretize_action d key a).2.
Proof.
  rewrite select_state.
  destruct (Qltb (rand d) (epsilon a)); [apply same_frame_refl|].
  destruct (ControlType_eqb (control_type a) DOUBLE_Q_LEARNING).
  - eapply same_frame_trans; apply same_frame_materialise.
  - apply same_frame_materialise.
Qed.

Lemma mapping_action_same_frame a a' i :
  same_frame a a' -> mapping_action a' i = mapping_action a i.
Proof.
  intros (_ & _ & _ & _ & _ & _ & Hn & Hr & _).
  unfold mapping_action. rewrite Hn, Hr. reflexivity.
Qed.

Lemma get_action_run a d obs i a' :
  get_discretize_action d (discretize_state a obs) a = (Returns i, a') ->
  get_action d obs a = (Returns (mapping_action a i, i), a').
Proof.
  intros H. unfold get_action, bind, gets. cbv beta iota. rewrite H.
  unfold ret.
  pose proof (select_frame a d (discretize_state a obs)) as Hf.
  rewrite H in Hf. simpl in Hf.
  rewrite (mapping_action_same_frame a a' i Hf). reflexivity.
Qed.


Lemma inject_Z_le_iff (x y : Z) : inject_Z x <= inject_Z y <-> (x <= y)%Z.
Proof. rewrite Zle_Qle. reflexivity. Qed.




Lemma argmax_from_zeros k : forall i, argmax_from 0 0 i (repeat 0 k) = O.
Proof.
  induction k as [|k IH]; intros i; [reflexivity|].
  simpl. change (Qltb 0 0) with false. cbv iota. apply IH.
Qed.

Lemma np_argmax_zeros n : (0 < n)%nat -> np_argmax (repeat 0 n) = Some O.
Proof.
  destruct n as [|k]; [lia|]. intros _. simpl. f_equal.
  apply argmax_from_zeros.
Qed.

Lemma row_or_default_missing t key a :
  get_table t a !! key = None -> row_or_default t key a = zero_row a.
Proof. intros H. unfold row_or_default. rewrite H. reflexivity. Qed.

Lemma mapping_action_zero a : mapping_action a 0 == (action_range a).1.
Proof.
  unfold mapping_action. destruct (action_range a) as [lo hi]. simpl.
  destruct (Nat.eqb (num_of_action a) 1); [reflexivity|].
  change (inject_Z 0) with 0. unfold Qdiv.
  rewrite !Qmult_0_l. apply Qplus_0_r.
Qed.

(** X5.  For a state that the tables of the selection do not hold yet, a
    step that does not explore answers index 0, hence the lower end of
    the action range, and leaves the zero row for that state in each of
    these tables. *)
Theorem get_action_unseen_state a d obs :
  (0 < num_of_action a)%nat ->
  ~ rand d < epsilon a ->
  (forall t, t ∈ selection_tables (control_type a) ->
     get_table t a !! discretize_state a obs = None) ->
  exists x a',
    get_action d obs a = (Returns (x, 0%Z), a') /\
    x == (action_range a).1 /\
    forall t, t ∈ selection_tables (control_type a) ->
      get_table t a' !! discretize_state a obs = Some (zero_row a).
Proof.
  intros Hn Hdraw Hnew.
  set (key := discretize_state a obs) in *.
  apply Qltb_false_not in Hdraw.
  assert (Hsel : exists a', get_discretize_action d key a = (Returns 0%Z, a')).
  { destruct (double_or_single (control_type a)) as [Hct|Hct].
    - assert (Ra : row_or_default Qa_values key a = zero_row a).
      { apply row_or_default_missing, Hnew. rewrite Hct. left. }
      assert (Rb : row_or_default Qb_values key a = zero_row a).
      { apply row_or_default_missing, Hnew. rewrite Hct. right. left. }
      assert (Hz : elems (zero_row a) !! 0%nat = Some 0).
      { unfold zero_row. simpl. destruct (num_of_action a); [lia|].
        reflexivity. }
      eexists.
      rewrite (select_double_run a d key 0 0 0 0); try assumption;
        rewrite ?Ra, ?Rb; try exact Hz;
        try (apply np_argmax_zeros; exact Hn).
      reflexivity.
    - eexists. apply (select_greedy_run a d key 0); [exact Hct | exact Hdraw|].
      rewrite row_or_default_missing.
      + apply np_argmax_zeros. exact Hn.
      + apply Hnew. destruct (control_type a); try congruence; left. }
  destruct Hsel as [a' Hsel].
  exists (mapping_action a 0), a'.
  split; [apply get_action_run; exact Hsel|].
  split; [apply mapping_action_zero|].
  assert (Ea : a' = (get_discretize_action d key a).2) by (rewrite Hsel; reflexivity).
  rewrite select_state, Hdraw in Ea. subst a'.
  intros t Ht.
  destruct (double_or_single (control_type a)) as [Hct|Hct].
  - rewrite Hct in Ht |- *. cbn [selection_tables] in Ht.
    change (ControlType_eqb DOUBLE_Q_LEARNING DOUBLE_Q_LEARNING) with true.
    cbv iota.
    apply elem_of_cons in Ht as [->|Ht];
      [|apply elem_of_cons in Ht as [->|Ht];
        [|apply elem_of_nil in Ht; contradiction]].
    + rewrite materialise_other by discriminate.
      rewrite materialise_lookup. f_equal.
      apply row_or_default_missing, Hnew. rewrite Hct. left.
    + rewrite materialise_lookup.
      rewrite row_or_default_materialise. f_equal.
      apply row_or_default_missing, Hnew. rewrite Hct. right. left.
  - assert (E : ControlType_eqb (control_type a) DOUBLE_Q_LEARNING = false)
      by (destruct (control_type a); try reflexivity; congruence).
    rewrite E.
    assert (t = Q_values) as ->.
    { destruct (control_type a); try congruence;
        cbn [selection_tables] in Ht;
        apply elem_of_cons in Ht as [->|Ht]; try reflexivity;
        apply elem_of_nil in Ht; contradiction. }
    rewrite materialise_lookup. f_equal.
    apply row_or_default_missing, Hnew.
    destruct (control_type a); try congruence; left.
Qed.

Lemma get_action_unseen_state_witness :
  exists x a',
    get_action exploit_draw obs_high dq_tie = (Returns (x, 0%Z), a') /\
    x == (action_range dq_tie).1 /\
    forall t, t ∈ selection_tables (control_type dq_tie) ->
      get_table t a' !! discretize_state dq_tie obs_high
      = Some (zero_row dq_tie).
Proof.
  assert (Hct : control_type dq_tie = DOUBLE_Q_LEARNING)
    by (vm_compute; reflexivity).
  apply (get_action_unseen_state dq_tie exploit_draw obs_high).
  - vm_compute. lia.
  - vm_compute. discriminate.
  - intros t Ht. rewrite Hct in Ht. cbn [selection_tables] in Ht.
    apply elem_of_cons in Ht as [->|Ht];
      [|apply elem_of_cons in Ht as [->|Ht];
        [|apply elem_of_nil in Ht; contradiction]];
      vm_compute; reflexivity.
Defined.

(** ** The order of the continuous actions *)



(** ** Epsilon over many episodes *)

Lemma Qpower_nat_S d (n : nat) :
  d ^ Z.of_nat (S n) == d ^ Z.of_nat n * d.
Proof.
  rewrite Nat2Z.inj_succ. unfold Z.succ.
  rewrite Qpower_plus' by lia. reflexivity.
Qed.

Lemma Qpower_nat_bounds d (n : nat) :
  0 <= d -> d <= 1 -> 0 <= d ^ Z.of_nat n /\ d ^ Z.of_nat n <= 1.
Proof.
  intros H0 H1. induction n as [|n [IH0 IH1]].
  - simpl. lra.
  - rewrite Qpower_nat_S. split; nra.
Qed.

Lemma Qmax_decay_step x d f :
  0 <= d -> d <= 1 -> 0 <= f ->
  Qmax (Qmax x f * d) f == Qmax (x * d) f.
Proof.
  intros Hd0 Hd1 Hf.
  destruct (Q.max_spec x f) as [[H E]|[H E]];
    destruct (Q.max_spec (Qmax x f * d) f) as [[H2 E2]|[H2 E2]];
    destruct (Q.max_spec (x * d) f) as [[H3 E3]|[H3 E3]];
    rewrite E2, E3; rewrite ?E in *; try reflexivity; nra.
Qed.

Lemma decay_epsilon_closed a n :
  0 <= epsilon_decay a -> epsilon_decay a <= 1 -> 0 <= final_epsilon a ->
  epsilon (Nat.iter (S n) decay_epsilon a)
  == Qmax (epsilon a * epsilon_decay a ^ Z.of_nat (S n)) (final_epsilon a).
Proof.
  intros Hd0 Hd1 Hf. induction n as [|n IH].
  - simpl. rewrite py_max_Qmax. reflexivity.
  - destruct (decay_epsilon_iter_config (S n) a) as [Hc1 Hc2].
    change (Nat.iter (S (S n)) decay_epsilon a)
      with (decay_epsilon (Nat.iter (S n) decay_epsilon a)).
    unfold decay_epsilon at 1. cbn [epsilon set_epsilon].
    rewrite py_max_Qmax, Hc1, Hc2.
    transitivity
      (Qmax (Qmax (epsilon a * epsilon_decay a ^ Z.of_nat (S n))
                  (final_epsilon a) * epsilon_decay a) (final_epsilon a)).
    + destruct (Q.max_spec (epsilon (Nat.iter (S n) decay_epsilon a)
                            * epsilon_decay a) (final_epsilon a))
        as [[H E]|[H E]];
        destruct (Q.max_spec
                    (Qmax (epsilon a * epsilon_decay a ^ Z.of_nat (S n))
                          (final_epsilon a) * epsilon_decay a)
                    (final_epsilon a)) as [[H' E']|[H' E']];
        rewrite E, E'; rewrite <- ?IH in *; try reflexivity; lra.
    + rewrite Qmax_decay_step by assumption.
      rewrite (Qpower_nat_S _ (S n)).
      destruct (Q.max_spec (epsilon a * epsilon_decay a ^ Z.of_nat (S n)
                            * epsilon_decay a) (final_epsilon a))
        as [[H E]|[H E]];
        destruct (Q.max_spec
                    (epsilon a
                     * (epsilon_decay a ^ Z.of_nat (S n) * epsilon_decay a))
                    (final_epsilon a)) as [[H' E']|[H' E']];
        rewrite E, E'; try reflexivity; lra.
Qed.



(** Bernoulli's inequality for a decay [d = 1 - h]. *)
Lemma decay_power_bound d (n : nat) :
  0 <= d -> d <= 1 ->
  d ^ Z.of_nat n * (1 + inject_Z (Z.of_nat n) * (1 - d)) <= 1.
Proof.
  intros H0 H1. induction n as [|n IH].
  - change (Z.of_nat 0) with 0%Z. change (d ^ 0) with 1.
    change (inject_Z 0) with 0. lra.
  - destruct (Qpower_nat_bounds d n H0 H1) as [Hp0 Hp1].
    rewrite Qpower_nat_S, Nat2Z.inj_succ. unfold Z.succ.
    rewrite inject_Z_plus. change (inject_Z 1) with 1.
    set (p := d ^ Z.of_nat n) in *. set (k := inject_Z (Z.of_nat n)) in *.
    assert (Hk : 0 <= k).
    { unfold k. change 0 with (inject_Z 0). apply inject_Z_le_iff. lia. }
    assert (E : p * d * (1 + (k + 1) * (1 - d))
                == p * (1 + k * (1 - d))
                   - p * ((k + 1) * (1 - d) * (1 - d))) by ring.
    rewrite E.
    assert (0 <= p * ((k + 1) * (1 - d) * (1 - d))).
    { apply Qmult_le_0_compat; [exact Hp0|].
      apply Qmult_le_0_compat; [|lra].
      apply Qmult_le_0_compat; lra. }
    lra.
Qed.

Lemma nat_above (x : Q) : exists n : nat, x <= inject_Z (Z.of_nat n).
Proof.
  exists (Z.to_nat (Qceiling x)).
  assert (H : (Qceiling x <= Z.of_nat (Z.to_nat (Qceiling x)))%Z) by lia.
  apply inject_Z_le_iff in H. pose proof (Qle_ceiling x). lra.
Qed.

(** X8.  With a decay in [0, 1) and a positive floor, epsilon is at the
    floor from some number of calls on, wherever it started.  With a decay
    of 1 and a start at or above the floor it never moves. *)
Theorem decay_epsilon_reaches_floor a :
  (0 <= epsilon_decay a -> epsilon_decay a < 1 -> 0 < final_epsilon a ->
   exists k : nat, forall n : nat, (k <= n)%nat ->
     epsilon (Nat.iter n decay_epsilon a) == final_epsilon a) /\
  (epsilon_decay a == 1 -> final_epsilon a <= epsilon a ->
   forall n : nat, epsilon (Nat.iter n decay_epsilon a) == epsilon a).
Proof.
  split.
  - intros Hd0 Hd1 Hf.
    set (e := epsilon a). set (d := epsilon_decay a) in *.
    set (f := final_epsilon a) in *.
    destruct (nat_above (e / f / (1 - d))) as [k Hk].
    exists (S k). intros n Hn.
    destruct n as [|n]; [lia|].
    rewrite decay_epsilon_closed by (fold d f; lra).
    fold e d f. apply Q.max_r.
    destruct (Qpower_nat_bounds d (S n) Hd0 ltac:(lra)) as [Hp0 Hp1].
    pose proof (decay_power_bound d (S n) Hd0 ltac:(lra)) as Hb.
    set (p := d ^ Z.of_nat (S n)) in *.
    assert (Hm : inject_Z (Z.of_nat k) <= inject_Z (Z.of_nat (S n)))
      by (apply inject_Z_le_iff; lia).
    set (m := inject_Z (Z.of_nat (S n))) in *.
    destruct (Qlt_le_dec f e) as [Hfe|Hef].
    + assert (Hq : e / f / (1 - d) * (1 - d) == e / f) by (field; lra).
      assert (Hq2 : e / f * f == e) by (field; lra).
      assert (H1 : e / f <= m * (1 - d)).
      { rewrite <- Hq. apply Qmult_le_compat_r; lra. }
      assert (H2 : e <= m * (1 - d) * f).
      { rewrite <- Hq2 at 1. apply Qmult_le_compat_r; lra. }
      assert (HA : e * p <= m * (1 - d) * f * p).
      { apply Qmult_le_compat_r; assumption. }
      assert (Hu : p * (1 + m * (1 - d)) == p + p * (m * (1 - d))) by ring.
      assert (HB : p * (m * (1 - d)) * f <= 1 * f).
      { apply Qmult_le_compat_r; lra. }
      assert (HC : m * (1 - d) * f * p == p * (m * (1 - d)) * f) by ring.
      lra.
    + destruct (Qlt_le_dec e 0) as [He|He].
      * assert (e * p <= 0); [|lra].
        assert (0 <= (- e) * p) by (apply Qmult_le_0_compat; lra). lra.
      * assert (p * e <= 1 * e) by (apply Qmult_le_compat_r; lra).
        assert (e * p == p * e) by ring. lra.
  - intros Hd Hfe n. induction n as [|n IH]; [reflexivity|].
    destruct (decay_epsilon_iter_config n a) as [Hc1 Hc2].
    simpl. rewrite py_max_Qmax, Hc1, Hc2, IH, Hd.
    destruct (Q.max_spec (epsilon a * 1) (final_epsilon a)) as [[H E]|[H E]];
      rewrite E; lra.
Qed.

Lemma decay_epsilon_reaches_floor_witness :
  (exists k : nat, forall n : nat, (k <= n)%nat ->
     epsilon (Nat.iter n decay_epsilon decay_example)
     == final_epsilon decay_example) /\
  (forall n : nat,
     epsilon (Nat.iter n decay_epsilon no_decay) == epsilon no_decay).
Proof.
  split.
  - apply (proj1 (decay_epsilon_reaches_floor decay_example)).
    + vm_compute. discriminate.
    + vm_compute. reflexivity.
    + vm_compute. reflexivity.
  - apply (proj2 (decay_epsilon_reaches_floor no_decay)).
    + vm_compute. reflexivity.
    + vm_compute. discriminate.
Defined.

(** ** The grid of the discretisation *)

Ltac case_Qltb_in x y :=
  let H := fresh "Hlt" in
  destruct (Qltb x y) eqn:H; [apply Qltb_lt in H | apply Qltb_ge in H].

Lemma clip_monotone x y lo hi : x <= y -> clip x lo hi <= clip y lo hi.
Proof.
  intros H. unfold clip.
  assert (Hy : (if Qltb x lo then lo else x) <= (if Qltb y lo then lo else y)).
  { case_Qltb_in x lo; case_Qltb_in y lo; lra. }
  set (x' := if Qltb x lo then lo else x) in *.
  set (y' := if Qltb y lo then lo else y) in *.
  case_Qltb_in hi x'; case_Qltb_in hi y'; lra.
Qed.


Lemma bucketize_monotone v w l :
  v <= w -> (bucketize v l <= bucketize w l)%nat.
Proof.
  intros H. induction l as [|b l IH]; [reflexivity|].
  simpl. destruct (Qltb b v) eqn:E; [|lia].
  apply Qltb_lt in E.
  assert (E' : Qltb b w = true) by (apply Qltb_lt; lra).
  rewrite E'. lia.
Qed.







(** X10.  A larger reading never gets a smaller bucket: when each of the
    four readings of one observation is at most the reading of another,
    each component of its state key is at most the component of the
    other's. *)
Theorem discretize_state_monotone a obs obs' :
  pose_cart_raw obs <= pose_cart_raw obs' ->
  pose_pole_raw obs <= pose_pole_raw obs' ->
  vel_cart_raw obs <= vel_cart_raw obs' ->
  vel_pole_raw obs <= vel_pole_raw obs' ->
  Forall2 Z.le (discretize_state a obs) (discretize_state a obs').
Proof.
  intros H1 H2 H3 H4. unfold discretize_state.
  destruct (discretize_state_weight a) as [[[b1 b2] b3] b4].
  assert (Hd : forall bound bins x y, x <= y ->
            (Z.of_nat (discretize_dim bound bins x)
             <= Z.of_nat (discretize_dim bound bins y))%Z).
  { intros bound bins x y Hxy. apply Nat2Z.inj_le.
    unfold discretize_dim. apply bucketize_monotone, clip_monotone.
    exact Hxy. }
  repeat constructor; apply Hd; assumption.
Qed.

Lemma discretize_state_monotone_witness :
  Forall2 Z.le (discretize_state dq0 obs_low) (discretize_state dq0 obs_high).
Proof.
  apply (discretize_state_monotone dq0 obs_low obs_high);
    vm_compute; discriminate.
Defined.

(** ** Double Q-Learning: what one update touches *)

(** The outcome of one arm, with the object it leaves. *)
Lemma update_arm_eq target other s action reward s' a :
  Double_Q_Learning.update_arm target other s action reward s' a
  = match max_or_zero other s' a with
    | None => (Raises ValueError, a)
    | Some best =>
        let row := row_or_default target s a in
        let a1 := materialise target s a in
        match vec_get row action with
        | None => (Raises IndexError, a1)
        | Some old =>
            match vec_set row action
                    (old + lr a * (reward + discount_factor a * best - old))
            with
            | Some row' =>
                (Returns tt,
                 set_table target a1 (<[s := row']> (get_table target a1)))
            | None => (Raises IndexError, a1)
            end
        end
    end.
Proof.
  unfold Double_Q_Learning.update_arm, bind, gets, max_or_zero.
  destruct (get_table other a !! s') as [orow|].
  - destruct (np_max (elems orow)) as [best|]; [|reflexivity].
    unfold lift, ret. rewrite dd_getitem_eq. unfold row_getitem, lift.
    destruct (vec_get (row_or_default target s a) action) as [old|];
      [|reflexivity].
    unfold ret, row_setitem. rewrite materialise_lookup.
    destruct (materialise_config target s a) as (_ & -> & -> & _).
    destruct (vec_set _ _ _); reflexivity.
  - unfold ret. rewrite dd_getitem_eq. unfold row_getitem, lift.
    destruct (vec_get (row_or_default target s a) action) as [old|];
      [|reflexivity].
    unfold ret, row_setitem. rewrite materialise_lookup.
    destruct (materialise_config target s a) as (_ & -> & -> & _).
    destruct (vec_set _ _ _); reflexivity.
Qed.

Lemma vec_get_index row i j :
  py_index (length (elems row)) i = Some j ->
  vec_get row i = Some (nth j (elems row) 0).
Proof.
  intros H. unfold vec_get. rewrite H.
  apply nth_lookup_Some. eapply py_index_lt. exact H.
Qed.

Lemma vec_set_index row i j x :
  py_index (length (elems row)) i = Some j ->
  vec_set row i x = Some (with_elems row (<[j := x]> (elems row))).
Proof. intros H. unfold vec_set. rewrite H. reflexivity. Qed.

Lemma vec_get_out row i :
  py_index (length (elems row)) i = None -> vec_get row i = None.
Proof. intros H. unfold vec_get. rewrite H. reflexivity. Qed.

Lemma cell_set_check_update t k i a b :
  cell t k i (set_check_update a b) = cell t k i a.
Proof. unfold cell, row_or_default. destruct t; reflexivity. Qed.

Lemma num_of_action_set_table t a m :
  num_of_action (set_table t a m) = num_of_action a.
Proof. destruct t; reflexivity. Qed.

(** X11.  When the action is a valid index [j] into the row of the state
    (counted from the end when negative) and the bootstrap value can be
    computed, an update returns and changes one cell only: the tables other
    than the one selected by the toggle are the same maps as before, the
    selected table keeps every other key as it was, and in the row of the
    state every cell but [j] reads as before.  The next state gets no row
    from the update. *)
Theorem double_q_update_one_cell a obs action reward next_obs j :
  let state := discretize_state a obs in
  let next_state := discretize_state a next_obs in
  let target := target_table (check_update a) in
  let other := other_table (check_update a) in
  py_index (length (elems (row_or_default target state a))) action = Some j ->
  is_Some (max_or_zero other next_state a) ->
  exists a',
    Double_Q_Learning.update obs action reward next_obs a = (Returns tt, a') /\
    (forall t, t <> target -> get_table t a' = get_table t a) /\
    (forall k, k <> state ->
       get_table target a' !! k = get_table target a !! k) /\
    (forall i, i <> j -> cell target state i a' = cell target state i a) /\
    same_frame a (set_check_update a' (check_update a)).
Proof.
  intros state next_state target other Hj [best Hbest].
  rewrite update_unfold, update_arm_eq.
  fold state next_state target other. rewrite Hbest. cbv zeta.
  rewrite (vec_get_index _ _ _ Hj), (vec_set_index _ _ _ _ Hj).
  eexists. split; [reflexivity|].
  split; [|split; [|split]].
  - intros t Ht. rewrite get_table_set_check_update.
    rewrite get_set_table_ne by congruence.
    apply materialise_other. congruence.
  - intros k Hk. rewrite get_table_set_check_update, get_set_table_eq.
    rewrite lookup_insert_ne by congruence.
    apply materialise_lookup_ne. congruence.
  - intros i Hi. rewrite cell_set_check_update. unfold cell at 1.
    unfold row_or_default at 1.
    rewrite get_set_table_eq, lookup_insert_eq. simpl.
    rewrite elems_with_elems. unfold cell.
    rewrite nth_insert by (eapply py_index_lt; exact Hj).
    destruct (decide (i = j)); [contradiction | reflexivity].
  - destruct (check_update a) eqn:Ec; subst target; simpl;
      destruct (materialise_config (target_table (check_update a)) state a)
        as (H1 & H2 & H3 & H4 & H5 & H6 & H7 & H8 & H9 & H10);
      rewrite Ec in *; simpl in *;
      pose proof (same_frame_materialise Qa_values state a) as Ha;
      pose proof (same_frame_materialise Qb_values state a) as Hb;
      unfold same_frame in *; simpl; intuition congruence.
Qed.

Lemma double_q_update_one_cell_witness :
  exists a',
    Double_Q_Learning.update obs_origin 1 1 obs_origin dq0 = (Returns tt, a') /\
    (forall t, t <> Qa_values -> get_table t a' = get_table t dq0) /\
    (forall k, k <> tie_key ->
       get_table Qa_values a' !! k = get_table Qa_values dq0 !! k) /\
    (forall i, i <> 1%nat ->
       cell Qa_values tie_key i a' = cell Qa_values tie_key i dq0) /\
    same_frame dq0 (set_check_update a' (check_update dq0)).
Proof.
  apply (double_q_update_one_cell dq0 obs_origin 1 1 obs_origin 1).
  - vm_compute. reflexivity.
  - exists 0. vm_compute. reflexivity.
Defined.

Lemma py_index_out len i :
  (i < - Z.of_nat len \/ Z.of_nat len <= i)%Z -> py_index len i = None.
Proof.
  intros H. unfold py_index.
  destruct ((0 <=? i)%Z && (i <? Z.of_nat len)%Z) eqn:E1.
  - apply andb_true_iff in E1 as [E1 E2]. lia.
  - destruct ((- Z.of_nat len <=? i)%Z && (i <? 0)%Z) eqn:E2; [|reflexivity].
    apply andb_true_iff in E2 as [E2 E3]. lia.
Qed.

Lemma py_index_wrap len i :
  (- Z.of_nat len <= i < 0)%Z ->
  py_index len i = py_index len (i + Z.of_nat len).
Proof.
  intros H. unfold py_index.
  replace ((0 <=? i)%Z) with false by lia.
  replace ((- Z.of_nat len <=? i)%Z) with true by lia.
  replace ((i <? 0)%Z) with true by lia.
  replace ((0 <=? i + Z.of_nat len)%Z) with true by lia.
  replace ((i + Z.of_nat len <? Z.of_nat len)%Z) with true by lia.
  simpl. f_equal. lia.
Qed.

(** X12.  With rows of [num_of_action] cells in the table selected by the
    toggle, an action index below [-num_of_action] or from [num_of_action]
    on makes the update raise [IndexError] (once the bootstrap value has
    been computed).  The toggle is not flipped and no table answers
    differently, but the row of the state has been read: a state without a
    row holds the zero row afterwards. *)
Theorem double_q_update_index_error a obs action reward next_obs :
  let state := discretize_state a obs in
  let next_state := discretize_state a next_obs in
  let target := target_table (check_update a) in
  let other := other_table (check_update a) in
  rows_sized target a ->
  (action < - Z.of_nat (num_of_action a)
   \/ Z.of_nat (num_of_action a) <= action)%Z ->
  is_Some (max_or_zero other next_state a) ->
  Double_Q_Learning.update obs action reward next_obs a
  = (Raises IndexError, materialise target state a) /\
  check_update (materialise target state a) = check_update a /\
  get_table target (materialise target state a) !! state
  = Some (row_or_default target state a) /\
  forall t k i, cell t k i (materialise target state a) = cell t k i a.
Proof.
  intros state next_state target other Hrows Hact [best Hbest].
  split; [|split; [|split]].
  - rewrite update_unfold, update_arm_eq.
    fold state next_state target other. rewrite Hbest. cbv zeta.
    rewrite vec_get_out; [reflexivity|].
    rewrite row_or_default_length by exact Hrows.
    apply py_index_out. exact Hact.
  - apply materialise_config.
  - apply materialise_lookup.
  - intros t k i. apply cell_materialise.
Qed.

Lemma double_q_update_index_error_witness :
  Double_Q_Learning.update obs_origin 11 1 obs_origin dq0
  = (Raises IndexError, materialise Qa_values tie_key dq0) /\
  check_update (materialise Qa_values tie_key dq0) = check_update dq0 /\
  get_table Qa_values (materialise Qa_values tie_key dq0) !! tie_key
  = Some (row_or_default Qa_values tie_key dq0) /\
  forall t k i,
    cell t k i (materialise Qa_values tie_key dq0) = cell t k i dq0.
Proof.
  apply (double_q_update_index_error dq0 obs_origin 11 1 obs_origin).
  - apply rows_sized_check_ok. vm_compute. reflexivity.
  - right. vm_compute. discriminate.
  - exists 0. vm_compute. reflexivity.
Defined.

(** X13.  With rows of [num_of_action] cells in the table selected by the
    toggle, a negative action index from [-num_of_action] on is not
    refused: the update is the update of the action
    [action + num_of_action], outcome and object alike. *)
Theorem double_q_update_negative_index a obs action reward next_obs :
  rows_sized (target_table (check_update a)) a ->
  (- Z.of_nat (num_of_action a) <= action < 0)%Z ->
  Double_Q_Learning.update obs action reward next_obs a
  = Double_Q_Learning.update obs (action + Z.of_nat (num_of_action a))
      reward next_obs a.
Proof.
  intros Hrows Hact. rewrite !update_unfold, !update_arm_eq. cbv zeta.
  set (row := row_or_default (target_table (check_update a))
                (discretize_state a obs) a).
  assert (Hlen : length (elems row) = num_of_action a)
    by (apply row_or_default_length; exact Hrows).
  assert (Hg : vec_get row action
               = vec_get row (action + Z.of_nat (num_of_action a))).
  { unfold vec_get. rewrite Hlen, <- py_index_wrap by exact Hact.
    reflexivity. }
  assert (Hs : forall x, vec_set row action x
               = vec_set row (action + Z.of_nat (num_of_action a)) x).
  { intros x. unfold vec_set. rewrite Hlen, <- py_index_wrap by exact Hact.
    reflexivity. }
  destruct (max_or_zero _ _ a); [|reflexivity].
  rewrite <- Hg.
  destruct (vec_get row action); [|reflexivity].
  rewrite <- Hs. reflexivity.
Qed.

Lemma double_q_update_negative_index_witness :
  Double_Q_Learning.update obs_origin (-1) 1 obs_origin dq0
  = Double_Q_Learning.update obs_origin (-1 + Z.of_nat (num_of_action dq0))
      1 obs_origin dq0.
Proof.
  apply (double_q_update_negative_index dq0 obs_origin (-1) 1 obs_origin).
  - apply rows_sized_check_ok. vm_compute. reflexivity.
  - vm_compute. split; [discriminate | reflexivity].
Defined.

(** ** Monte Carlo over many episodes *)









Lemma rows_sized_set_hist t a os acts rs :
  rows_sized t a -> rows_sized t (set_hist a os acts rs).
Proof. intros H s row Hs. apply (H s row). destruct t; exact Hs. Qed.















(** The run of the two episodes, computed: the pair is counted twice and
    its value is the mean of the returns 1.5 and 4. *)
Example two_episodes_mean :
  let a' := (mc_run two_episodes mc0).2 in
  visit_returns (discount_factor mc0) (discretize_state mc0) (tie_key, 1%Z)
    [] two_episodes = [MC.return_from 0.5 [1; 1] 0; MC.return_from 0.5 [4] 0] /\
  cell N_values tie_key 1 a' == 2 /\
  cell Q_values tie_key 1 a' == 2.75.
Proof. split; [|split]; vm_compute; reflexivity. Qed.

(** ** Monte Carlo: when the end of an episode fails *)

#[local] Hint Resolve keeps_frame_ret keeps_frame_raise keeps_frame_lift
  keeps_frame_gets keeps_frame_dd_getitem keeps_frame_dd_setitem
  keeps_frame_row_getitem keeps_frame_row_setitem keeps_frame_first_visit
  : frame.

Lemma keeps_frame_first_visit_loop return_list ts :
  forall visited,
    keeps_frame (MC.first_visit_loop return_list ts visited).
Proof.
  induction ts as [|t ts IH]; intros visited; simpl; [auto with frame|].
  frame_steps; apply IH.
Qed.

(** X15.  A call with [done = true] that raises has cleared nothing: the
    three histories are the ones it found, and so are the configuration
    and the toggle; only rows of the tables may have changed. *)
Theorem mc_update_failure_keeps_history a obs action reward_value e a' :
  MC.update true obs action reward_value a = (Raises e, a') ->
  same_frame a a'.
Proof.
  unfold MC.update, bind, gets. change (negb true) with false.
  cbv beta iota.
  pose proof (keeps_frame_first_visit_loop
                (MC.compute_returns (discount_factor a) (reward_hist a))
                (seq 0 (length (obs_hist a))) ∅ a) as Hf.
  destruct (MC.first_visit_loop _ _ _ a) as [[[]|e'] a1]; [discriminate|].
  intros [= <- <-]. exact Hf.
Qed.

Lemma rows_sized_materialise t t' key a :
  rows_sized t a -> rows_sized t (materialise t' key a).
Proof.
  intros H s row Hs.
  destruct (materialise_config t' key a) as (_ & _ & _ & _ & -> & _).
  destruct (materialise_lookup_cases t' key a t s) as [E|(-> & -> & _ & E)].
  - rewrite E in Hs. exact (H s row Hs).
  - rewrite E in Hs. injection Hs as <-. unfold zero_row. simpl.
    apply repeat_length.
Qed.

Lemma first_visit_index_error s act G a :
  rows_sized N_values a ->
  (act < - Z.of_nat (num_of_action a) \/ Z.of_nat (num_of_action a) <= act)%Z ->
  MC.first_visit s act G a = (Raises IndexError, materialise N_values s a).
Proof.
  intros Hrows Hact. unfold MC.first_visit, bind.
  rewrite dd_getitem_eq. unfold row_getitem.
  rewrite vec_get_out; [reflexivity|].
  rewrite row_or_default_length by exact Hrows.
  apply py_index_out. exact Hact.
Qed.

Lemma update_done_poisoned a obs action reward_value s0 act0 :
  rows_sized N_values a ->
  obs_hist a !! 0%nat = Some s0 -> action_hist a !! 0%nat = Some act0 ->
  (act0 < - Z.of_nat (num_of_action a)
   \/ Z.of_nat (num_of_action a) <= act0)%Z ->
  MC.update true obs action reward_value a
  = (Raises IndexError, materialise N_values s0 a).
Proof.
  intros Hrows Ho Ha Hact. unfold MC.update, bind, gets.
  change (negb true) with false. cbv beta iota.
  destruct (obs_hist a) as [|s l] eqn:E; [discriminate|].
  injection Ho as ->.
  change (seq 0 (length (s0 :: l))) with (0%nat :: seq 1 (length l)).
  cbn [MC.first_visit_loop]. unfold bind, gets. cbv beta.
  rewrite E. change ((s0 :: l) !! 0%nat) with (Some s0).
  unfold lift at 1, ret. cbv beta iota.
  rewrite Ha. unfold lift at 1, ret. cbv beta iota.
  rewrite bool_decide_eq_false_2 by apply not_elem_of_empty.
  rewrite first_visit_index_error by assumption. reflexivity.
Qed.

(** X16.  Once the first recorded step of a Monte Carlo object has an
    action index outside the rows, the object stays that way under every
    call: a call with [done = false] returns and records its step behind
    it, and a call with [done = true] raises [IndexError] and leaves the
    histories in place, so that the next end of an episode fails too. *)
Theorem mc_bad_action_sticks a obs action reward_value :
  poisoned a ->
  (let r := MC.update false obs action reward_value a in
   r.1 = Returns tt /\ poisoned r.2) /\
  (let r := MC.update true obs action reward_value a in
   r.1 = Raises IndexError /\ poisoned r.2 /\
   obs_hist r.2 = obs_hist a /\ action_hist r.2 = action_hist a /\
   reward_hist r.2 = reward_hist a).
Proof.
  intros (Hrows & s0 & act0 & Ho & Ha & Hact). split.
  - cbv zeta. split; [reflexivity|]. split.
    + apply rows_sized_set_hist. exact Hrows.
    + exists s0, act0. simpl.
      rewrite !lookup_app_l by (eapply lookup_lt_Some; eassumption).
      auto.
  - cbv zeta.
    rewrite (update_done_poisoned a obs action reward_value s0 act0)
      by assumption.
    destruct (materialise_config N_values s0 a)
      as (_ & _ & _ & _ & Hn & _ & _ & Eo & Ea & Er).
    simpl. split; [reflexivity|]. split; [|auto].
    split; [apply rows_sized_materialise; exact Hrows|].
    exists s0, act0. rewrite Eo, Ea, Hn. auto.
Qed.

Lemma mc_bad_action_sticks_witness :
  (let r := MC.update false obs_origin 1 1 mc_bad in
   r.1 = Returns tt /\ poisoned r.2) /\
  (let r := MC.update true obs_origin 1 1 mc_bad in
   r.1 = Raises IndexError /\ poisoned r.2 /\
   obs_hist r.2 = obs_hist mc_bad /\ action_hist r.2 = action_hist mc_bad /\
   reward_hist r.2 = reward_hist mc_bad).
Proof.
  apply (mc_bad_action_sticks mc_bad obs_origin 1 1).
  split.
  - apply rows_sized_check_ok. vm_compute. reflexivity.
  - exists tie_key, 11%Z.
    split; [vm_compute; reflexivity|].
    split; [vm_compute; reflexivity|].
    right. vm_compute. discriminate.
Defined.

Lemma mc_update_failure_keeps_history_witness :
  same_frame mc_bad (MC.update true obs_origin 0 0 mc_bad).2.
Proof.
  apply (mc_update_failure_keeps_history mc_bad obs_origin 0 0 IndexError).
  vm_compute. reflexivity.
Defined.

(** ** When a checkpoint can be written *)

Lemma tolist_is_Some t a : is_Some (str_keys_tolist t a) <-> all_arrays t a.
Proof.
  split; [|apply str_keys_tolist_arrays].
  intros H k v Hkv. unfold str_keys_tolist in H.
  apply mapM_is_Some_1 in H. rewrite Forall_forall in H.
  apply elem_of_map_to_list in Hkv. specialize (H _ Hkv).
  simpl in H. destruct v as [xs|xs]; [eauto|].
  destruct H as [? H]. discriminate.
Qed.

Lemma dump_raw_is_Some t a :
  is_Some (json_dump (str_keys t a)) <-> all_lists t a.
Proof.
  unfold json_dump, str_keys. rewrite mapM_is_Some, Forall_fmap. split.
  - intros H k v Hkv. rewrite Forall_forall in H.
    apply elem_of_map_to_list in Hkv. specialize (H _ Hkv).
    simpl in H. destruct v as [xs|xs]; [|eauto].
    destruct H as [? H]. discriminate.
  - intros H. apply Forall_forall. intros [k v] Hkv.
    apply elem_of_map_to_list in Hkv.
    destruct (H k v Hkv) as [xs ->]. simpl. eauto.
Qed.

Lemma dump_try_is_Some t a :
  is_Some (json_dump (str_keys_try t a))
  <-> all_arrays t a \/ all_lists t a.
Proof.
  unfold str_keys_try.
  destruct (str_keys_tolist t a) as [l|] eqn:E.
  - rewrite (str_keys_tolist_dump t a l E). split; [|eauto].
    intros _. left. apply tolist_is_Some. rewrite E. eauto.
  - rewrite dump_raw_is_Some. split; [auto|].
    intros [H|H]; [|exact H].
    apply tolist_is_Some in H. rewrite E in H. destruct H. discriminate.
Qed.

Lemma not_is_Some_None {A} (o : option A) : ~ is_Some o -> o = None.
Proof. destruct o; [intros H; exfalso; apply H; eauto | reflexivity]. Qed.

Lemma save_q_value_cases a :
  (save_q_value a).2 = a /\
  (saveable a -> exists file, (save_q_value a).1 = Returns file) /\
  (~ saveable a ->
   (save_q_value a).1 = Raises (save_error (control_type a))).
Proof.
  unfold save_q_value, saveable, bind, gets.
  destruct (control_type a) eqn:Hct; cbn [ControlType_eqb save_error];
    cbv beta iota.
  - (* Monte Carlo *)
    pose proof (dump_try_is_Some Q_values a) as HQ.
    pose proof (dump_try_is_Some N_values a) as HN.
    destruct (json_dump (str_keys_try Q_values a)) as [sq|];
      destruct (json_dump (str_keys_try N_values a)) as [sn|]; simpl;
      (split; [reflexivity|]); split;
      try (intros _; eexists; reflexivity);
      try (intros H; reflexivity).
    + intros H. exfalso. apply H. split; [apply HQ | apply HN]; eauto.
    + intros [_ H]. apply HN in H. destruct H. discriminate.
    + intros [H _]. apply HQ in H. destruct H. discriminate.
    + intros [H _]. apply HQ in H. destruct H. discriminate.
  - pose proof (dump_try_is_Some Q_values a) as HQ.
    destruct (json_dump (str_keys_try Q_values a)) as [sq|]; simpl;
      (split; [reflexivity|]); split;
      try (intros _; eexists; reflexivity);
      try (intros H; reflexivity).
    + intros H. exfalso. apply H. apply HQ. eauto.
    + intros H. apply HQ in H. destruct H. discriminate.
  - pose proof (dump_try_is_Some Q_values a) as HQ.
    destruct (json_dump (str_keys_try Q_values a)) as [sq|]; simpl;
      (split; [reflexivity|]); split;
      try (intros _; eexists; reflexivity);
      try (intros H; reflexivity).
    + intros H. exfalso. apply H. apply HQ. eauto.
    + intros H. apply HQ in H. destruct H. discriminate.
  - (* Double Q-Learning *)
    pose proof (tolist_is_Some Qa_values a) as HA.
    pose proof (tolist_is_Some Qb_values a) as HB.
    destruct (str_keys_tolist Qa_values a) as [la|] eqn:Ea; simpl.
    + destruct (str_keys_tolist Qb_values a) as [lb|] eqn:Eb; simpl.
      * rewrite (str_keys_tolist_dump _ _ _ Ea).
        rewrite (str_keys_tolist_dump _ _ _ Eb). simpl.
        split; [reflexivity|]. split; [intros _; eexists; reflexivity|].
        intros H. exfalso. apply H. split; [apply HA | apply HB]; eauto.
      * split; [reflexivity|]. split; [|reflexivity].
        intros [_ H]. apply HB in H. destruct H. discriminate.
    + split; [reflexivity|]. split; [|reflexivity].
      intros [H _]. apply HA in H. destruct H. discriminate.
Qed.

Lemma all_arrays_check_ok t a : all_arrays_check t a = true -> all_arrays t a.
Proof.
  intros H k v.
  apply (Forall_map_to_list (fun _ v => exists xs, v = NdArray xs)).
  apply (Forall_check _
           (fun kv : list Z * vec =>
              match kv.2 with NdArray _ => true | PyList _ => false end));
    [|exact H].
  intros [k' [xs|xs]]; simpl; [eauto | discriminate].
Qed.

(** X17.  [save_q_value] never changes the object.  It writes a file
    exactly when the rows allow it: for Double Q-Learning every row of
    [qa_values] and [qb_values] must be an array; for the other control
    types every saved table must hold arrays only or lists only.
    Otherwise it raises, [AttributeError] for Double Q-Learning and
    [TypeError] for the others. *)
Theorem save_q_value_outcome a :
  (save_q_value a).2 = a /\
  ((exists file, (save_q_value a).1 = Returns file) <-> saveable a) /\
  (~ saveable a ->
   (save_q_value a).1 = Raises (save_error (control_type a))).
Proof.
  destruct (save_q_value_cases a) as (Hstate & Hok & Hfail).
  split; [exact Hstate|]. split; [|exact Hfail].
  split; [|exact Hok].
  intros [file Hfile]. revert Hfile.
  unfold save_q_value, saveable, bind, gets.
  destruct (control_type a); cbn [ControlType_eqb]; cbv beta iota.
  - pose proof (dump_try_is_Some Q_values a) as HQ.
    pose proof (dump_try_is_Some N_values a) as HN.
    destruct (json_dump (str_keys_try Q_values a)) as [sq|];
      [|unfold lift, raise, ret; simpl; discriminate].
    destruct (json_dump (str_keys_try N_values a)) as [sn|];
      [|unfold lift, raise, ret; simpl; discriminate].
    intros _. split; [apply HQ | apply HN]; eauto.
  - pose proof (dump_try_is_Some Q_values a) as HQ.
    destruct (json_dump (str_keys_try Q_values a)) as [sq|];
      [|unfold lift, raise, ret; simpl; discriminate].
    intros _. apply HQ. eauto.
  - pose proof (dump_try_is_Some Q_values a) as HQ.
    destruct (json_dump (str_keys_try Q_values a)) as [sq|];
      [|unfold lift, raise, ret; simpl; discriminate].
    intros _. apply HQ. eauto.
  - pose proof (tolist_is_Some Qa_values a) as HA.
    pose proof (tolist_is_Some Qb_values a) as HB.
    destruct (str_keys_tolist Qa_values a) as [la|];
      [|unfold lift, raise, ret; simpl; discriminate].
    unfold lift at 1, ret. cbv beta iota.
    destruct (str_keys_tolist Qb_values a) as [lb|];
      [|unfold lift, raise, ret; simpl; discriminate].
    intros _. split; [apply HA | apply HB]; eauto.
Qed.

Lemma save_q_value_outcome_witness :
  (exists file, (save_q_value dq_trained).1 = Returns file) /\
  (save_q_value dq_lists).1 = Raises (save_error (control_type dq_lists)).
Proof.
  assert (Hct : control_type dq_trained = DOUBLE_Q_LEARNING)
    by (vm_compute; reflexivity).
  assert (Hct' : control_type dq_lists = DOUBLE_Q_LEARNING)
    by (vm_compute; reflexivity).
  split.
  - apply (proj2 (proj1 (proj2 (save_q_value_outcome dq_trained)))).
    unfold saveable. rewrite Hct.
    split; apply all_arrays_check_ok; vm_compute; reflexivity.
  - apply (proj2 (proj2 (save_q_value_outcome dq_lists))).
    unfold saveable. rewrite Hct'. intros [H _].
    destruct (H tie_key (PyList [1; 0; 0; 0; 0; 0; 0; 0; 0; 0; 0]))
      as [xs E]; [vm_compute; reflexivity | discriminate].
Defined.

(** ** Saving after loading *)

Lemma load_rows_parsed parse t entries : forall a a',
  load_rows parse t entries a = (Returns tt, a') ->
  Forall (fun e : string * list Q => is_Some (parse e.1)) entries.
Proof.
  induction entries as [|[state values] rest IH]; intros a a' H;
    [constructor|].
  cbn [load_rows] in H. unfold bind in H.
  destruct (parse state) as [key|] eqn:E; [|discriminate].
  unfold lift, ret, dd_setitem, modify in H.
  constructor; [simpl; rewrite E; eauto|].
  eapply IH. exact H.
Qed.

(** A section with an entry leaves a list row when it has been loaded. *)
Lemma load_rows_leaves_list parse t entries a a' :
  entries <> [] ->
  load_rows parse t entries a = (Returns tt, a') ->
  ~ all_arrays t a'.
Proof.
  intros Hne Hrun Harr.
  destruct entries as [|[state values] rest]; [congruence|].
  pose proof (load_rows_parsed _ _ _ _ _ Hrun) as Hall.
  inversion Hall as [|? ? [key Hkey] _]; subst. simpl in Hkey.
  destruct (load_rows_returns _ _ _ _ _ _ Hrun) as (_ & _ & Hmerge).
  specialize (Hmerge eq_refl key). unfold merged in Hmerge.
  destruct (section_lookup parse ((state, values) :: rest) key) as [v|] eqn:E.
  - destruct (Harr key (PyList v) Hmerge) as [xs Hx]. discriminate.
  - rewrite section_lookup_None in E.
    apply (E state values); [left | exact Hkey].
Qed.

(** X18.  A Double Q-Learning object that has loaded a checkpoint with at
    least one row cannot be saved: the loaded rows are lists, [tolist] is
    called on them, and [save_q_value] raises [AttributeError]. *)
Theorem double_q_save_after_load_fails data a tbl a' :
  control_type a = DOUBLE_Q_LEARNING ->
  load_q_value data a = (Returns tbl, a') ->
  (ck_qa_values data <> Some [] \/ ck_qb_values data <> Some []) ->
  (save_q_value a').1 = Raises AttributeError.
Proof.
  intros Hct Hload Hne.
  destruct (load_q_value_double data a tbl a' Hct Hload)
    as (sa & sb & a1 & Hsa & Hsb & Hrun1 & Hrun2).
  destruct (load_rows_returns _ _ _ _ _ _ Hrun1) as (Hf1 & _ & _).
  destruct (load_rows_returns _ _ _ _ _ _ Hrun2) as (Hf2 & Hoth2 & _).
  assert (Hct' : control_type a' = DOUBLE_Q_LEARNING).
  { destruct Hf1 as (E1 & _). destruct Hf2 as (E2 & _). congruence. }
  destruct (save_q_value_cases a') as (_ & _ & Hfail).
  rewrite Hct' in Hfail. apply Hfail.
  unfold saveable. rewrite Hct'. intros [HA HB].
  destruct Hne as [Hne|Hne].
  - apply (load_rows_leaves_list parse_state_strip Qa_values sa a a1);
      [congruence | exact Hrun1|].
    intros k v Hkv. apply (HA k v).
    rewrite (Hoth2 Qa_values) by discriminate. exact Hkv.
  - apply (load_rows_leaves_list parse_state_strip Qb_values sb a1 a');
      [congruence | exact Hrun2 | exact HB].
Qed.

Lemma double_q_save_after_load_fails_witness :
  (save_q_value (load_q_value dq_document dq0).2).1 = Raises AttributeError.
Proof.
  apply (double_q_save_after_load_fails dq_document dq0
           (qa_values (load_q_value dq_document dq0).2)).
  - vm_compute. reflexivity.
  - vm_compute. reflexivity.
  - left. discriminate.
Defined.

(** ** Loading: failures and repetition *)

(** X19.  A document that lacks a section the control type needs makes
    [load_q_value] raise [KeyError].  When the first section asked for is
    the missing one, the object is untouched.  A Monte Carlo object given a
    document with [q_values] but without [n_values] (a checkpoint of
    Q-Learning) has merged the [q_values] of the document before the
    exception. *)
Theorem load_q_value_missing_section data a :
  (control_type a = DOUBLE_Q_LEARNING ->
   ck_qa_values data = None \/ ck_qb_values data = None ->
   load_q_value data a = (Raises KeyError, a)) /\
  (control_type a <> DOUBLE_Q_LEARNING -> ck_q_values data = None ->
   load_q_value data a = (Raises KeyError, a)) /\
  (control_type a = MONTE_CARLO ->
   forall sq, ck_q_values data = Some sq -> ck_n_values data = None ->
   Forall (fun e : string * list Q => is_Some (parse_state_replace e.1)) sq ->
   exists a1,
     load_q_value data a = (Raises KeyError, a1) /\
     n_values a1 = n_values a /\
     forall key,
       q_values a1 !! key = merged parse_state_replace sq (q_values a) key).
Proof.
  split; [|split].
  - intros Hct Hmiss. unfold load_q_value, bind, gets. rewrite Hct.
    change (ControlType_eqb DOUBLE_Q_LEARNING DOUBLE_Q_LEARNING) with true.
    cbv beta iota.
    destruct (ck_qa_values data) as [sa|]; [|reflexivity].
    destruct Hmiss as [Hm|Hm]; [discriminate|]. rewrite Hm. reflexivity.
  - intros Hct Hmiss. unfold load_q_value, bind, gets.
    assert (E : ControlType_eqb (control_type a) DOUBLE_Q_LEARNING = false)
      by (destruct (control_type a); try reflexivity; congruence).
    rewrite E, Hmiss. reflexivity.
  - intros Hct sq Hsq Hn Hparse.
    assert (Hnd : control_type a <> DOUBLE_Q_LEARNING) by congruence.
    destruct (load_rows_total parse_state_replace Q_values sq a Hparse)
      as [a1 Hrun].
    exists a1.
    destruct (load_rows_returns _ _ _ _ _ _ Hrun) as (_ & Hoth & Hmerge).
    split; [|split; [apply (Hoth N_values); discriminate
                    | apply Hmerge; reflexivity]].
    unfold load_q_value, bind, gets. rewrite Hct.
    change (ControlType_eqb MONTE_CARLO DOUBLE_Q_LEARNING) with false.
    change (ControlType_eqb MONTE_CARLO MONTE_CARLO) with true.
    cbv beta iota. rewrite Hsq. unfold lift at 1, ret. cbv beta iota.
    rewrite load_q_rows_single by exact Hnd.
    rewrite Hrun, Hn. reflexivity.
Qed.

Lemma load_q_value_missing_section_witness :
  load_q_value q_document dq0 = (Raises KeyError, dq0) /\
  load_q_value dq_document q_trained = (Raises KeyError, q_trained) /\
  exists a1,
    load_q_value q_document mc0 = (Raises KeyError, a1) /\
    n_values a1 = n_values mc0 /\
    forall key,
      q_values a1 !! key
      = merged parse_state_replace
          [("(2, 2, 2, 2)", [7; 8]); ("(4, 4, 4, 4)", [9; 10])]
          (q_values mc0) key.
Proof.
  split; [|split].
  - apply (proj1 (load_q_value_missing_section q_document dq0)).
    + vm_compute. reflexivity.
    + left. reflexivity.
  - apply (proj1 (proj2 (load_q_value_missing_section dq_document q_trained))).
    + vm_compute. discriminate.
    + reflexivity.
  - apply (proj2 (proj2 (load_q_value_missing_section q_document mc0))).
    + vm_compute. reflexivity.
    + reflexivity.
    + reflexivity.
    + repeat (apply Forall_cons_2;
              [eexists; vm_compute; reflexivity|]).
      apply Forall_nil_2.
Defined.





(** ** The text of the keys the program makes *)

Lemma discretize_state_key_ok a obs :
  bins_small a -> key_ok (discretize_state a obs).
Proof.
  unfold bins_small, discretize_state.
  destruct (discretize_state_weight a) as [[[b1 b2] b3] b4].
  intros (H1 & H2 & H3 & H4). split; [simpl; lia|].
  assert (Hd : forall bound bins raw, (Z.of_nat bins < 2 ^ 53)%Z ->
            (Z.abs (Z.of_nat (discretize_dim bound bins raw)) < 2 ^ 53)%Z).
  { intros bound bins raw Hb.
    pose proof (discretize_dim_range bound bins raw). lia. }
  repeat constructor; apply Hd; assumption.
Qed.

(** X21.  With bin counts below 2^53, every state key that
    [discretize_state] makes survives the checkpoint format: its text,
    whether the components are printed as ints or as floats, is read back
    to the same key by the parser of either loading loop. *)
Theorem state_key_text_roundtrip a obs (is_float : bool) :
  bins_small a ->
  parse_state_strip (str_tuple is_float (discretize_state a obs))
  = Some (discretize_state a obs) /\
  parse_state_replace (str_tuple is_float (discretize_state a obs))
  = Some (discretize_state a obs).
Proof.
  intros H. pose proof (discretize_state_key_ok a obs H) as Hk. split.
  - apply parse_state_strip_str_tuple. exact Hk.
  - apply parse_state_replace_str_tuple. exact Hk.
Qed.

Lemma state_key_text_roundtrip_witness :
  parse_state_strip (str_tuple true (discretize_state dq0 obs_high))
  = Some (discretize_state dq0 obs_high) /\
  parse_state_replace (str_tuple true (discretize_state dq0 obs_high))
  = Some (discretize_state dq0 obs_high).
Proof.
  apply (state_key_text_roundtrip dq0 obs_high true).
  vm_compute. repeat split.
Defined.

(** ** The greedy choice of Double Q-Learning *)

(** X22.  When Double Q-Learning does not explore and both rows of the
    state are non-empty, the chosen index holds, in one of the two rows,
    a value that no value of either row exceeds: the choice is an action
    of the largest value found in the two tables. *)
Theorem double_q_select_maximum a d key :
  control_type a = DOUBLE_Q_LEARNING ->
  ~ rand d < epsilon a ->
  elems (row_or_default Qa_values key a) <> [] ->
  elems (row_or_default Qb_values key a) <> [] ->
  exists best v a',
    get_discretize_action d key a = (Returns (Z.of_nat best), a') /\
    (elems (row_or_default Qa_values key a) !! best = Some v \/
     elems (row_or_default Qb_values key a) !! best = Some v) /\
    (forall j w, elems (row_or_default Qa_values key a) !! j = Some w ->
                 w <= v) /\
    (forall j w, elems (row_or_default Qb_values key a) !! j = Some w ->
                 w <= v).
Proof.
  intros Hct Hdraw Ha Hb.
  destruct (np_argmax_is_Some _ Ha) as [i1 H1].
  destruct (np_argmax_is_Some _ Hb) as [i2 H2].
  destruct (np_argmax_spec _ _ H1) as (v1 & Hv1 & Hmax1 & _).
  destruct (np_argmax_spec _ _ H2) as (v2 & Hv2 & Hmax2 & _).
  exists (if Qle_bool v2 v1 then i1 else i2),
         (if Qle_bool v2 v1 then v1 else v2).
  eexists. split.
  - apply (select_double_run a d key i1 i2 v1 v2); try assumption.
    apply Qltb_false_not. exact Hdraw.
  - destruct (Qle_bool v2 v1) eqn:E.
    + apply Qle_bool_iff in E. split; [left; exact Hv1|]. split.
      * exact Hmax1.
      * intros j w Hw. specialize (Hmax2 j w Hw). lra.
    + assert (Hlt : v1 < v2).
      { apply Qnot_le_lt. intros H. apply Qle_bool_iff in H. congruence. }
      split; [right; exact Hv2|]. split.
      * intros j w Hw. specialize (Hmax1 j w Hw). lra.
      * exact Hmax2.
Qed.

Lemma double_q_select_maximum_witness :
  exists best v a',
    get_discretize_action exploit_draw tie_key dq_tie
    = (Returns (Z.of_nat best), a') /\
    (elems (row_or_default Qa_values tie_key dq_tie) !! best = Some v \/
     elems (row_or_default Qb_values tie_key dq_tie) !! best = Some v) /\
    (forall j w,
       elems (row_or_default Qa_values tie_key dq_tie) !! j = Some w ->
       w <= v) /\
    (forall j w,
       elems (row_or_default Qb_values tie_key dq_tie) !! j = Some w ->
       w <= v).
Proof.
  apply (double_q_select_maximum dq_tie exploit_draw tie_key).
  - vm_compute. reflexivity.
  - vm_compute. discriminate.
  - vm_compute. discriminate.
  - vm_compute. discriminate.
Defined.

(** ** What each method leaves alone *)

Lemma keeps_frame_randint d n : keeps_frame (np_random_randint d n).
Proof. destruct n; simpl; auto with frame. Qed.

Lemma keeps_frame_select d key : keeps_frame (get_discretize_action d key).
Proof. intros a. apply select_frame. Qed.

Lemma keeps_frame_get_action d obs : keeps_frame (get_action d obs).
Proof.
  intros a. unfold get_action, bind, gets. cbv beta iota.
  pose proof (select_frame a d (discretize_state a obs)) as Hf.
  destruct (get_discretize_action d (discretize_state a obs) a)
    as [[i|e] a1]; exact Hf.
Qed.

Lemma keeps_frame_save : keeps_frame save_q_value.
Proof.
  intros a. destruct (save_q_value_cases a) as [-> _].
  apply same_frame_refl.
Qed.

Lemma keeps_frame_load_rows parse t entries :
  keeps_frame (load_rows parse t entries).
Proof.
  induction entries as [|[state values] rest IH]; simpl; [auto with frame|].
  frame_steps; exact IH.
Qed.

Lemma keeps_frame_load_q_rows entries : keeps_frame (load_q_rows entries).
Proof.
  induction entries as [|[state values] rest IH]; simpl; [auto with frame|].
  frame_steps; exact IH.
Qed.

Lemma keeps_frame_load data : keeps_frame (load_q_value data).
Proof.
  unfold load_q_value.
  frame_steps;
    try apply keeps_frame_load_rows; try apply keeps_frame_load_q_rows.
Qed.

Lemma keeps_frame_update_arm target other s action reward s' :
  keeps_frame (Double_Q_Learning.update_arm target other s action reward s').
Proof.
  intros a. rewrite update_arm_eq.
  destruct (max_or_zero other s' a); [|apply same_frame_refl].
  cbv zeta.
  destruct (vec_get _ action); [|apply same_frame_materialise].
  destruct (vec_set _ action _); [|apply same_frame_materialise].
  simpl. eapply same_frame_trans;
    [apply same_frame_materialise | apply same_frame_set_table].
Qed.

(** X23.  The attributes set by the constructor (control type, learning
    rate, discount, decay and floor of epsilon, number of actions, action
    range, bin counts) and [training_error] are changed by no method.
    [get_action], [save_q_value] and [load_q_value] change tables only;
    [Double_Q_Learning.update] changes tables and the toggle only;
    [MC.update] changes tables and the histories only; [decay_epsilon]
    changes epsilon only. *)
Theorem methods_keep_settings a :
  (forall d obs, same_frame a (get_action d obs a).2) /\
  same_frame a (save_q_value a).2 /\
  (forall data, same_frame a (load_q_value data a).2) /\
  (forall obs action reward next_obs,
     let a' := (Double_Q_Learning.update obs action reward next_obs a).2 in
     same_frame a (set_check_update a' (check_update a))) /\
  (forall done obs action reward_value,
     let a' := (MC.update done obs action reward_value a).2 in
     same_frame a
       (set_hist a' (obs_hist a) (action_hist a) (reward_hist a))) /\
  (same_frame a (set_epsilon (decay_epsilon a) (epsilon a)) /\
   forall t, get_table t (decay_epsilon a) = get_table t a).
Proof.
  split; [intros d obs; apply keeps_frame_get_action|].
  split; [apply keeps_frame_save|].
  split; [intros data; apply keeps_frame_load|].
  split; [|split].
  - intros obs action reward next_obs a'. subst a'.
    rewrite update_unfold.
    pose proof (keeps_frame_update_arm (target_table (check_update a))
                  (other_table (check_update a)) (discretize_state a obs)
                  action reward (discretize_state a next_obs) a) as Hf.
    destruct (Double_Q_Learning.update_arm _ _ _ _ _ _ a) as [[[]|e] a1];
      simpl in *; unfold same_frame in *; simpl; intuition congruence.
  - intros done obs action reward_value a'. subst a'.
    destruct done.
    + unfold MC.update, bind, gets. change (negb true) with false.
      cbv beta iota.
      pose proof (keeps_frame_first_visit_loop
                    (MC.compute_returns (discount_factor a) (reward_hist a))
                    (seq 0 (length (obs_hist a))) ∅ a) as Hf.
      destruct (MC.first_visit_loop _ _ _ a) as [[[]|e] a1];
        simpl in *; unfold same_frame in *; simpl; intuition congruence.
    + unfold same_frame. simpl. repeat split.
  - split; [unfold same_frame; simpl; repeat split|].
    intros t. destruct t; reflexivity.
Qed.

(** ** The rows of a written checkpoint *)

Lemma section_of_texts_distinct t a :
  (forall k, is_Some (get_table t a !! k) -> key_ok k) ->
  NoDup (section_of t a).*1.
Proof.
  intros Hkeys. unfold section_of.
  rewrite <- list_fmap_compose.
  apply NoDup_fmap_2_strong; [|apply NoDup_map_to_list].
  intros [k1 v1] [k2 v2] H1 H2 E. simpl in E.
  apply elem_of_map_to_list in H1. apply elem_of_map_to_list in H2.
  pose proof (keys_parse_strip t a Hkeys k1 v1 H1) as P1.
  pose proof (keys_parse_strip t a Hkeys k2 v2 H2) as P2.
  rewrite E in P1. rewrite P1 in P2. injection P2 as ->.
  rewrite H1 in H2. injection H2 as ->. reflexivity.
Qed.

Lemma saved_section t a file a0 :
  save_q_value a = (Returns file, a0) ->
  t ∈ saved_tables (control_type a) ->
  ck_section t file = Some (section_of t a).
Proof.
  intros Hsave Ht. apply save_q_value_returns in Hsave as [_ ->].
  destruct (control_type a); cbn [saved_tables] in Ht;
    repeat (apply elem_of_cons in Ht as [->|Ht]; [reflexivity|]);
    apply elem_of_nil in Ht; contradiction.
Qed.

(** X24.  When [save_q_value] writes a file and the keys of a saved table
    are tuples of at least two integers that a double holds exactly, the
    section of that table has one entry for each row of the table and no
    two entries have the same key text: no row is lost or merged in
    writing. *)
Theorem save_q_value_keeps_every_row a file a0 t :
  save_q_value a = (Returns file, a0) ->
  t ∈ saved_tables (control_type a) ->
  (forall k, is_Some (get_table t a !! k) -> key_ok k) ->
  exists sec,
    ck_section t file = Some sec /\
    NoDup sec.*1 /\
    length sec = size (get_table t a) /\
    forall k v, get_table t a !! k = Some v ->
      (str_key t a k, elems v) ∈ sec.
Proof.
  intros Hsave Ht Hkeys. exists (section_of t a).
  split; [eapply saved_section; eassumption|].
  split; [apply section_of_texts_distinct; exact Hkeys|].
  split.
  - unfold section_of. rewrite length_map. apply length_map_to_list.
  - intros k v Hkv. unfold section_of.
    apply (list_elem_of_fmap_2
             (fun kv : list Z * vec => (str_key t a kv.1, elems kv.2))
             (map_to_list (get_table t a)) (k, v)).
    apply elem_of_map_to_list. exact Hkv.
Qed.

Lemma keys_ok_check_ok t a :
  keys_ok_check t a = true ->
  forall k, is_Some (get_table t a !! k) -> key_ok k.
Proof.
  intros H k [v Hv]. revert k v Hv.
  apply (Forall_map_to_list (fun k _ => key_ok k)).
  apply (Forall_check _
           (fun kv : list Z * vec =>
              (2 <=? length kv.1)%nat
              && forallb (fun z => (Z.abs z <? 2 ^ 53)%Z) kv.1));
    [|exact H].
  intros kv. apply key_ok_check.
Qed.

Lemma save_q_value_keeps_every_row_witness :
  exists file sec,
    save_q_value dq_trained = (Returns file, dq_trained) /\
    ck_section Qa_values file = Some sec /\
    NoDup sec.*1 /\
    length sec = size (get_table Qa_values dq_trained) /\
    forall k v, get_table Qa_values dq_trained !! k = Some v ->
      (str_key Qa_values dq_trained k, elems v) ∈ sec.
Proof.
  assert (Hct : control_type dq_trained = DOUBLE_Q_LEARNING)
    by (vm_compute; reflexivity).
  destruct (save_q_value_arrays dq_trained) as [file Hsave].
  { intros t Ht. rewrite Hct in Ht. cbn [saved_tables] in Ht.
    apply all_arrays_check_ok.
    apply elem_of_cons in Ht as [->|Ht];
      [|apply elem_of_cons in Ht as [->|Ht];
        [|apply elem_of_nil in Ht; contradiction]];
      vm_compute; reflexivity. }
  exists file.
  destruct (save_q_value_keeps_every_row dq_trained file dq_trained Qa_values
              Hsave) as (sec & H).
  - rewrite Hct. left.
  - apply keys_ok_check_ok. vm_compute. reflexivity.
  - exists sec. split; [exact Hsave | exact H].
Defined.

(** ** Training after loading *)

Lemma get_action_state d obs a :
  (get_action d obs a).2
  = (get_discretize_action d (discretize_state a obs) a).2.
Proof.
  unfold get_action, bind, gets. cbv beta iota.
  destruct (get_discretize_action d (discretize_state a obs) a)
    as [[i|e] a1]; reflexivity.
Qed.

(** X25.  A list row and an array row in [q_values] cannot be written
    together.  So an object other than Double Q-Learning that holds a
    loaded row and then meets, without exploring, a state that has no row
    yet, can no longer be saved: the selection has stored the zero array
    for the new state, and [save_q_value] raises [TypeError]. *)
Theorem save_after_load_and_new_state_fails a d obs k xs :
  control_type a <> DOUBLE_Q_LEARNING ->
  ~ rand d < epsilon a ->
  q_values a !! discretize_state a obs = None ->
  q_values a !! k = Some (PyList xs) ->
  (save_q_value (get_action d obs a).2).1 = Raises TypeError.
Proof.
  intros Hct Hdraw Hnew Hlist.
  set (key := discretize_state a obs) in *.
  assert (Hstate : (get_action d obs a).2 = materialise Q_values key a).
  { rewrite get_action_state, select_state. fold key.
    rewrite (Qltb_false_not _ _ Hdraw).
    assert (E : ControlType_eqb (control_type a) DOUBLE_Q_LEARNING = false)
      by (destruct (control_type a); try reflexivity; congruence).
    rewrite E. reflexivity. }
  rewrite Hstate. set (a1 := materialise Q_values key a).
  assert (Hct1 : control_type a1 = control_type a)
    by apply materialise_config.
  assert (Hk : q_values a1 !! k = Some (PyList xs)).
  { change (get_table Q_values a1 !! k = Some (PyList xs)).
    unfold a1. rewrite materialise_lookup_ne; [exact Hlist|].
    intros ->. change (q_values a !! k) with (get_table Q_values a !! k) in *.
    congruence. }
  assert (Hz : q_values a1 !! key = Some (zero_row a)).
  { change (get_table Q_values a1 !! key = Some (zero_row a)).
    unfold a1. rewrite materialise_lookup. f_equal.
    apply row_or_default_missing. exact Hnew. }
  assert (Hmixed : ~ (all_arrays Q_values a1 \/ all_lists Q_values a1)).
  { intros [H|H].
    - destruct (H k _ Hk) as [ys E]. discriminate.
    - destruct (H key _ Hz) as [ys E]. discriminate. }
  destruct (save_q_value_cases a1) as (_ & _ & Hfail).
  assert (Herr : save_error (control_type a1) = TypeError).
  { rewrite Hct1. destruct (control_type a); try reflexivity; congruence. }
  rewrite <- Herr. apply Hfail. unfold saveable. rewrite Hct1.
  destruct (control_type a); try congruence; tauto.
Qed.

Lemma save_after_load_and_new_state_fails_witness :
  (save_q_value
     (get_action exploit_draw obs_low
        (set_epsilon (load_q_value q_document q_trained).2 0)).2).1
  = Raises TypeError.
Proof.
  apply (save_after_load_and_new_state_fails
           (set_epsilon (load_q_value q_document q_trained).2 0)
           exploit_draw obs_low tie_key [7; 8]).
  - vm_compute. discriminate.
  - vm_compute. discriminate.
  - vm_compute. reflexivity.
  - vm_compute. reflexivity.
Defined.

Lemma list_row_kept_by_arm target other s action reward s' a t k xs :
  get_table t a !! k = Some (PyList xs) ->
  exists ys,
    get_table t
      (Double_Q_Learning.update_arm target other s action reward s' a).2 !! k
    = Some (PyList ys).
Proof.
  intros Hrow. rewrite update_arm_eq.
  assert (Hm : get_table t (materialise target s a) !! k = Some (PyList xs)).
  { destruct (materialise_lookup_cases target s a t k)
      as [E|(-> & -> & E & _)]; [rewrite E; exact Hrow | congruence]. }
  destruct (max_or_zero other s' a); [|eauto]. cbv zeta.
  destruct (vec_get _ action) as [old|]; [|eauto].
  destruct (vec_set (row_or_default target s a) action _) as [row'|] eqn:Eset;
    [|eauto].
  simpl.
  destruct (decide (t = target)) as [->|Ht];
    [|rewrite get_set_table_ne by congruence; eauto].
  rewrite get_set_table_eq.
  destruct (decide (k = s)) as [->|Hk];
    [|rewrite lookup_insert_ne by congruence; eauto].
  rewrite lookup_insert_eq.
  unfold row_or_default in Eset. rewrite Hrow in Eset. simpl in Eset.
  unfold vec_set in Eset. simpl in Eset.
  destruct (py_index (length xs) action); [|discriminate].
  injection Eset as <-. eauto.
Qed.

(** X26.  Training never turns a list row into an array: a list row of
    any table is still a list row, under the same key, after a
    [Double_Q_Learning.update], whatever its outcome.  So a Double
    Q-Learning object that cannot be saved because of a list row stays
    that way through every update. *)
Theorem double_q_update_keeps_list_rows a obs action reward next_obs :
  let a' := (Double_Q_Learning.update obs action reward next_obs a).2 in
  (forall t k xs, get_table t a !! k = Some (PyList xs) ->
     exists ys, get_table t a' !! k = Some (PyList ys)) /\
  (control_type a = DOUBLE_Q_LEARNING -> ~ saveable a ->
   (save_q_value a').1 = Raises AttributeError).
Proof.
  cbv zeta.
  assert (Hrows : forall t k xs, get_table t a !! k = Some (PyList xs) ->
            exists ys,
              get_table t
                (Double_Q_Learning.update obs action reward next_obs a).2 !! k
              = Some (PyList ys)).
  { intros t k xs Hrow. rewrite update_unfold.
    destruct (list_row_kept_by_arm (target_table (check_update a))
                (other_table (check_update a)) (discretize_state a obs)
                action reward (discretize_state a next_obs) a t k xs Hrow)
      as [ys Hys].
    destruct (Double_Q_Learning.update_arm _ _ _ _ _ _ a) as [[[]|e] a1];
      simpl in *; rewrite ?get_table_set_check_update; eauto. }
  split; [exact Hrows|].
  intros Hct Hbad.
  set (a' := (Double_Q_Learning.update obs action reward next_obs a).2) in *.
  assert (Hct' : control_type a' = DOUBLE_Q_LEARNING).
  { unfold a'. rewrite update_unfold.
    pose proof (keeps_frame_update_arm (target_table (check_update a))
                  (other_table (check_update a)) (discretize_state a obs)
                  action reward (discretize_state a next_obs) a) as Hf.
    destruct (Double_Q_Learning.update_arm _ _ _ _ _ _ a) as [[[]|e] a1];
      simpl in *; destruct Hf as [E _]; rewrite <- Hct; exact E. }
  destruct (save_q_value_cases a') as (_ & _ & Hfail).
  rewrite Hct' in Hfail. apply Hfail.
  unfold saveable in *. rewrite Hct in Hbad. rewrite Hct'.
  intros [HA HB]. apply Hbad.
  assert (Hback : forall t, all_arrays t a' -> all_arrays t a).
  { intros t H k v Hkv. destruct v as [xs|xs]; [eauto|].
    destruct (Hrows t k xs Hkv) as [ys Hys].
    destruct (H k _ Hys) as [zs E]. discriminate. }
  split; apply Hback; assumption.
Qed.

Lemma double_q_update_keeps_list_rows_witness :
  (save_q_value
     (Double_Q_Learning.update obs_origin 1 1 obs_origin dq_lists).2).1
  = Raises AttributeError.
Proof.
  assert (Hct : control_type dq_lists = DOUBLE_Q_LEARNING)
    by (vm_compute; reflexivity).
  apply (proj2 (double_q_update_keeps_list_rows dq_lists obs_origin 1 1
                  obs_origin)); [exact Hct|].
  unfold saveable. rewrite Hct. intros [H _].
  destruct (H tie_key (PyList [1; 0; 0; 0; 0; 0; 0; 0; 0; 0; 0]))
    as [xs E]; [vm_compute; reflexivity | discriminate].
Defined.

(** ** The buckets that are used *)





